(** * FraiseQL Relay extension: global IDs, node resolution, view refresh

    A shallow embedding of [fraiseql_relay.c] (the PostgreSQL extension that
    implements the Relay "Node" interface for FraiseQL) together with the
    properties its specification states about it.

    The C file is glue around PostgreSQL: it formats strings, calls builtins
    ([uuid_out], [uuid_in], [encode], [decode]) and runs SQL through SPI.  The
    embedding keeps the control flow of each C function (every early return,
    every [ereport]/[elog] at level ERROR, every loop) and models the
    collaborators that are not part of the repository in the modules
    [CString], [Uuid], [Base64] and [Spi] below. *)

From Stdlib Require Import Bool List Arith NArith ZArith Lia.
From Stdlib Require Import Ascii String DecimalString.
From Stdlib Require Import Sorting.Sorted Sorting.Permutation.
Import ListNotations.

Open Scope string_scope.

(* ================================================================== *)
(** * C strings *)
(* ================================================================== *)

Module CString.

(** A [char *] is read up to its terminating NUL.  A buffer is a [string]
    that may hold NUL characters; [cstring] is what C code sees in it. *)
Definition NUL : ascii := "000"%char.

Fixpoint cstring (buf : string) : string :=
  match buf with
  | EmptyString => EmptyString
  | String c rest => if (c =? NUL)%char then EmptyString else String c (cstring rest)
  end.

(** [valid_text s]: [s] may be the content of a PostgreSQL [text] datum
    (the server never stores a NUL character in one). *)
Fixpoint valid_text (s : string) : bool :=
  match s with
  | EmptyString => true
  | String c rest => negb (c =? NUL)%char && valid_text rest
  end.

(** [text_to_cstring] and [cstring_to_text] copy through a NUL-terminated
    buffer. *)
Definition text_to_cstring (t : string) : string := cstring t.
Definition cstring_to_text (s : string) : string := cstring s.

(** [strchr s c]: offset of the first [c] in the C string [s], or [None]
    for the NULL pointer. *)
Fixpoint strchr (s : string) (c : ascii) : option nat :=
  match s with
  | EmptyString => None
  | String a rest =>
      if (a =? NUL)%char then None
      else if (a =? c)%char then Some 0
      else option_map S (strchr rest c)
  end.

(** The part of a buffer before offset [n], and the part from [n] on. *)
Fixpoint take (n : nat) (s : string) : string :=
  match n, s with
  | S n', String a rest => String a (take n' rest)
  | _, _ => EmptyString
  end.

Fixpoint drop (n : nat) (s : string) : string :=
  match n, s with
  | S n', String _ rest => drop n' rest
  | _, _ => s
  end.

(** [contains c s]: the character [c] occurs in [s]. *)
Fixpoint contains (c : ascii) (s : string) : bool :=
  match s with
  | EmptyString => false
  | String a rest => (a =? c)%char || contains c rest
  end.

(** [until c s]: the text before the first [c], and the text after it. *)
Fixpoint until (c : ascii) (s : string) : option (string * string) :=
  match s with
  | EmptyString => None
  | String a r =>
      if (a =? c)%char then Some (EmptyString, r)
      else match until c r with
           | Some (w, r') => Some (String a w, r')
           | None => None
           end
  end.

(** [starts_with c s]: the first character of [s] is [c]. *)
Definition starts_with (c : ascii) (s : string) : bool :=
  match s with
  | String a _ => (a =? c)%char
  | EmptyString => false
  end.

(** [all_chars p s]: every character of [s] satisfies [p]. *)
Fixpoint all_chars (p : ascii -> bool) (s : string) : bool :=
  match s with
  | EmptyString => true
  | String c r => p c && all_chars p r
  end.

(** The double quote, which a message puts around a name or a text. *)
Definition dquote : ascii := "034"%char.

Definition in_quotes (s : string) : string := String dquote (s ++ String dquote "").

(** [%s] conversion of [appendStringInfo]: PostgreSQL's [snprintf] prints a
    NULL pointer as ["(null)"]. *)
Definition fmt_s (arg : option string) : string :=
  match arg with
  | Some s => cstring s
  | None => "(null)"
  end.

(** [sprintf fmt args]: the text [appendStringInfo (buf, fmt, args...)]
    appends to [buf]; the only conversion the source uses in a buffer is
    [%s]. *)
Fixpoint sprintf (fmt : string) (args : list (option string)) : string :=
  match fmt with
  | EmptyString => EmptyString
  | String "%" (String "s" rest) =>
      match args with
      | a :: args' => fmt_s a ++ sprintf rest args'
      | [] => sprintf rest []
      end
  | String c rest => String c (sprintf rest args)
  end.

End CString.

(* ================================================================== *)
(** * UUIDs *)
(* ================================================================== *)

Module Uuid.
Import CString.

(** PostgreSQL's [uuid] type with its input and output functions and its
    comparison, as [utils/uuid.h] and the builtins [uuid_in], [uuid_out] and
    [uuid_cmp] define them.

    [pg_uuid_t] is [struct { unsigned char data[UUID_LEN]; }] with
    [UUID_LEN = 16]. *)
Inductive pg_uuid_t : Type :=
  UUID (d0 d1 d2 d3 d4 d5 d6 d7 d8 d9 d10 d11 d12 d13 d14 d15 : ascii).

Definition UUID_LEN : nat := 16.

Definition uuid_data (u : pg_uuid_t) : list ascii :=
  match u with
  | UUID d0 d1 d2 d3 d4 d5 d6 d7 d8 d9 d10 d11 d12 d13 d14 d15 =>
      [d0; d1; d2; d3; d4; d5; d6; d7; d8; d9; d10; d11; d12; d13; d14; d15]
  end.

Definition uuid_of_data (l : list ascii) : option pg_uuid_t :=
  match l with
  | [d0; d1; d2; d3; d4; d5; d6; d7; d8; d9; d10; d11; d12; d13; d14; d15] =>
      Some (UUID d0 d1 d2 d3 d4 d5 d6 d7 d8 d9 d10 d11 d12 d13 d14 d15)
  | _ => None
  end.

(** The digits [uuid_out] prints with: ["0123456789abcdef"[n]]. *)
Definition hex_chars (n : N) : ascii :=
  match String.get (N.to_nat n) "0123456789abcdef" with
  | Some c => c
  | None => "0"%char
  end.

Definition hi_nibble (d : ascii) : N := N.shiftr (N_of_ascii d) 4.
Definition lo_nibble (d : ascii) : N := N.land (N_of_ascii d) 15.

(** [uuid_out]: 8, 4, 4, 4 and 12 lower-case hexadecimal digits, the groups
    separated by a hyphen; the loop runs over the bytes with their index. *)
Fixpoint uuid_out_loop (i : nat) (data : list ascii) : string :=
  match data with
  | [] => ""
  | d :: rest =>
      (if ((i =? 4) || (i =? 6) || (i =? 8) || (i =? 10))%nat then "-" else "")
      ++ String (hex_chars (hi_nibble d))
           (String (hex_chars (lo_nibble d)) (uuid_out_loop (S i) rest))
  end.

Definition uuid_out (u : pg_uuid_t) : string := uuid_out_loop 0 (uuid_data u).

(** [isxdigit] together with the value [strtoul (_, 16)] gives the digit. *)
Definition hex_val (c : ascii) : option N :=
  let n := N_of_ascii c in
  if ((48 <=? n) && (n <=? 57))%N then Some (n - 48)%N
  else if ((97 <=? n) && (n <=? 102))%N then Some (n - 87)%N
  else if ((65 <=? n) && (n <=? 70))%N then Some (n - 55)%N
  else None.

(** [string_to_uuid]: [n] bytes remain to be read, the next one has index
    [i]; each byte is two hexadecimal digits, and a hyphen is accepted after
    every second byte but the last. *)
Fixpoint string_to_uuid_loop (n i : nat) (src : string)
  : option (list ascii * string) :=
  match n with
  | 0 => Some ([], src)
  | S n' =>
      match src with
      | String c0 (String c1 src1) =>
          match hex_val c0, hex_val c1 with
          | Some h, Some l =>
              let src2 :=
                match src1 with
                | String c2 src2 =>
                    if (c2 =? "-")%char && Nat.odd i && (i <? 15)%nat
                    then src2 else src1
                | EmptyString => src1
                end in
              match string_to_uuid_loop n' (S i) src2 with
              | Some (ds, rest) => Some (ascii_of_N (h * 16 + l)%N :: ds, rest)
              | None => None
              end
          | _, _ => None
          end
      | _ => None
      end
  end.

(** [uuid_in]: optional braces around the digits, nothing after them.
    [None] stands for the error "invalid input syntax for type uuid". *)
Definition uuid_in (s : string) : option pg_uuid_t :=
  let src := cstring s in
  let braces := match src with String c _ => (c =? "{")%char | _ => false end in
  let src := if braces then drop 1 src else src in
  match string_to_uuid_loop UUID_LEN 0 src with
  | Some (ds, rest) =>
      let rest' :=
        if braces
        then match rest with
             | String c r => if (c =? "}")%char then Some r else None
             | EmptyString => None
             end
        else Some rest in
      match rest' with
      | Some EmptyString => uuid_of_data ds
      | _ => None
      end
  | None => None
  end.

(** A text is a UUID when it holds no NUL byte and [uuid_in] reads it. *)
Definition uuid_syntax (s : string) : bool :=
  valid_text s && match uuid_in s with Some _ => true | None => false end.

(** [uuid_cmp] is [memcmp] over the sixteen bytes. *)
Fixpoint memcmp (a b : list ascii) : comparison :=
  match a, b with
  | x :: a', y :: b' =>
      match (N_of_ascii x ?= N_of_ascii y)%N with
      | Eq => memcmp a' b'
      | c => c
      end
  | [], [] => Eq
  | [], _ :: _ => Lt
  | _ :: _, [] => Gt
  end.

Definition uuid_cmp (a b : pg_uuid_t) : comparison :=
  memcmp (uuid_data a) (uuid_data b).

Definition uuid_eqb (a b : pg_uuid_t) : bool :=
  match uuid_cmp a b with Eq => true | _ => false end.

(** The two digits [uuid_out] prints for the byte [d], before [rest]. *)
Definition byte_text (d : ascii) (rest : string) : string :=
  String (hex_chars (hi_nibble d)) (String (hex_chars (lo_nibble d)) rest).

(** What [string_to_uuid_loop] returns once the byte [d] is read. *)
Definition read_more (d : ascii) (r : option (list ascii * string))
  : option (list ascii * string) :=
  match r with
  | Some (ds, rest) => Some (d :: ds, rest)
  | None => None
  end.

(** The characters of a canonical UUID text: digits and the hyphen. *)
Definition is_uuid_char (c : ascii) : bool :=
  match hex_val c with Some _ => true | None => (c =? "-")%char end.

End Uuid.

(* ================================================================== *)
(** * Base64 *)
(* ================================================================== *)

Module Base64.
Import CString.

(** Modelled from the spec: [encode] and [decode], the reversible
    byte-to-text transform that [fraiseql_encode_global_id] and
    [fraiseql_decode_global_id] call through [DirectFunctionCall1]; neither
    is defined under src/.  The source names them "Base64 encode" and "Base64
    decode"; the spec fixes "standard base64", "standard alphabet, no newline
    wrapping", and that a text that "cannot be reverse-transformed" is an
    error. *)
Definition alphabet : string :=
  "ABCDEFGHIJKLMNOPQRSTUVWXYZabcdefghijklmnopqrstuvwxyz0123456789+/".

Definition b64_char (n : N) : ascii :=
  match String.get (N.to_nat n) alphabet with
  | Some c => c
  | None => "A"%char
  end.

Definition b64_val (c : ascii) : option N :=
  let n := N_of_ascii c in
  if ((65 <=? n) && (n <=? 90))%N then Some (n - 65)%N
  else if ((97 <=? n) && (n <=? 122))%N then Some (n - 71)%N
  else if ((48 <=? n) && (n <=? 57))%N then Some (n + 4)%N
  else if (n =? 43)%N then Some 62%N
  else if (n =? 47)%N then Some 63%N
  else None.

(** Three bytes make one 24-bit group, read as four 6-bit digits. *)
Definition group (a b c : ascii) : N :=
  (N_of_ascii a * 65536 + N_of_ascii b * 256 + N_of_ascii c)%N.

Definition digit (k : N) (g : N) : ascii :=
  b64_char ((g / 64 ^ (3 - k)) mod 64)%N.

Definition ungroup (v1 v2 v3 v4 : N) : N :=
  (((v1 * 64 + v2) * 64 + v3) * 64 + v4)%N.

Definition byte (k : N) (g : N) : ascii :=
  ascii_of_N ((g / 256 ^ (2 - k)) mod 256)%N.

Definition pad : ascii := "="%char.

Fixpoint encode (data : string) : string :=
  match data with
  | EmptyString => EmptyString
  | String a EmptyString =>
      let g := group a zero zero in
      String (digit 0 g) (String (digit 1 g) (String pad (String pad EmptyString)))
  | String a (String b EmptyString) =>
      let g := group a b zero in
      String (digit 0 g) (String (digit 1 g) (String (digit 2 g)
        (String pad EmptyString)))
  | String a (String b (String c rest)) =>
      let g := group a b c in
      String (digit 0 g) (String (digit 1 g) (String (digit 2 g)
        (String (digit 3 g) (encode rest))))
  end.

(** [decode] returns [None] where the text is not base64: a length that is
    not a multiple of four, a character outside the alphabet, or padding
    anywhere but at the end of the last group. *)
Fixpoint decode (text : string) : option string :=
  match text with
  | EmptyString => Some EmptyString
  | String c1 (String c2 (String c3 (String c4 rest))) =>
      match b64_val c1, b64_val c2 with
      | Some v1, Some v2 =>
          match b64_val c3, b64_val c4 with
          | Some v3, Some v4 =>
              let g := ungroup v1 v2 v3 v4 in
              match decode rest with
              | Some data =>
                  Some (String (byte 0 g) (String (byte 1 g) (String (byte 2 g) data)))
              | None => None
              end
          | Some v3, None =>
              let g := ungroup v1 v2 v3 0 in
              match rest with
              | EmptyString =>
                  if (c4 =? pad)%char
                  then Some (String (byte 0 g) (String (byte 1 g) EmptyString))
                  else None
              | _ => None
              end
          | None, _ =>
              let g := ungroup v1 v2 0 0 in
              match rest with
              | EmptyString =>
                  if (c3 =? pad)%char && (c4 =? pad)%char
                  then Some (String (byte 0 g) EmptyString)
                  else None
              | _ => None
              end
          end
      | _, _ => None
      end
  | _ => None
  end.

End Base64.

(* ================================================================== *)
(** * The function-call interface of PostgreSQL *)
(* ================================================================== *)

Module Pg.

(** The SQLSTATE codes the source reports, those of the builtins it calls,
    and those of the errors that the server raises while it runs a
    statement.  [elog (ERROR, ...)] carries [ERRCODE_INTERNAL_ERROR]. *)
Inductive sqlstate : Type :=
| ERRCODE_FEATURE_NOT_SUPPORTED
| ERRCODE_DATATYPE_MISMATCH
| ERRCODE_INVALID_PARAMETER_VALUE
| ERRCODE_INVALID_TEXT_REPRESENTATION
| ERRCODE_INTERNAL_ERROR
| ERRCODE_SYNTAX_ERROR
| ERRCODE_UNDEFINED_TABLE
| ERRCODE_UNDEFINED_COLUMN
| ERRCODE_UNDEFINED_PARAMETER
| ERRCODE_WRONG_OBJECT_TYPE
| ERRCODE_DUPLICATE_TABLE.

Record ErrorData : Type := ereport_ERROR { sqlerrcode : sqlstate; message : string }.

Definition elog_ERROR (msg : string) : ErrorData :=
  ereport_ERROR ERRCODE_INTERNAL_ERROR msg.

(** A call either returns or leaves through [ereport (ERROR, ...)]. *)
Inductive outcome (A : Type) : Type :=
| Return (a : A)
| Raise (e : ErrorData).
Arguments Return {A} a.
Arguments Raise {A} e.

Declare Scope pg_scope.
Delimit Scope pg_scope with pg.
Notation "'check' c 'else' e ;; k" := (if c then k else Raise e)
  (at level 61, c at next level, e at next level, right associativity) : pg_scope.

(** A call into the server that raises [ereport (ERROR, ...)] does not
    come back: the error leaves the calling function too (the source has no
    [PG_TRY]). *)
Notation "x <- m ;; k" := (match m with Return x => k | Raise e => Raise e end)
  (at level 61, m at next level, right associativity) : pg_scope.
Notation "' pat <- m ;; k" := (match m with Return pat => k | Raise e => Raise e end)
  (at level 61, pat pattern, m at next level, right associativity) : pg_scope.

(** The result class [get_call_result_type] reports for the call. *)
Inductive TypeFuncClass : Type :=
| TYPEFUNC_SCALAR
| TYPEFUNC_COMPOSITE
| TYPEFUNC_COMPOSITE_DOMAIN
| TYPEFUNC_RECORD
| TYPEFUNC_OTHER.

Definition is_composite (c : TypeFuncClass) : bool :=
  match c with TYPEFUNC_COMPOSITE => true | _ => false end.

(** [fcinfo->resultinfo]: NULL, a [ReturnSetInfo] node with its
    [allowedModes] bit mask, or a node of another kind. *)
Inductive resultinfo_node : Type :=
| T_ReturnSetInfo (allowedModes : Z)
| T_other.

Record FunctionCallInfo : Type := {
  resultinfo : option resultinfo_node;
  get_call_result_type : TypeFuncClass
}.

Definition SFRM_ValuePerCall : Z := 1.
Definition SFRM_Materialize : Z := 2.

(** The error kinds of the specification that the codec can report, as
    classes of [ErrorData].  [InvalidFormat] is a data exception (SQLSTATE
    class 22): what the source reports for a missing separator and what the
    builtins report for text they cannot read. *)
Definition InvalidFormat (e : ErrorData) : Prop :=
  sqlerrcode e = ERRCODE_INVALID_PARAMETER_VALUE \/
  sqlerrcode e = ERRCODE_INVALID_TEXT_REPRESENTATION.

End Pg.

(* ================================================================== *)
(** * The storage engine behind SPI *)
(* ================================================================== *)

Module Spi.
Import CString Uuid Pg.

(** The server that the extension talks to through SPI ([executor/spi.h]) is
    not part of the repository.  This module is a small engine for the
    statements that [fraiseql_relay.c] sends: it reads the text of a
    statement, and runs it over a state made of the entity registry, named
    tables, the definition of [core.v_nodes] and a list of indexes.

    A statement that cannot be run gives no status back: the server raises
    the error inside [SPI_execute], and the error leaves the C function that
    made the call, as it does in PostgreSQL.

    The engine knows the statements of the source and no others.  It reads
    one statement per text and takes an identifier as it is written, where a
    server folds it to lower case, refuses key words and runs several
    statements from one text.  The two agree on the texts of the resolvers,
    which carry UUIDs only, and on the text of the view where the names of
    the registry are plain ([Relay.safe_descriptor]); what is stated below
    about the statement of the view is stated for such registries, or for
    the one registry of a counterexample. *)

(** ** Values and their order *)

Inductive value : Type :=
| VUuid (u : pg_uuid_t)
| VText (s : string)
| VJsonb (j : string)
| VTimestamptz (t : N).

(** A [Datum] together with its [isnull] flag: [None] is SQL NULL. *)
Definition Datum : Type := option value.

(** The output function of the value's type, as [SPI_getvalue] calls it. *)
Definition output (v : value) : string :=
  match v with
  | VUuid u => uuid_out u
  | VText s => s
  | VJsonb j => j
  | VTimestamptz t => NilEmpty.string_of_uint (N.to_uint t)
  end.

Definition bytes (s : string) : list N := map N_of_ascii (list_ascii_of_string s).

(** Sort keys.  Values of one type compare the way the type does (text
    byte by byte, UUIDs by [memcmp]); NULL sorts after every value, the
    default of an ascending ORDER BY. *)
Definition datum_key (d : Datum) : list N :=
  match d with
  | Some (VUuid u) => 0%N :: 0%N :: map N_of_ascii (uuid_data u)
  | Some (VText s) => 0%N :: 1%N :: bytes s
  | Some (VJsonb j) => 0%N :: 2%N :: bytes j
  | Some (VTimestamptz t) => 0%N :: 3%N :: [t]
  | None => [1%N]
  end.

Fixpoint lex {A : Type} (cmp : A -> A -> comparison) (a b : list A) : comparison :=
  match a, b with
  | [], [] => Eq
  | [], _ :: _ => Lt
  | _ :: _, [] => Gt
  | x :: a', y :: b' =>
      match cmp x y with
      | Eq => lex cmp a' b'
      | c => c
      end
  end.

Definition key_cmp : list (list N) -> list (list N) -> comparison :=
  lex (lex N.compare).

Definition key_leb (k1 k2 : list (list N)) : bool :=
  match key_cmp k1 k2 with Gt => false | _ => true end.

Definition datum_eqb (a b : Datum) : bool :=
  match lex N.compare (datum_key a) (datum_key b) with Eq => true | _ => false end.

(** A stable sort by key. *)
Section Sort.
Context {A : Type} (key : A -> list (list N)).

Fixpoint insert_by (x : A) (l : list A) : list A :=
  match l with
  | [] => [x]
  | y :: l' => if key_leb (key x) (key y) then x :: l else y :: insert_by x l'
  end.

Fixpoint sort_by (l : list A) : list A :=
  match l with
  | [] => []
  | x :: l' => insert_by x (sort_by l')
  end.

(** [key_le x y]: the key of [x] is at most that of [y]. *)
Definition key_le (x y : A) : Prop := key_leb (key x) (key y) = true.

End Sort.

(** ** Relations *)

Definition tuple : Type := list Datum.

Record relation : Type := { columns : list string; tuples : list tuple }.

Fixpoint column_index (c : string) (cols : list string) : option nat :=
  match cols with
  | [] => None
  | c' :: rest => if (c =? c')%string then Some 0 else option_map S (column_index c rest)
  end.

Definition has_column (cols : list string) (c : string) : bool :=
  match column_index c cols with Some _ => true | None => false end.

(** The value of column [c] in a row; SQL NULL where the row is short. *)
Definition cell (cols : list string) (c : string) (row : tuple) : Datum :=
  match column_index c cols with
  | Some i => nth i row None
  | None => None
  end.

(** One row of [core.tb_entity_registry].  The registry declares
    [entity_name], [graphql_type], [pk_column] and [source_table] NOT NULL;
    the other three columns may be NULL. *)
Record registry_row : Type := {
  entity_name : string;
  graphql_type : string;
  pk_column : string;
  tv_table : option string;
  v_table : option string;
  source_table : string;
  soft_delete_column : option string
}.

Definition text_datum (o : option string) : Datum := option_map VText o.

Definition registry_columns : list string :=
  ["entity_name"; "graphql_type"; "pk_column"; "tv_table"; "v_table";
   "source_table"; "soft_delete_column"].

Definition registry_tuple (r : registry_row) : tuple :=
  [Some (VText (entity_name r)); Some (VText (graphql_type r));
   Some (VText (pk_column r)); text_datum (tv_table r); text_datum (v_table r);
   Some (VText (source_table r)); text_datum (soft_delete_column r)].

(** ** The SQL the extension sends

    The statements are texts; the engine reads a text before it runs it.
    The grammar covers the statements of [fraiseql_relay.c]: a SELECT over
    one relation, the definition of a view as a UNION ALL of such SELECTs,
    and the creation and removal of an index. *)

Inductive atom : Type :=
| AColumn (c : string)
| ALiteral (s : string)
| ANullCast (ty : string).

Inductive expr : Type :=
| EAtom (a : atom)
| ECoalesce (a b : atom).

Inductive condition : Type :=
| CFalse
| CIsNull (c : string)
| CIsNotNull (c : string)
| CEqParam (c : string) (n : nat)
| CEqAny (c : string) (items : list string).

Record select : Type := {
  targets : list (expr * string);
  from : option string;
  where_ : condition;
  order_by : list string;
  limit : option nat
}.

Inductive statement : Type :=
| Select (q : select)
| CreateOrReplaceView (name : string) (branches : list select)
| DropIndexIfExists (name : string)
| CreateIndex (name rel col : string).

Declare Scope parse_scope.
Delimit Scope parse_scope with parse.
Notation "' pat <- m ;; k" := (match m with Some pat => k | None => None end)
  (at level 61, pat pattern, m at next level, right associativity) : parse_scope.
Notation "x <- m ;; k" := (match m with Some x => k | None => None end)
  (at level 61, m at next level, right associativity) : parse_scope.
Local Open Scope parse_scope.

(** [expect p s]: [s] without its prefix [p]. *)
Fixpoint expect (p s : string) : option string :=
  match p with
  | EmptyString => Some s
  | String a p' =>
      match s with
      | String c s' => if (a =? c)%char then expect p' s' else None
      | EmptyString => None
      end
  end.

Definition in_range (lo hi : N) (c : ascii) : bool :=
  ((lo <=? N_of_ascii c) && (N_of_ascii c <=? hi))%N.

Definition is_digit (c : ascii) : bool := in_range 48 57 c.

(** Letters, digits, the underscore, and the dot of a qualified name. *)
Definition is_ident_char (c : ascii) : bool :=
  in_range 97 122 c || in_range 65 90 c || is_digit c
  || (c =? "_")%char || (c =? ".")%char.

(** [span p s]: the longest prefix of [s] made of [p] characters, and the
    rest. *)
Fixpoint span (p : ascii -> bool) (s : string) : string * string :=
  match s with
  | EmptyString => (EmptyString, EmptyString)
  | String c r =>
      if p c then let (w, r') := span p r in (String c w, r')
      else (EmptyString, s)
  end.

Definition ident (s : string) : option (string * string) :=
  match span is_ident_char s with
  | (EmptyString, _) => None
  | (w, r) => Some (w, r)
  end.

Definition number (s : string) : option (nat * string) :=
  match span is_digit s with
  | (EmptyString, _) => None
  | (w, r) =>
      Some (fold_left (fun n c => 10 * n + (nat_of_ascii c - 48))
              (list_ascii_of_string w) 0, r)
  end.

(** A string constant between single quotes. *)
Definition quoted (s : string) : option (string * string) :=
  match s with
  | String c r => if (c =? "'")%char then until "'" r else None
  | EmptyString => None
  end.

Definition parse_atom (s : string) : option (atom * string) :=
  if starts_with "'" s then '(l, r) <- quoted s ;; Some (ALiteral l, r)
  else
    '(w, r) <- ident s ;;
    match expect "::" r with
    | Some r1 =>
        if (w =? "NULL")%string
        then '(ty, r2) <- ident r1 ;; Some (ANullCast ty, r2)
        else None
    | None => Some (AColumn w, r)
    end.

Definition parse_expr (s : string) : option (expr * string) :=
  '(a, r) <- parse_atom s ;;
  match expect "(" r with
  | Some r1 =>
      match a with
      | AColumn "COALESCE" =>
          '(x, r2) <- parse_atom r1 ;;
          r3 <- expect ", " r2 ;;
          '(y, r4) <- parse_atom r3 ;;
          r5 <- expect ")" r4 ;;
          Some (ECoalesce x y, r5)
      | _ => None
      end
  | None => Some (EAtom a, r)
  end.

(** The name of an output column without an alias. *)
Definition default_name (e : expr) : string :=
  match e with
  | EAtom (AColumn c) => c
  | _ => "?column?"
  end.

Definition parse_target (s : string) : option ((expr * string) * string) :=
  '(e, r) <- parse_expr s ;;
  match expect " as " r with
  | Some r1 => '(alias, r2) <- ident r1 ;; Some ((e, alias), r2)
  | None => Some ((e, default_name e), r)
  end.

Fixpoint parse_targets (fuel : nat) (s : string)
  : option (list (expr * string) * string) :=
  match fuel with
  | 0 => None
  | S fuel' =>
      '(t, r) <- parse_target s ;;
      match expect ", " r with
      | Some r1 => '(ts, r2) <- parse_targets fuel' r1 ;; Some (t :: ts, r2)
      | None => Some ([t], r)
      end
  end.

(** The elements of [ARRAY[...]], after the opening bracket and up to the
    closing one: string constants separated by commas, or nothing. *)
Fixpoint parse_items (fuel : nat) (s : string) : option (list string * string) :=
  match fuel with
  | 0 => None
  | S fuel' =>
      '(i, r) <- quoted s ;;
      match expect "," r with
      | Some r1 => '(l, r2) <- parse_items fuel' r1 ;; Some (i :: l, r2)
      | None => r1 <- expect "]" r ;; Some ([i], r1)
      end
  end.

Definition parse_array (fuel : nat) (s : string) : option (list string * string) :=
  r <- expect "ARRAY[" s ;;
  '(l, r1) <- match expect "]" r with
              | Some r1 => Some ([], r1)
              | None => parse_items fuel r
              end ;;
  r2 <- expect "::uuid[]" r1 ;;
  Some (l, r2).

Definition parse_condition (fuel : nat) (s : string) : option (condition * string) :=
  '(c, r) <- ident s ;;
  match expect " IS NULL" r with
  | Some r1 => Some (CIsNull c, r1)
  | None =>
  match expect " IS NOT NULL" r with
  | Some r1 => Some (CIsNotNull c, r1)
  | None =>
  match expect " = $" r with
  | Some r1 => '(n, r2) <- number r1 ;; Some (CEqParam c n, r2)
  | None =>
  match expect " = ANY(" r with
  | Some r1 =>
      '(l, r2) <- parse_array fuel r1 ;;
      r3 <- expect ")" r2 ;;
      Some (CEqAny c l, r3)
  | None => if (c =? "FALSE")%string then Some (CFalse, r) else None
  end end end end.

Fixpoint parse_order (fuel : nat) (s : string) : option (list string * string) :=
  match fuel with
  | 0 => None
  | S fuel' =>
      '(c, r) <- ident s ;;
      match expect ", " r with
      | Some r1 => '(l, r2) <- parse_order fuel' r1 ;; Some (c :: l, r2)
      | None => Some ([c], r)
      end
  end.

Definition parse_select (fuel : nat) (s : string) : option (select * string) :=
  r <- expect "SELECT " s ;;
  '(ts, r1) <- parse_targets fuel r ;;
  '(fr, r2) <- match expect " FROM " r1 with
               | Some r' => '(rel, r'') <- ident r' ;; Some (Some rel, r'')
               | None => Some (None, r1)
               end ;;
  r3 <- expect " WHERE " r2 ;;
  '(c, r4) <- parse_condition fuel r3 ;;
  '(ob, r5) <- match expect " ORDER BY " r4 with
               | Some r' => parse_order fuel r'
               | None => Some ([], r4)
               end ;;
  '(lim, r6) <- match expect " LIMIT " r5 with
                | Some r' => '(n, r'') <- number r' ;; Some (Some n, r'')
                | None => Some (None, r5)
                end ;;
  Some ({| targets := ts; from := fr; where_ := c; order_by := ob; limit := lim |},
        r6).

Fixpoint parse_union (k fuel : nat) (s : string) : option (list select * string) :=
  match k with
  | 0 => None
  | S k' =>
      '(q, r) <- parse_select fuel s ;;
      match expect " UNION ALL " r with
      | Some r1 => '(qs, r2) <- parse_union k' fuel r1 ;; Some (q :: qs, r2)
      | None => Some ([q], r)
      end
  end.

(** A statement is read to the end of its text. *)
Definition complete {A : Type} (p : option (A * string)) : option A :=
  match p with
  | Some (a, EmptyString) => Some a
  | _ => None
  end.

Definition parse_statement (sql : string) : option statement :=
  let fuel := String.length sql in
  match expect "CREATE OR REPLACE VIEW " sql with
  | Some r =>
      '(name, r1) <- ident r ;;
      r2 <- expect " AS " r1 ;;
      qs <- complete (parse_union fuel fuel r2) ;;
      Some (CreateOrReplaceView name qs)
  | None =>
  match expect "DROP INDEX IF EXISTS " sql with
  | Some r => name <- complete (ident r) ;; Some (DropIndexIfExists name)
  | None =>
  match expect "CREATE INDEX " sql with
  | Some r =>
      '(name, r1) <- ident r ;;
      r2 <- expect " ON " r1 ;;
      '(rel, r3) <- ident r2 ;;
      r4 <- expect "(" r3 ;;
      '(col, r5) <- ident r4 ;;
      r6 <- complete (option_map (fun r => (tt, r)) (expect ")" r5)) ;;
      Some (CreateIndex name rel col)
  | None => q <- complete (parse_select fuel sql) ;; Some (Select q)
  end end end.

(** ** The backend state and the evaluation of a statement *)

Record index : Type := { index_name : string; index_rel : string; index_col : string }.

Record backend : Type := {
  tb_entity_registry : list registry_row;   (* core.tb_entity_registry *)
  tables : list (string * relation);        (* the other base relations *)
  v_nodes : option (list select);           (* the definition of core.v_nodes *)
  indexes : list index;
  connect_status : Z                        (* what SPI_connect returns *)
}.

Definition SPI_OK_CONNECT : Z := 1.
Definition SPI_OK_UTILITY : Z := 4.
Definition SPI_OK_SELECT : Z := 5.

Fixpoint assoc {A : Type} (k : string) (l : list (string * A)) : option A :=
  match l with
  | [] => None
  | (k', a) :: rest => if (k =? k')%string then Some a else assoc k rest
  end.

Definition registry_relation (b : backend) : relation :=
  {| columns := registry_columns;
     tuples := map registry_tuple (tb_entity_registry b) |}.

Definition base_relation (b : backend) (name : string) : option relation :=
  if (name =? "core.tb_entity_registry")%string then Some (registry_relation b)
  else assoc name (tables b).

Definition eval_atom (cols : list string) (row : tuple) (a : atom) : Datum :=
  match a with
  | AColumn c => cell cols c row
  | ALiteral s => Some (VText s)
  | ANullCast _ => None
  end.

Definition eval_expr (cols : list string) (row : tuple) (e : expr) : Datum :=
  match e with
  | EAtom a => eval_atom cols row a
  | ECoalesce a b =>
      match eval_atom cols row a with
      | Some v => Some v
      | None => eval_atom cols row b
      end
  end.

Definition atom_ok (cols : list string) (a : atom) : bool :=
  match a with
  | AColumn c => has_column cols c
  | _ => true
  end.

Definition expr_ok (cols : list string) (e : expr) : bool :=
  match e with
  | EAtom a => atom_ok cols a
  | ECoalesce a b => atom_ok cols a && atom_ok cols b
  end.

Definition condition_ok (cols : list string) (c : condition) : bool :=
  match c with
  | CFalse => true
  | CIsNull c | CIsNotNull c | CEqParam c _ | CEqAny c _ => has_column cols c
  end.

(** The cast [::uuid[]] reads every element with [uuid_in]. *)
Fixpoint cast_uuid_array (items : list string) : option (list pg_uuid_t) :=
  match items with
  | [] => Some []
  | i :: rest =>
      match uuid_in i, cast_uuid_array rest with
      | Some u, Some l => Some (u :: l)
      | _, _ => None
      end
  end.

Definition is_null (d : Datum) : bool :=
  match d with None => true | Some _ => false end.

(** The rows a condition keeps; [None] where the condition cannot be
    evaluated (a parameter that is not bound, an element that is not a
    UUID).  A comparison with NULL keeps nothing. *)
Definition eval_condition (cols : list string) (params : list Datum) (c : condition)
  : option (tuple -> bool) :=
  match c with
  | CFalse => Some (fun _ => false)
  | CIsNull c => Some (fun row => is_null (cell cols c row))
  | CIsNotNull c => Some (fun row => negb (is_null (cell cols c row)))
  | CEqParam c n =>
      match n, nth_error params (n - 1) with
      | S _, Some p =>
          Some (fun row =>
                  negb (is_null p) && negb (is_null (cell cols c row))
                  && datum_eqb (cell cols c row) p)
      | _, _ => None
      end
  | CEqAny c items =>
      match cast_uuid_array items with
      | Some ids =>
          Some (fun row =>
                  match cell cols c row with
                  | Some (VUuid u) => existsb (uuid_eqb u) ids
                  | _ => false
                  end)
      | None => None
      end
  end.

Definition order_key (cols order : list string) (row : tuple) : list (list N) :=
  map (fun c => datum_key (cell cols c row)) order.

(** WHERE, then the target list, then ORDER BY over the output columns,
    then LIMIT. *)
Definition eval_select (rel : relation) (params : list Datum) (q : select)
  : option (list tuple) :=
  let out := map snd (targets q) in
  if forallb (fun t => expr_ok (columns rel) (fst t)) (targets q)
     && condition_ok (columns rel) (where_ q)
     && forallb (has_column out) (order_by q)
  then
    match eval_condition (columns rel) params (where_ q) with
    | Some keep =>
        let rows :=
          map (fun row => map (fun t => eval_expr (columns rel) row (fst t)) (targets q))
              (filter keep (tuples rel)) in
        let sorted := sort_by (order_key out (order_by q)) rows in
        Some (match limit q with
              | Some n => firstn n sorted
              | None => sorted
              end)
    | None => None
    end
  else None.

(** A SELECT without FROM runs over one row without columns. *)
Definition no_relation : relation := {| columns := []; tuples := [[]] |}.

Definition branch_rows (b : backend) (q : select) : option (list tuple) :=
  match from q with
  | Some name =>
      match base_relation b name with
      | Some rel => eval_select rel [] q
      | None => None
      end
  | None => eval_select no_relation [] q
  end.

(** UNION ALL: the rows of the branches one after the other. *)
Fixpoint union_rows (b : backend) (branches : list select) : option (list tuple) :=
  match branches with
  | [] => Some []
  | q :: rest =>
      match branch_rows b q, union_rows b rest with
      | Some rows, Some more => Some (rows ++ more)%list
      | _, _ => None
      end
  end.

(** The columns of a view are those of its first branch; every branch has
    as many. *)
Definition view_columns (branches : list select) : list string :=
  match branches with
  | q :: _ => map snd (targets q)
  | [] => []
  end.

Definition view_ok (branches : list select) : bool :=
  match branches with
  | [] => false
  | q :: _ =>
      forallb (fun q' => (List.length (targets q') =? List.length (targets q))%nat) branches
  end.

Definition view_relation (b : backend) (branches : list select) : option relation :=
  if view_ok branches then
    match union_rows b branches with
    | Some rows => Some {| columns := view_columns branches; tuples := rows |}
    | None => None
    end
  else None.

Definition resolve (b : backend) (name : string) : option relation :=
  if (name =? "core.v_nodes")%string then
    match v_nodes b with
    | Some branches => view_relation b branches
    | None => None
    end
  else base_relation b name.

(** The name of an index without its schema. *)
Fixpoint unqualified (name : string) : string :=
  match name with
  | EmptyString => EmptyString
  | String c rest =>
      if contains "." rest then unqualified rest
      else if (c =? ".")%char then rest else name
  end.

Record spi_result : Type := {
  status : Z;
  SPI_processed : nat;
  SPI_tuptable : list tuple;
  after : backend
}.

Definition utility (b : backend) : spi_result :=
  {| status := SPI_OK_UTILITY; SPI_processed := 0; SPI_tuptable := []; after := b |}.

Definition with_view (b : backend) (branches : list select) : backend :=
  {| tb_entity_registry := tb_entity_registry b; tables := tables b;
     v_nodes := Some branches; indexes := indexes b;
     connect_status := connect_status b |}.

Definition with_indexes (b : backend) (l : list index) : backend :=
  {| tb_entity_registry := tb_entity_registry b; tables := tables b;
     v_nodes := v_nodes b; indexes := l;
     connect_status := connect_status b |}.

(** ** The errors that the server raises

    A statement that the server cannot run does not give [SPI_execute] a
    status to return: the server raises [ereport (ERROR, ...)] while it
    reads or runs the statement, and the error leaves [SPI_execute] and the
    function that called it.  The SQLSTATE and the message are those of
    PostgreSQL; the message of a syntax error there also names the token at
    which the statement stops being one, which is left out here. *)
Definition syntax_error : ErrorData :=
  ereport_ERROR ERRCODE_SYNTAX_ERROR "syntax error".

Definition undefined_table (name : string) : ErrorData :=
  ereport_ERROR ERRCODE_UNDEFINED_TABLE
    ("relation " ++ in_quotes name ++ " does not exist").

Definition undefined_column (c : string) : ErrorData :=
  ereport_ERROR ERRCODE_UNDEFINED_COLUMN
    ("column " ++ in_quotes c ++ " does not exist").

Definition undefined_parameter (n : nat) : ErrorData :=
  ereport_ERROR ERRCODE_UNDEFINED_PARAMETER
    ("there is no parameter $" ++ NilEmpty.string_of_uint (Nat.to_uint n)).

(** The error of [uuid_in] for a text that is not a UUID. *)
Definition invalid_uuid (source : string) : ErrorData :=
  ereport_ERROR ERRCODE_INVALID_TEXT_REPRESENTATION
    ("invalid input syntax for type uuid: " ++ in_quotes (cstring source)).

(** CREATE INDEX on a relation that is a view. *)
Definition cannot_create_index (rel : string) : ErrorData :=
  ereport_ERROR ERRCODE_WRONG_OBJECT_TYPE
    ("cannot create index on relation " ++ in_quotes (unqualified rel)).

Definition duplicate_relation (name : string) : ErrorData :=
  ereport_ERROR ERRCODE_DUPLICATE_TABLE
    ("relation " ++ in_quotes name ++ " already exists").

Definition union_columns_mismatch : ErrorData :=
  ereport_ERROR ERRCODE_SYNTAX_ERROR
    "each UNION query must have the same number of columns".

(** The columns that a statement names, in the order in which the server
    looks them up: the target list, then the condition. *)
Definition atom_columns (a : atom) : list string :=
  match a with
  | AColumn c => [c]
  | _ => []
  end.

Definition expr_columns (e : expr) : list string :=
  match e with
  | EAtom a => atom_columns a
  | ECoalesce a b => (atom_columns a ++ atom_columns b)%list
  end.

Definition condition_columns (c : condition) : list string :=
  match c with
  | CFalse => []
  | CIsNull c | CIsNotNull c | CEqParam c _ | CEqAny c _ => [c]
  end.

Definition first_missing (cols names : list string) : option string :=
  find (fun c => negb (has_column cols c)) names.

(** The first element of an array literal that is not a UUID. *)
Definition first_invalid_uuid (items : list string) : option string :=
  find (fun i => match uuid_in i with Some _ => false | None => true end) items.

(** The error of a SELECT that [eval_select] cannot run over [rel]. *)
Definition select_error (rel : relation) (params : list Datum) (q : select) : ErrorData :=
  match first_missing (columns rel)
          (flat_map (fun t => expr_columns (fst t)) (targets q)
           ++ condition_columns (where_ q))%list with
  | Some c => undefined_column c
  | None =>
      match where_ q, first_missing (map snd (targets q)) (order_by q) with
      | CEqParam _ n, _ => undefined_parameter n
      | CEqAny _ items, Some c =>
          match first_invalid_uuid items with
          | Some i => invalid_uuid i
          | None => undefined_column c
          end
      | CEqAny _ items, None =>
          match first_invalid_uuid items with
          | Some i => invalid_uuid i
          | None => syntax_error
          end
      | _, Some c => undefined_column c
      | _, None => syntax_error
      end
  end.

(** The error of the first branch of a view that cannot be run, or that of
    branches that differ in their number of columns. *)
Definition branch_error (b : backend) (q : select) : option ErrorData :=
  match from q with
  | Some name =>
      match base_relation b name with
      | Some rel =>
          match eval_select rel [] q with
          | Some _ => None
          | None => Some (select_error rel [] q)
          end
      | None => Some (undefined_table name)
      end
  | None =>
      match eval_select no_relation [] q with
      | Some _ => None
      | None => Some (select_error no_relation [] q)
      end
  end.

Fixpoint view_error (b : backend) (branches : list select) : ErrorData :=
  match branches with
  | [] => union_columns_mismatch
  | q :: rest =>
      match branch_error b q with
      | Some e => e
      | None => view_error b rest
      end
  end.

(** The error of a statement over a relation that [resolve] does not
    find. *)
Definition resolve_error (b : backend) (name : string) : ErrorData :=
  if (name =? "core.v_nodes")%string then
    match v_nodes b with
    | Some branches => view_error b branches
    | None => undefined_table name
    end
  else undefined_table name.

(** The rows of a SELECT; [count] is the row limit of [SPI_execute], zero
    is no limit. *)
Definition select_rows (b : backend) (rel : relation) (params : list Datum)
    (count : nat) (q : select) : outcome spi_result :=
  match eval_select rel params q with
  | Some rows =>
      let rows := match count with 0 => rows | _ => firstn count rows end in
      Return {| status := SPI_OK_SELECT; SPI_processed := List.length rows;
                SPI_tuptable := rows; after := b |}
  | None => Raise (select_error rel params q)
  end.

(** A statement either runs, and [SPI_execute] returns its status, or the
    server raises an error.  An index can be built on a table; on a view,
    and [core.v_nodes] is one, CREATE INDEX raises.  The source defines no
    view but [core.v_nodes], and the engine holds no other. *)
Definition execute (b : backend) (params : list Datum) (count : nat) (st : statement)
  : outcome spi_result :=
  match st with
  | Select q =>
      match from q with
      | Some name =>
          match resolve b name with
          | Some rel => select_rows b rel params count q
          | None => Raise (resolve_error b name)
          end
      | None => select_rows b no_relation params count q
      end
  | CreateOrReplaceView name branches =>
      if (name =? "core.v_nodes")%string then
        match view_relation b branches with
        | Some _ => Return (utility (with_view b branches))
        | None => Raise (view_error b branches)
        end
      else Raise (ereport_ERROR ERRCODE_FEATURE_NOT_SUPPORTED
                    "only core.v_nodes can be defined")
  | DropIndexIfExists name =>
      Return (utility (with_indexes b
                (filter (fun i => negb (index_name i =? unqualified name)%string)
                        (indexes b))))
  | CreateIndex name rel col =>
      match resolve b rel with
      | Some r =>
          if (rel =? "core.v_nodes")%string then Raise (cannot_create_index rel)
          else if negb (has_column (columns r) col) then Raise (undefined_column col)
          else if existsb (fun i => (index_name i =? name)%string) (indexes b)
          then Raise (duplicate_relation name)
          else Return (utility (with_indexes b
                 ({| index_name := name; index_rel := rel; index_col := col |}
                    :: indexes b)))
      | None => Raise (resolve_error b rel)
      end
  end.

(** [SPI_connect], [SPI_execute] and [SPI_execute_with_args].  [SPI_execute]
    returns the status of a statement that ran; for one that did not, the
    error of the server is raised through it. *)
Definition SPI_connect (b : backend) : Z := connect_status b.

Definition SPI_execute_with_args (b : backend) (sql : string) (args : list Datum)
    (read_only : bool) (count : nat) : outcome spi_result :=
  match parse_statement (cstring sql) with
  | Some st => execute b args count st
  | None => Raise syntax_error
  end.

Definition SPI_execute (b : backend) (sql : string) (read_only : bool) (count : nat)
  : outcome spi_result :=
  SPI_execute_with_args b sql [] read_only count.

(** [SPI_getbinval (row, desc, k, &isnull)] and [SPI_getvalue (row, desc, k)];
    columns are numbered from one. *)
Definition SPI_getbinval (row : tuple) (k : nat) : Datum := nth (k - 1) row None.

Definition SPI_getvalue (row : tuple) (k : nat) : option string :=
  option_map output (SPI_getbinval row k).

End Spi.

(* ================================================================== *)
(** * fraiseql_relay.c *)
(* ================================================================== *)

Module Relay.
Import CString Uuid Pg Spi.
Local Open Scope pg_scope.

(** What a function hands back to the executor: SQL NULL, a datum, or, for
    a set-returning function in materialize mode, the tuple store left in
    [rsinfo->setResult] (the function itself returns [(Datum) 0]). *)
Inductive result : Type :=
| PG_RETURN_NULL
| PG_RETURN_TEXT_P (t : string)
| PG_RETURN_BOOL (v : bool)
| PG_RETURN_DATUM (t : tuple)
| Materialized (tupstore : list tuple).

Definition appendStringInfoString (buf s : string) : string := buf ++ cstring s.

Definition appendStringInfo (buf fmt : string) (args : list (option string)) : string :=
  buf ++ sprintf fmt args.

Definition heap_form_tuple (values : list Datum) : tuple := values.

Definition is_ReturnSetInfo (n : option resultinfo_node) : bool :=
  match n with
  | Some (T_ReturnSetInfo _) => true
  | _ => false
  end.

Definition allowedModes (n : option resultinfo_node) : Z :=
  match n with
  | Some (T_ReturnSetInfo m) => m
  | _ => 0
  end.

(** ** fraiseql_resolve_node_fast *)

Definition fraiseql_resolve_node_fast (fcinfo : FunctionCallInfo) (b : backend)
    (arg0 : option pg_uuid_t) : outcome (result * backend) :=
  match arg0 with
  | None => Return (PG_RETURN_NULL, b)
  | Some node_id =>
      check is_ReturnSetInfo (resultinfo fcinfo)
      else ereport_ERROR ERRCODE_FEATURE_NOT_SUPPORTED
             "set-valued function called in context that cannot accept a set" ;;
      check negb (Z.land (allowedModes (resultinfo fcinfo)) SFRM_Materialize =? 0)%Z
      else ereport_ERROR ERRCODE_FEATURE_NOT_SUPPORTED
             "materialize mode required, but it is not allowed in this context" ;;
      check is_composite (get_call_result_type fcinfo)
      else elog_ERROR "return type must be a row type" ;;
      let tupstore : list tuple := [] in
      check (SPI_connect b =? SPI_OK_CONNECT)%Z
      else elog_ERROR "SPI_connect failed" ;;
      let query :=
        "SELECT __typename, data, entity_name FROM core.v_nodes WHERE id = $1 LIMIT 1" in
      let values := [Some (VUuid node_id)] in
      r <- SPI_execute_with_args b query values true 1 ;;
      check (status r =? SPI_OK_SELECT)%Z
      else elog_ERROR "SPI_execute_with_args failed" ;;
      let tupstore :=
        if (0 <? SPI_processed r)%nat then
          let spi_tuple := nth 0 (SPI_tuptable r) [] in
          let result_values :=
            [SPI_getbinval spi_tuple 1;        (* __typename *)
             SPI_getbinval spi_tuple 2;        (* data *)
             SPI_getbinval spi_tuple 3;        (* entity_name *)
             Some (VText "v_nodes")] in        (* source_used *)
          (tupstore ++ [heap_form_tuple result_values])%list
        else tupstore in
      Return (Materialized tupstore, after r)
  end.

(** ** fraiseql_resolve_nodes_batch *)

(** The argument array: its element type and, as [deconstruct_array] gives
    them, the elements with their null flags. *)
Record ArrayType : Type := {
  ARR_ELEMTYPE : Z;
  elems : list (option pg_uuid_t)
}.

Definition UUIDOID : Z := 2950.

(** The loop that writes the elements of the array literal; [i] is the index
    of the element at the head of [elems]. *)
Fixpoint ids_loop (i : nat) (elems : list (option pg_uuid_t)) (ids_buf : string)
  : string :=
  match elems with
  | [] => ids_buf
  | None :: rest => ids_loop (S i) rest ids_buf
  | Some u :: rest =>
      let ids_buf :=
        if (0 <? i)%nat then appendStringInfoString ids_buf "," else ids_buf in
      let ids_buf := appendStringInfo ids_buf "'%s'" [Some (uuid_out u)] in
      ids_loop (S i) rest ids_buf
  end.

Definition batch_ids (elems : list (option pg_uuid_t)) : string :=
  let ids_buf := appendStringInfoString "" "ARRAY[" in
  let ids_buf := ids_loop 0 elems ids_buf in
  appendStringInfoString ids_buf "]::uuid[]".

Definition batch_query (elems : list (option pg_uuid_t)) : string :=
  appendStringInfo ""
    "SELECT __typename, data, entity_name, id FROM core.v_nodes WHERE id = ANY(%s) ORDER BY __typename, id"
    [Some (batch_ids elems)].

(** The tuple the result loop stores for one row of the query. *)
Definition batch_tuple (spi_tuple : tuple) : tuple :=
  let result_values :=
    [SPI_getbinval spi_tuple 1;
     SPI_getbinval spi_tuple 2;
     SPI_getbinval spi_tuple 3;
     Some (VText "v_nodes_batch")] in
  heap_form_tuple result_values.

Definition fraiseql_resolve_nodes_batch (fcinfo : FunctionCallInfo) (b : backend)
    (arg0 : option ArrayType) : outcome (result * backend) :=
  match arg0 with
  | None => Return (PG_RETURN_NULL, b)
  | Some node_ids_array =>
      check (ARR_ELEMTYPE node_ids_array =? UUIDOID)%Z
      else ereport_ERROR ERRCODE_DATATYPE_MISMATCH "array must contain UUID elements" ;;
      check is_ReturnSetInfo (resultinfo fcinfo)
      else ereport_ERROR ERRCODE_FEATURE_NOT_SUPPORTED
             "set-valued function called in context that cannot accept a set" ;;
      check negb (Z.land (allowedModes (resultinfo fcinfo)) SFRM_Materialize =? 0)%Z
      else ereport_ERROR ERRCODE_FEATURE_NOT_SUPPORTED
             "materialize mode required, but it is not allowed in this context" ;;
      check is_composite (get_call_result_type fcinfo)
      else elog_ERROR "return type must be a row type" ;;
      let tupstore : list tuple := [] in
      check (SPI_connect b =? SPI_OK_CONNECT)%Z
      else elog_ERROR "SPI_connect failed" ;;
      let query_buf := batch_query (elems node_ids_array) in
      r <- SPI_execute b query_buf true 0 ;;
      check (status r =? SPI_OK_SELECT)%Z
      else elog_ERROR ("batch query failed: " ++ cstring query_buf) ;;
      let tupstore :=
        (tupstore ++ map batch_tuple (firstn (SPI_processed r) (SPI_tuptable r)))%list in
      Return (Materialized tupstore, after r)
  end.

(** ** fraiseql_encode_global_id *)

(** The composite string ["typename:uuid"]. *)
Definition composite (typeName : string) (localId : pg_uuid_t) : string :=
  typeName ++ String ":" (uuid_out localId).

Definition fraiseql_encode_global_id (arg0 : option string) (arg1 : option pg_uuid_t)
  : outcome result :=
  match arg0, arg1 with
  | Some typename_text, Some local_id =>
      let typename := text_to_cstring typename_text in
      let uuid_str := cstring (uuid_out local_id) in
      let buf := appendStringInfo "" "%s:%s" [Some typename; Some uuid_str] in
      let encoded := cstring (Base64.encode (cstring_to_text buf)) in
      Return (PG_RETURN_TEXT_P (cstring_to_text encoded))
  | _, _ => Return PG_RETURN_NULL
  end.

(** ** fraiseql_decode_global_id *)

Definition fraiseql_decode_global_id (fcinfo : FunctionCallInfo) (arg0 : option string)
  : outcome result :=
  match arg0 with
  | None => Return PG_RETURN_NULL
  | Some global_id_text =>
      let global_id := text_to_cstring global_id_text in
      match Base64.decode (cstring_to_text global_id) with
      | None =>
          Raise (ereport_ERROR ERRCODE_INVALID_PARAMETER_VALUE
                   "invalid base64 sequence")
      | Some payload =>
          let decoded := cstring payload in
          match strchr decoded ":" with
          | None =>
              Raise (ereport_ERROR ERRCODE_INVALID_PARAMETER_VALUE
                       "invalid global ID format: missing colon separator")
          | Some colon_pos =>
              let typename := take colon_pos decoded in
              let uuid_str := drop (S colon_pos) decoded in
              check is_composite (get_call_result_type fcinfo)
              else elog_ERROR "return type must be a row type" ;;
              match uuid_in uuid_str with
              | None => Raise (invalid_uuid uuid_str)
              | Some local_id =>
                  Return (PG_RETURN_DATUM
                            (heap_form_tuple [Some (VText typename); Some (VUuid local_id)]))
              end
          end
      end
  end.

(** ** fraiseql_refresh_nodes_view_fast *)

Definition registry_query : string :=
  "SELECT entity_name, graphql_type, pk_column, COALESCE(tv_table, v_table) as data_table, source_table, COALESCE(soft_delete_column, 'deleted_at') as delete_col FROM core.tb_entity_registry WHERE v_table IS NOT NULL ORDER BY entity_name".

Definition empty_view_sql : string :=
  "CREATE OR REPLACE VIEW core.v_nodes AS SELECT NULL::UUID as id, NULL::TEXT as __typename, NULL::TEXT as entity_name, NULL::TEXT as source_table, NULL::JSONB as data, NULL::TIMESTAMPTZ as created_at, NULL::TIMESTAMPTZ as updated_at WHERE FALSE".

Definition branch_format : string :=
  "SELECT %s as id, '%s' as __typename, '%s' as entity_name, '%s' as source_table, data, created_at, updated_at FROM %s WHERE %s IS NULL".

(** The loop over the registry rows; [i] is the index of the row at the
    head of [vals]. *)
Fixpoint view_loop (i : nat) (vals : list tuple) (view_sql : string) : string :=
  match vals with
  | [] => view_sql
  | tuple :: rest =>
      let entity_name := SPI_getvalue tuple 1 in
      let graphql_type := SPI_getvalue tuple 2 in
      let pk_column := SPI_getvalue tuple 3 in
      let data_table := SPI_getvalue tuple 4 in
      let source_table := SPI_getvalue tuple 5 in
      let delete_col := SPI_getvalue tuple 6 in
      let view_sql :=
        if (0 <? i)%nat then appendStringInfoString view_sql " UNION ALL "
        else view_sql in
      let view_sql :=
        appendStringInfo view_sql branch_format
          [pk_column; graphql_type; entity_name; source_table; data_table; delete_col] in
      view_loop (S i) rest view_sql
  end.

(** Lines 417-476: connect, read the registry, build the statement of the
    view in [view_sql] and run it.  What the rest of the function needs is
    [entity_count] and the backend after the statement. *)
Definition refresh_view (b : backend) : outcome (nat * backend) :=
  check (SPI_connect b =? SPI_OK_CONNECT)%Z
  else elog_ERROR "SPI_connect failed" ;;
  let view_sql := "" in
  r <- SPI_execute b registry_query true 0 ;;
  check (status r =? SPI_OK_SELECT)%Z
  else elog_ERROR "failed to query entity registry" ;;
  let entity_count := SPI_processed r in
  let view_sql :=
    if (entity_count =? 0)%nat then appendStringInfoString view_sql empty_view_sql
    else
      view_loop 0 (firstn entity_count (SPI_tuptable r))
        (appendStringInfoString view_sql "CREATE OR REPLACE VIEW core.v_nodes AS ") in
  r1 <- SPI_execute (after r) view_sql false 0 ;;
  check (status r1 =? SPI_OK_UTILITY)%Z
  else elog_ERROR "failed to refresh v_nodes view" ;;
  Return (entity_count, after r1).

(** Lines 478-488: the statements on the indexes, their return values
    unread. *)
Definition refresh_indexes (entity_count : nat) (b : backend) : outcome backend :=
  r2 <- SPI_execute b "DROP INDEX IF EXISTS core.idx_v_nodes_id" false 0 ;;
  r3 <- SPI_execute (after r2) "DROP INDEX IF EXISTS core.idx_v_nodes_typename" false 0 ;;
  r4 <- SPI_execute (after r3) "DROP INDEX IF EXISTS core.idx_v_nodes_entity_name" false 0 ;;
  if (0 <? entity_count)%nat then
    r5 <- SPI_execute (after r4) "CREATE INDEX idx_v_nodes_id ON core.v_nodes(id)" false 0 ;;
    r6 <- SPI_execute (after r5)
            "CREATE INDEX idx_v_nodes_typename ON core.v_nodes(__typename)" false 0 ;;
    r7 <- SPI_execute (after r6)
            "CREATE INDEX idx_v_nodes_entity_name ON core.v_nodes(entity_name)" false 0 ;;
    Return (after r7)
  else Return (after r4).

Definition fraiseql_refresh_nodes_view_fast (b : backend) : outcome (result * backend) :=
  '(entity_count, b1) <- refresh_view b ;;
  b2 <- refresh_indexes entity_count b1 ;;
  Return (PG_RETURN_BOOL true, b2).

(** ** The text of the batch query, element by element *)

Fixpoint non_null (elems : list (option pg_uuid_t)) : list pg_uuid_t :=
  match elems with
  | [] => []
  | Some u :: rest => u :: non_null rest
  | None :: rest => non_null rest
  end.

(** ['uuid'] before [rest]. *)
Definition quote_text (u : pg_uuid_t) (rest : string) : string :=
  String "'" (uuid_out u ++ String "'" rest).

(** [,'uuid'] for every element of [l], before [rest]. *)
Fixpoint tail_text (l : list pg_uuid_t) (rest : string) : string :=
  match l with
  | [] => rest
  | u :: l' => String "," (quote_text u (tail_text l' rest))
  end.

(** What [ids_loop] writes, from index zero, before [rest]. *)
Definition elems_text (elems : list (option pg_uuid_t)) (rest : string) : string :=
  match elems with
  | Some u :: more => quote_text u (tail_text (non_null more) rest)
  | None :: more => tail_text (non_null more) rest
  | [] => rest
  end.

(** The statement of the batch query over the elements [items]. *)
Definition batch_select (items : list string) : select :=
  {| targets := [(EAtom (AColumn "__typename"), "__typename");
                 (EAtom (AColumn "data"), "data");
                 (EAtom (AColumn "entity_name"), "entity_name");
                 (EAtom (AColumn "id"), "id")];
     from := Some "core.v_nodes";
     where_ := CEqAny "id" items;
     order_by := ["__typename"; "id"];
     limit := None |}.

(** The elements of the array literal, where it can be read. *)
Definition batch_items (elems : list (option pg_uuid_t)) : option (list string) :=
  match elems with
  | None :: more =>
      match non_null more with
      | [] => Some []
      | _ :: _ => None
      end
  | _ => Some (map uuid_out (non_null elems))
  end.

(** ** The rows of the batch query *)

Definition batch_columns : list string := ["__typename"; "data"; "entity_name"; "id"].

(** [id_in cols ids row]: the [id] of the row is one of [ids]. *)
Definition id_in (cols : list string) (ids : list pg_uuid_t) (row : tuple) : bool :=
  match cell cols "id" row with
  | Some (VUuid u) => existsb (uuid_eqb u) ids
  | _ => false
  end.

Definition project (cols names : list string) (row : tuple) : tuple :=
  map (fun c => cell cols c row) names.

(** The sort key of ORDER BY __typename, id over the rows of the query. *)
Definition typename_id_key : tuple -> list (list N) :=
  order_key batch_columns ["__typename"; "id"].

(** The rows of [rel] whose id is in [ids], as the batch query returns
    them. *)
Definition batch_rows (rel : relation) (ids : list pg_uuid_t) : list tuple :=
  sort_by typename_id_key
    (map (project (columns rel) batch_columns)
         (filter (id_in (columns rel) ids) (tuples rel))).

(** [nodes_view b rel]: [core.v_nodes] exists in [b], with the rows and
    columns of [rel], among them the four that the resolvers read. *)
Definition nodes_view (b : backend) (rel : relation) : Prop :=
  resolve b "core.v_nodes" = Some rel /\
  forallb (has_column (columns rel)) batch_columns = true.

(** [call_ok fcinfo b]: the call can return a materialized set of rows and
    SPI connects. *)
Definition call_ok (fcinfo : FunctionCallInfo) (b : backend) : Prop :=
  is_ReturnSetInfo (resultinfo fcinfo) = true /\
  (Z.land (allowedModes (resultinfo fcinfo)) SFRM_Materialize =? 0)%Z = false /\
  is_composite (get_call_result_type fcinfo) = true /\
  SPI_connect b = SPI_OK_CONNECT.

(** ** The registry as the refresh reads it *)

(** [COALESCE(tv_table, v_table)] and
    [COALESCE(soft_delete_column, 'deleted_at')]. *)
Definition data_table (r : registry_row) : option string :=
  match tv_table r with
  | Some t => Some t
  | None => v_table r
  end.

Definition delete_col (r : registry_row) : string :=
  match soft_delete_column r with
  | Some c => c
  | None => "deleted_at"
  end.

(** [WHERE v_table IS NOT NULL] and [ORDER BY entity_name]. *)
Definition is_registered (r : registry_row) : bool :=
  match v_table r with
  | Some _ => true
  | None => false
  end.

Definition entity_key (r : registry_row) : list (list N) :=
  [datum_key (Some (VText (entity_name r)))].

(** The entity descriptors: the rows of the registry that the query keeps,
    in its order. *)
Definition registered (b : backend) : list registry_row :=
  sort_by entity_key (filter is_registered (tb_entity_registry b)).

(** The row of the query for a descriptor. *)
Definition descriptor_tuple (r : registry_row) : tuple :=
  [Some (VText (entity_name r)); Some (VText (graphql_type r));
   Some (VText (pk_column r)); text_datum (data_table r);
   Some (VText (source_table r)); Some (VText (delete_col r))].

(** The statement of [registry_query]. *)
Definition registry_select : select :=
  {| targets := [(EAtom (AColumn "entity_name"), "entity_name");
                 (EAtom (AColumn "graphql_type"), "graphql_type");
                 (EAtom (AColumn "pk_column"), "pk_column");
                 (ECoalesce (AColumn "tv_table") (AColumn "v_table"), "data_table");
                 (EAtom (AColumn "source_table"), "source_table");
                 (ECoalesce (AColumn "soft_delete_column") (ALiteral "deleted_at"),
                  "delete_col")];
     from := Some "core.tb_entity_registry";
     where_ := CIsNotNull "v_table";
     order_by := ["entity_name"];
     limit := None |}.

(** ** The text of the view, branch by branch *)

(** Names that the statement can carry as they are: an identifier is a
    non-empty run of identifier characters, a string constant holds no
    quote. *)
Definition is_name (s : string) : bool :=
  negb (s =? "")%string && all_chars is_ident_char s.

Definition is_literal (s : string) : bool :=
  valid_text s && negb (contains "'" s).

Definition table_name (r : registry_row) : string :=
  match data_table r with
  | Some t => t
  | None => "(null)"
  end.

Definition descriptor_ok (r : registry_row) : bool :=
  is_name (pk_column r) && is_literal (graphql_type r)
  && is_literal (entity_name r) && is_literal (source_table r)
  && is_name (table_name r) && is_name (delete_col r).

(** Names that a server reads as the registry means them.  An unquoted
    identifier is folded to lower case, cut after 63 bytes, and refused
    where it is a key word; so a name is plain when it is made of lower-case
    letters, digits and underscores, starts with a letter or an underscore,
    is at most 63 bytes long and is none of the key words listed here: those
    that PostgreSQL reserves, those that it keeps for functions and types,
    and those that cannot name a function or a type.  A column is not named
    like a system column, a table may carry the name of its schema, and a
    string constant holds neither a quote nor a backslash. *)
Definition key_words : list string :=
  ["all"; "analyse"; "analyze"; "and"; "any"; "array"; "as"; "asc"; "asymmetric";
   "both"; "case"; "cast"; "check"; "collate"; "column"; "constraint"; "create";
   "current_catalog"; "current_date"; "current_role"; "current_time";
   "current_timestamp"; "current_user"; "default"; "deferrable"; "desc"; "distinct";
   "do"; "else"; "end"; "except"; "false"; "fetch"; "for"; "foreign"; "from"; "grant";
   "group"; "having"; "in"; "initially"; "intersect"; "into"; "lateral"; "leading";
   "limit"; "localtime"; "localtimestamp"; "not"; "null"; "offset"; "on"; "only"; "or";
   "order"; "placing"; "primary"; "references"; "returning"; "select"; "session_user";
   "some"; "symmetric"; "system_user"; "table"; "then"; "to"; "trailing"; "true";
   "union"; "unique"; "user"; "using"; "variadic"; "when"; "where"; "window"; "with";
   "authorization"; "binary"; "collation"; "concurrently"; "cross"; "current_schema";
   "freeze"; "full"; "ilike"; "inner"; "is"; "isnull"; "join"; "left"; "like";
   "natural"; "notnull"; "outer"; "overlaps"; "right"; "similar"; "tablesample";
   "verbose";
   "between"; "bigint"; "bit"; "boolean"; "char"; "character"; "coalesce"; "dec";
   "decimal"; "exists"; "extract"; "float"; "greatest"; "grouping"; "inout"; "int";
   "integer"; "interval"; "json"; "json_array"; "json_arrayagg"; "json_exists";
   "json_object"; "json_objectagg"; "json_query"; "json_scalar"; "json_serialize";
   "json_table"; "json_value"; "least"; "merge_action"; "national"; "nchar"; "none";
   "normalize"; "nullif"; "numeric"; "out"; "overlay"; "position"; "precision"; "real";
   "row"; "setof"; "smallint"; "substring"; "time"; "timestamp"; "treat"; "trim";
   "values"; "varchar"; "xmlattributes"; "xmlconcat"; "xmlelement"; "xmlexists";
   "xmlforest"; "xmlnamespaces"; "xmlparse"; "xmlpi"; "xmlroot"; "xmlserialize";
   "xmltable"; "new"; "old"; "off"; "over"].

Definition system_columns : list string :=
  ["tableoid"; "xmin"; "cmin"; "xmax"; "cmax"; "ctid"; "oid"].

Definition is_lower (c : ascii) : bool := in_range 97 122 c.

Definition plain_ident (s : string) : bool :=
  match s with
  | String c _ => is_lower c || (c =? "_")%char
  | EmptyString => false
  end
  && all_chars (fun c => is_lower c || is_digit c || (c =? "_")%char) s
  && (String.length s <=? 63)%nat
  && negb (existsb (String.eqb s) key_words).

Definition plain_column (s : string) : bool :=
  plain_ident s && negb (existsb (String.eqb s) system_columns).

Definition plain_table (s : string) : bool :=
  match until "." s with
  | Some (schema, name) => plain_ident schema && plain_ident name
  | None => plain_ident s
  end.

Definition plain_literal (s : string) : bool :=
  is_literal s && negb (contains "092" s).

(** A descriptor whose names the statement of the view carries as they
    are, and whose data table is not the view itself. *)
Definition safe_descriptor (r : registry_row) : bool :=
  descriptor_ok r
  && plain_column (pk_column r) && plain_literal (graphql_type r)
  && plain_literal (entity_name r) && plain_literal (source_table r)
  && plain_table (table_name r) && negb (table_name r =? "core.v_nodes")%string
  && plain_column (delete_col r).

(** The SELECT of a descriptor, before [rest]. *)
Definition branch_text (r : registry_row) (rest : string) : string :=
  "SELECT " ++ pk_column r ++ " as id, '" ++ graphql_type r
  ++ "' as __typename, '" ++ entity_name r
  ++ "' as entity_name, '" ++ source_table r
  ++ "' as source_table, data, created_at, updated_at FROM " ++ table_name r
  ++ " WHERE " ++ delete_col r ++ " IS NULL" ++ rest.

Fixpoint union_text (rows : list registry_row) (rest : string) : string :=
  match rows with
  | [] => rest
  | r :: more => " UNION ALL " ++ branch_text r (union_text more rest)
  end.

(** The statement of a branch. *)
Definition branch_select (r : registry_row) : select :=
  {| targets := [(EAtom (AColumn (pk_column r)), "id");
                 (EAtom (ALiteral (graphql_type r)), "__typename");
                 (EAtom (ALiteral (entity_name r)), "entity_name");
                 (EAtom (ALiteral (source_table r)), "source_table");
                 (EAtom (AColumn "data"), "data");
                 (EAtom (AColumn "created_at"), "created_at");
                 (EAtom (AColumn "updated_at"), "updated_at")];
     from := Some (table_name r);
     where_ := CIsNull (delete_col r);
     order_by := [];
     limit := None |}.

(** The statement of the view without entities. *)
Definition empty_select : select :=
  {| targets := [(EAtom (ANullCast "UUID"), "id");
                 (EAtom (ANullCast "TEXT"), "__typename");
                 (EAtom (ANullCast "TEXT"), "entity_name");
                 (EAtom (ANullCast "TEXT"), "source_table");
                 (EAtom (ANullCast "JSONB"), "data");
                 (EAtom (ANullCast "TIMESTAMPTZ"), "created_at");
                 (EAtom (ANullCast "TIMESTAMPTZ"), "updated_at")];
     from := None;
     where_ := CFalse;
     order_by := [];
     limit := None |}.

(** The branches of the view that the refresh defines. *)
Definition view_branches (b : backend) : list select :=
  match registered b with
  | [] => [empty_select]
  | rows => map branch_select rows
  end.

(** The text that the refresh builds in [view_sql]. *)
Definition view_statement (b : backend) : string :=
  match SPI_execute b registry_query true 0 with
  | Return r =>
      if (SPI_processed r =? 0)%nat then appendStringInfoString "" empty_view_sql
      else
        view_loop 0 (firstn (SPI_processed r) (SPI_tuptable r))
          (appendStringInfoString "" "CREATE OR REPLACE VIEW core.v_nodes AS ")
  | Raise _ => ""
  end.

Definition create_view_text : string := "CREATE OR REPLACE VIEW core.v_nodes AS ".

(** ** The rows of the unified view *)

Definition node_view_columns : list string :=
  ["id"; "__typename"; "entity_name"; "source_table"; "data"; "created_at";
   "updated_at"].

(** The row of the view for a row of the data table of a descriptor. *)
Definition node_row (r : registry_row) (cols : list string) (row : tuple) : tuple :=
  [cell cols (pk_column r) row;
   Some (VText (graphql_type r));
   Some (VText (entity_name r));
   Some (VText (source_table r));
   cell cols "data" row;
   cell cols "created_at" row;
   cell cols "updated_at" row].

(** A row is live when its soft-delete column is NULL. *)
Definition is_live (r : registry_row) (cols : list string) (row : tuple) : bool :=
  is_null (cell cols (delete_col r) row).

Definition live_rows (b : backend) (r : registry_row) : list tuple :=
  match base_relation b (table_name r) with
  | Some tbl => map (node_row r (columns tbl)) (filter (is_live r (columns tbl)) (tuples tbl))
  | None => []
  end.

Definition unified_rows (b : backend) : list tuple :=
  flat_map (live_rows b) (registered b).

(** The data table of the descriptor exists and has the columns that the
    branch reads. *)
Definition table_ok (b : backend) (r : registry_row) : bool :=
  match base_relation b (table_name r) with
  | Some tbl =>
      forallb (has_column (columns tbl))
        [pk_column r; "data"; "created_at"; "updated_at"; delete_col r]
  | None => false
  end.

(** Two backends with the same registry, tables and view. *)
Definition same_data (b1 b2 : backend) : Prop :=
  tb_entity_registry b1 = tb_entity_registry b2 /\
  tables b1 = tables b2 /\
  v_nodes b1 = v_nodes b2.

(** [id_is cols id row]: the [id] of the row is [id]. *)
Definition id_is (cols : list string) (id : pg_uuid_t) (row : tuple) : bool :=
  negb (is_null (cell cols "id" row))
  && datum_eqb (cell cols "id" row) (Some (VUuid id)).

(** The tuple that the single resolver stores for a row of the view. *)
Definition node_tuple (cols : list string) (row : tuple) : tuple :=
  [cell cols "__typename" row; cell cols "data" row; cell cols "entity_name" row;
   Some (VText "v_nodes")].

(** The statement of the single resolver. *)
Definition node_select : select :=
  {| targets := [(EAtom (AColumn "__typename"), "__typename");
                 (EAtom (AColumn "data"), "data");
                 (EAtom (AColumn "entity_name"), "entity_name")];
     from := Some "core.v_nodes";
     where_ := CEqParam "id" 1;
     order_by := [];
     limit := Some 1 |}.

End Relay.

(* ================================================================== *)
(** * Loading and unloading the extension *)
(* ================================================================== *)

Module Extension.
Import CString Pg.

Definition FRAISEQL_RELAY_VERSION : string := "1.0".

(** A memory context, with the identity that its allocation gave it. *)
Record MemoryContext : Type := { context_id : nat; context_name : string }.

(** The state of the process that loads the module: the live children of
    [TopMemoryContext], the global [fraiseql_relay_context] ([None] is
    NULL), and the messages reported at level NOTICE. *)
Record process : Type := {
  TopMemoryContext : list MemoryContext;
  fraiseql_relay_context : option MemoryContext;
  notices : list string
}.

(** An identity that no live context has. *)
Definition fresh_id (l : list MemoryContext) : nat :=
  S (fold_right Nat.max 0 (map context_id l)).

(** [AllocSetContextCreate (TopMemoryContext, name, ...)]: a new child of
    [TopMemoryContext]. *)
Definition AllocSetContextCreate (p : process) (name : string)
  : MemoryContext * process :=
  let c := {| context_id := fresh_id (TopMemoryContext p); context_name := name |} in
  (c, {| TopMemoryContext := c :: TopMemoryContext p;
         fraiseql_relay_context := fraiseql_relay_context p;
         notices := notices p |}).

(** [MemoryContextDelete (c)]: the context is no longer alive. *)
Definition MemoryContextDelete (p : process) (c : MemoryContext) : process :=
  {| TopMemoryContext :=
       filter (fun c' => negb (context_id c' =? context_id c)%nat) (TopMemoryContext p);
     fraiseql_relay_context := fraiseql_relay_context p;
     notices := notices p |}.

Definition elog_NOTICE (p : process) (msg : string) : process :=
  {| TopMemoryContext := TopMemoryContext p;
     fraiseql_relay_context := fraiseql_relay_context p;
     notices := (notices p ++ [msg])%list |}.

Definition set_context (p : process) (c : option MemoryContext) : process :=
  {| TopMemoryContext := TopMemoryContext p;
     fraiseql_relay_context := c;
     notices := notices p |}.

(** ** _PG_init *)

Definition _PG_init (p : process) : process :=
  let (c, p) := AllocSetContextCreate p "FraiseQL Relay Context" in
  let p := set_context p (Some c) in
  elog_NOTICE p (sprintf "FraiseQL Relay extension v%s initialized"
                   [Some FRAISEQL_RELAY_VERSION]).

(** ** _PG_fini *)

Definition _PG_fini (p : process) : process :=
  match fraiseql_relay_context p with
  | Some c =>
      let p := MemoryContextDelete p c in
      set_context p None
  | None => p
  end.

End Extension.

(* ================================================================== *)
(** * The indexes of the unified view *)
(* ================================================================== *)

Module NodeIndexes.
Import CString Pg Spi Relay.

(** An index named like one of the three that the refresh drops. *)
Definition is_node_index (i : index) : bool :=
  (index_name i =? "idx_v_nodes_id")%string
  || (index_name i =? "idx_v_nodes_typename")%string
  || (index_name i =? "idx_v_nodes_entity_name")%string.

End NodeIndexes.

(* ================================================================== *)
(** * A small deployment

    The registry and the tables of the scenario the specification tests
    with: entity Alpha with the row A1, entity Beta with the row B1 and the
    soft-deleted row B2. *)
(* ================================================================== *)

Module Sample.
Import CString Uuid Pg Spi Relay.

Definition uuid_of_byte (c : ascii) : pg_uuid_t := UUID c c c c c c c c c c c c c c c c.

Definition A1 : pg_uuid_t := uuid_of_byte "161".
Definition B1 : pg_uuid_t := uuid_of_byte "177".
Definition B2 : pg_uuid_t := uuid_of_byte "178".
Definition unknownId : pg_uuid_t := uuid_of_byte "000".

Definition node_columns : list string :=
  ["id"; "data"; "created_at"; "updated_at"; "deleted_at"].

Definition tv_alpha : relation :=
  {| columns := node_columns;
     tuples := [[Some (VUuid A1); Some (VJsonb "{a1}"); Some (VTimestamptz 1);
                 Some (VTimestamptz 1); None]] |}.

Definition v_beta : relation :=
  {| columns := node_columns;
     tuples := [[Some (VUuid B1); Some (VJsonb "{b1}"); Some (VTimestamptz 2);
                 Some (VTimestamptz 2); None];
                [Some (VUuid B2); Some (VJsonb "{b2}"); Some (VTimestamptz 3);
                 Some (VTimestamptz 4); Some (VTimestamptz 4)]] |}.

Definition registry : list registry_row :=
  [ {| entity_name := "beta"; graphql_type := "Beta"; pk_column := "id";
       tv_table := None; v_table := Some "v_beta"; source_table := "tb_beta";
       soft_delete_column := None |};
    {| entity_name := "alpha"; graphql_type := "Alpha"; pk_column := "id";
       tv_table := Some "tv_alpha"; v_table := Some "v_alpha";
       source_table := "tb_alpha"; soft_delete_column := Some "deleted_at" |} ].

(** The backend before any view exists. *)
Definition backend0 : backend :=
  {| tb_entity_registry := registry;
     tables := [("tv_alpha", tv_alpha); ("v_beta", v_beta)];
     v_nodes := None; indexes := [];
     connect_status := SPI_OK_CONNECT |}.

(** The same backend with an empty registry. *)
Definition empty_backend : backend :=
  {| tb_entity_registry := []; tables := []; v_nodes := None; indexes := [];
     connect_status := SPI_OK_CONNECT |}.

(** A call in a context that accepts a materialized set of rows. *)
Definition fcinfo : FunctionCallInfo :=
  {| resultinfo := Some (T_ReturnSetInfo (Z.lor SFRM_ValuePerCall SFRM_Materialize));
     get_call_result_type := TYPEFUNC_COMPOSITE |}.

(** [backend0] with the view that the statement of the refresh defines
    over its registry. *)
Definition backend1 : backend :=
  Eval vm_compute in
    match refresh_view backend0 with
    | Return (_, b) => b
    | Raise _ => backend0
    end.

(** The rows of [core.v_nodes] in [backend1]. *)
Definition nodes1 : relation :=
  Eval vm_compute in
    match resolve backend1 "core.v_nodes" with
    | Some rel => rel
    | None => no_relation
    end.

Definition uuid_array (elems : list (option pg_uuid_t)) : option ArrayType :=
  Some {| ARR_ELEMTYPE := UUIDOID; elems := elems |}.

(** The id of the wire-format example, 123e4567-e89b-12d3-a456-426614174000. *)
Definition user_id : pg_uuid_t :=
  UUID "018" "062" "069" "103" "232" "155" "018" "211"
       "164" "086" "066" "102" "020" "023" "064" "000".

(** A registry whose type name holds a quote, over the table of Alpha. *)
Definition quoted_backend : backend :=
  {| tb_entity_registry :=
       [ {| entity_name := "alpha"; graphql_type := "Al'pha"; pk_column := "id";
            tv_table := Some "tv_alpha"; v_table := Some "v_alpha";
            source_table := "tb_alpha"; soft_delete_column := None |} ];
     tables := [("tv_alpha", tv_alpha)];
     v_nodes := None; indexes := [];
     connect_status := SPI_OK_CONNECT |}.

(** A registry that names no soft-delete column, over a table that has no
    column [deleted_at]. *)
Definition plain_backend : backend :=
  {| tb_entity_registry :=
       [ {| entity_name := "alpha"; graphql_type := "Alpha"; pk_column := "id";
            tv_table := Some "tv_alpha"; v_table := Some "v_alpha";
            source_table := "tb_alpha"; soft_delete_column := None |} ];
     tables :=
       [("tv_alpha",
         {| columns := ["id"; "data"; "created_at"; "updated_at"]; tuples := [] |})];
     v_nodes := None; indexes := [];
     connect_status := SPI_OK_CONNECT |}.

(** A registry whose type name closes the string constant it is written
    into and goes on with SQL of its own: a branch over the soft-deleted
    rows of [v_beta]. *)
Definition spliced_backend : backend :=
  {| tb_entity_registry :=
       [ {| entity_name := "beta";
            graphql_type := "Beta' as __typename, 'beta' as entity_name, 'tb_beta' as source_table, data, created_at, updated_at FROM v_beta WHERE deleted_at IS NOT NULL UNION ALL SELECT id as id, 'Beta";
            pk_column := "id";
            tv_table := None; v_table := Some "v_beta"; source_table := "tb_beta";
            soft_delete_column := None |} ];
     tables := [("v_beta", v_beta)];
     v_nodes := None; indexes := [];
     connect_status := SPI_OK_CONNECT |}.

(** [backend0] with the rows of the registry in the other order. *)
Definition reordered_backend : backend :=
  {| tb_entity_registry := rev registry;
     tables := [("tv_alpha", tv_alpha); ("v_beta", v_beta)];
     v_nodes := None; indexes := [];
     connect_status := SPI_OK_CONNECT |}.

End Sample.

(* ================================================================== *)
(* ==== PART II: facts about the definitions ==== *)
(* ================================================================== *)

Module CStringFacts.
Import CString.

Lemma cstring_valid s : valid_text s = true -> cstring s = s.
Proof.
  induction s as [|c s IH]; simpl; [reflexivity|].
  destruct (c =? NUL)%char; simpl; [discriminate|].
  intros H. now rewrite IH.
Qed.

Lemma valid_text_cstring s : valid_text (cstring s) = true.
Proof.
  induction s as [|c s IH]; simpl; [reflexivity|].
  destruct (c =? NUL)%char eqn:E; simpl; [reflexivity|].
  now rewrite E, IH.
Qed.

Lemma valid_text_app s t :
  valid_text (s ++ t) = valid_text s && valid_text t.
Proof.
  induction s as [|c s IH]; simpl; [reflexivity|].
  now rewrite IH, andb_assoc.
Qed.

Lemma contains_app c s t : contains c (s ++ t) = contains c s || contains c t.
Proof.
  induction s as [|a s IH]; simpl; [reflexivity|].
  now rewrite IH, orb_assoc.
Qed.

(** [strchr] finds the separator that follows a prefix free of it. *)
Lemma strchr_app s c rest :
  valid_text s = true -> contains c s = false -> c <> NUL ->
  strchr (s ++ String c rest) c = Some (String.length s).
Proof.
  intros Hv Hc Hn. induction s as [|a s IH]; simpl in *.
  - destruct (c =? NUL)%char eqn:E.
    + apply Ascii.eqb_eq in E. contradiction.
    + now rewrite Ascii.eqb_refl.
  - apply andb_true_iff in Hv as [Ha Hv].
    apply orb_false_iff in Hc as [Hac Hc].
    apply negb_true_iff in Ha. rewrite Ha, Hac, IH by assumption.
    reflexivity.
Qed.

Lemma strchr_none s c :
  c <> NUL -> strchr s c = None <-> contains c (cstring s) = false.
Proof.
  intros Hn. induction s as [|a s IH]; simpl; [tauto|].
  destruct (a =? NUL)%char eqn:E; simpl; [tauto|].
  destruct (a =? c)%char; simpl.
  - split; discriminate.
  - rewrite <- IH. destruct (strchr s c); simpl; split; congruence.
Qed.

Lemma take_app s t : take (String.length s) (s ++ t) = s.
Proof. induction s as [|a s IH]; simpl; [now destruct t | now rewrite IH]. Qed.

Lemma drop_app s t : drop (String.length s) (s ++ t) = t.
Proof. induction s as [|a s IH]; simpl; [now destruct t | exact IH]. Qed.

Lemma app_assoc (s t u : string) : (s ++ t) ++ u = s ++ (t ++ u).
Proof. induction s as [|a s IH]; simpl; [reflexivity | now rewrite IH]. Qed.

Lemma app_nil_r (s : string) : s ++ "" = s.
Proof. induction s as [|a s IH]; simpl; [reflexivity | now rewrite IH]. Qed.

Lemma length_app (s t : string) :
  String.length (s ++ t) = String.length s + String.length t.
Proof. induction s as [|a s IH]; simpl; [reflexivity | now rewrite IH]. Qed.

Lemma strchr_until s c n :
  strchr s c = Some n -> until c s = Some (take n s, drop (S n) s).
Proof.
  revert n. induction s as [|a s IH]; simpl; [discriminate|].
  intros n. destruct (a =? NUL)%char; [discriminate|].
  destruct (a =? c)%char.
  - intros [= <-]. reflexivity.
  - destruct (strchr s c) as [m|]; simpl; [|discriminate].
    intros [= <-]. now rewrite (IH m eq_refl).
Qed.

Lemma until_strchr s c t r :
  valid_text s = true -> until c s = Some (t, r) ->
  strchr s c = Some (String.length t) /\ r = drop (S (String.length t)) s.
Proof.
  revert t r. induction s as [|a s IH]; simpl; [discriminate|].
  intros t r Hv. apply andb_true_iff in Hv as [Ha Hv].
  apply negb_true_iff in Ha. rewrite Ha.
  destruct (a =? c)%char.
  - intros [= <- <-]. now split.
  - destruct (until c s) as [[w r']|]; [|discriminate].
    intros [= <- <-]. destruct (IH w r' Hv eq_refl) as [-> ->]. now split.
Qed.

End CStringFacts.

Module UuidFacts.
Import CString CStringFacts Uuid.

Lemma byte_digits (d : ascii) :
  hex_val (hex_chars (hi_nibble d)) = Some (hi_nibble d) /\
  hex_val (hex_chars (lo_nibble d)) = Some (lo_nibble d) /\
  ascii_of_N (hi_nibble d * 16 + lo_nibble d)%N = d.
Proof.
  destruct d as [[] [] [] [] [] [] [] []]; vm_compute; repeat split.
Qed.

Lemma hex_chars_plain (n : N) (c : ascii) :
  hex_val c = None -> (hex_chars n =? c)%char = false.
Proof.
  intros Hc. apply Ascii.eqb_neq. intros <-. revert Hc.
  unfold hex_chars.
  destruct (N.to_nat n) as [|[|[|[|[|[|[|[|[|[|[|[|[|[|[|[|k]]]]]]]]]]]]]]]];
    vm_compute; discriminate.
Qed.

Lemma hex_chars_is_uuid_char n : is_uuid_char (hex_chars n) = true.
Proof.
  unfold hex_chars.
  destruct (N.to_nat n) as [|[|[|[|[|[|[|[|[|[|[|[|[|[|[|[|k]]]]]]]]]]]]]]]];
    vm_compute; reflexivity.
Qed.

Lemma hex_chars_not_nul n : (hex_chars n =? NUL)%char = false.
Proof. apply hex_chars_plain. reflexivity. Qed.

Lemma byte_text_starts c d r :
  hex_val c = None -> starts_with c (byte_text d r) = false.
Proof. intros H. now apply hex_chars_plain. Qed.

(** One turn of the [string_to_uuid] loop over the digits of a byte. *)
Lemma loop_byte_next n i d r :
  starts_with "-" r = false ->
  string_to_uuid_loop (S n) i (byte_text d r) =
  read_more d (string_to_uuid_loop n (S i) r).
Proof.
  intros Hr. unfold byte_text. cbn [string_to_uuid_loop].
  destruct (byte_digits d) as (-> & -> & ->).
  destruct r as [|c r]; [reflexivity|].
  cbn [starts_with] in Hr. rewrite Hr. reflexivity.
Qed.

Lemma loop_byte_hyphen n i d r :
  Nat.odd i = true -> (i <? 15)%nat = true ->
  string_to_uuid_loop (S n) i (byte_text d (String "-" r)) =
  read_more d (string_to_uuid_loop n (S i) r).
Proof.
  intros Ho Hi. unfold byte_text. cbn [string_to_uuid_loop].
  destruct (byte_digits d) as (-> & -> & ->).
  rewrite Ho, Hi. reflexivity.
Qed.

(** The canonical text, byte by byte. *)
Lemma uuid_out_text u :
  uuid_out u =
  match u with
  | UUID d0 d1 d2 d3 d4 d5 d6 d7 d8 d9 d10 d11 d12 d13 d14 d15 =>
      byte_text d0 (byte_text d1 (byte_text d2 (byte_text d3 (String "-"
      (byte_text d4 (byte_text d5 (String "-"
      (byte_text d6 (byte_text d7 (String "-"
      (byte_text d8 (byte_text d9 (String "-"
      (byte_text d10 (byte_text d11 (byte_text d12 (byte_text d13
      (byte_text d14 (byte_text d15 "")))))))))))))))))))
  end.
Proof. destruct u. reflexivity. Qed.

Lemma string_to_uuid_out u :
  string_to_uuid_loop UUID_LEN 0 (uuid_out u) = Some (uuid_data u, "").
Proof.
  rewrite uuid_out_text. destruct u. unfold UUID_LEN.
  repeat first
    [ rewrite loop_byte_hyphen by reflexivity
    | rewrite loop_byte_next by (reflexivity || now apply byte_text_starts) ].
  reflexivity.
Qed.

Lemma valid_text_uuid_out u : valid_text (uuid_out u) = true.
Proof.
  rewrite uuid_out_text. destruct u. unfold byte_text. cbn [valid_text].
  rewrite !hex_chars_not_nul. reflexivity.
Qed.

Lemma uuid_of_data_inv u : uuid_of_data (uuid_data u) = Some u.
Proof. now destruct u. Qed.

(** [uuid_in] reads back what [uuid_out] prints. *)
Lemma uuid_in_out u : uuid_in (uuid_out u) = Some u.
Proof.
  unfold uuid_in. rewrite cstring_valid by apply valid_text_uuid_out.
  assert (Hb : starts_with "{" (uuid_out u) = false).
  { rewrite uuid_out_text. destruct u. now apply byte_text_starts. }
  unfold starts_with in Hb.
  destruct (uuid_out u) as [|c s] eqn:E.
  - rewrite uuid_out_text in E. now destruct u.
  - rewrite Hb, <- E, string_to_uuid_out. apply uuid_of_data_inv.
Qed.

Lemma uuid_out_chars u : all_chars is_uuid_char (uuid_out u) = true.
Proof.
  rewrite uuid_out_text. destruct u. unfold byte_text. cbn [all_chars].
  rewrite !hex_chars_is_uuid_char. reflexivity.
Qed.

Lemma all_chars_contains p c s :
  p c = false -> all_chars p s = true -> contains c s = false.
Proof.
  intros Hc. induction s as [|a s IH]; simpl; [reflexivity|].
  intros H. apply andb_true_iff in H as [Ha Hs].
  rewrite IH by assumption. rewrite orb_false_r.
  apply Ascii.eqb_neq. intros ->. congruence.
Qed.

Lemma uuid_out_no c u : is_uuid_char c = false -> contains c (uuid_out u) = false.
Proof. intros H. eapply all_chars_contains; [exact H | apply uuid_out_chars]. Qed.

End UuidFacts.

Module Base64Facts.
Import CString CStringFacts Base64.

(** [lia] reasons about the divisions by powers of two below. *)
Ltac Zify.zify_post_hook ::= Z.to_euclidean_division_equations.

Lemma b64_char_val_nat k :
  k < 64 -> b64_val (b64_char (N.of_nat k)) = Some (N.of_nat k).
Proof.
  intros H.
  do 64 (destruct k as [|k]; [vm_compute; reflexivity|]).
  lia.
Qed.

Lemma b64_char_val n : (n < 64)%N -> b64_val (b64_char n) = Some n.
Proof.
  intros H. rewrite <- (N2Nat.id n). apply b64_char_val_nat. lia.
Qed.

Lemma digit_val k g :
  b64_val (digit k g) = Some ((g / 64 ^ (3 - k)) mod 64)%N.
Proof. apply b64_char_val. apply N.mod_lt. discriminate. Qed.

Lemma pad_val : b64_val pad = None.
Proof. reflexivity. Qed.

Lemma digit_not c k g : b64_val c = None -> (digit k g =? c)%char = false.
Proof.
  intros H. apply Ascii.eqb_neq. intros E. rewrite <- E, digit_val in H.
  discriminate.
Qed.

Lemma group_bound a b c : (group a b c < 16777216)%N.
Proof.
  unfold group.
  pose proof (N_ascii_bounded a). pose proof (N_ascii_bounded b).
  pose proof (N_ascii_bounded c). lia.
Qed.

Lemma ungroup_digits g :
  (g < 16777216)%N ->
  ungroup ((g / 64 ^ (3 - 0)) mod 64) ((g / 64 ^ (3 - 1)) mod 64)
          ((g / 64 ^ (3 - 2)) mod 64) ((g / 64 ^ (3 - 3)) mod 64) = g.
Proof.
  intros H. unfold ungroup.
  change (64 ^ (3 - 0))%N with 262144%N. change (64 ^ (3 - 1))%N with 4096%N.
  change (64 ^ (3 - 2))%N with 64%N. change (64 ^ (3 - 3))%N with 1%N.
  lia.
Qed.

Lemma bytes_group a b c :
  byte 0 (group a b c) = a /\ byte 1 (group a b c) = b /\ byte 2 (group a b c) = c.
Proof.
  unfold byte, group.
  change (256 ^ (2 - 0))%N with 65536%N. change (256 ^ (2 - 1))%N with 256%N.
  change (256 ^ (2 - 2))%N with 1%N.
  pose proof (N_ascii_bounded a). pose proof (N_ascii_bounded b).
  pose proof (N_ascii_bounded c).
  repeat split.
  - replace (((N_of_ascii a * 65536 + N_of_ascii b * 256 + N_of_ascii c) / 65536) mod 256)%N with (N_of_ascii a) by lia. apply ascii_N_embedding.
  - replace (((N_of_ascii a * 65536 + N_of_ascii b * 256 + N_of_ascii c) / 256) mod 256)%N with (N_of_ascii b) by lia. apply ascii_N_embedding.
  - replace (((N_of_ascii a * 65536 + N_of_ascii b * 256 + N_of_ascii c) / 1) mod 256)%N with (N_of_ascii c) by lia. apply ascii_N_embedding.
Qed.

Lemma digits_group g :
  (g < 16777216)%N ->
  exists v1 v2 v3 v4,
    b64_val (digit 0 g) = Some v1 /\ b64_val (digit 1 g) = Some v2 /\
    b64_val (digit 2 g) = Some v3 /\ b64_val (digit 3 g) = Some v4 /\
    ungroup v1 v2 v3 v4 = g /\
    ((g mod 64 = 0)%N -> ungroup v1 v2 v3 0 = g) /\
    ((g mod 4096 = 0)%N -> ungroup v1 v2 0 0 = g).
Proof.
  intros H. do 4 eexists. rewrite !digit_val.
  repeat (split; [reflexivity|]).
  split; [now apply ungroup_digits|].
  unfold ungroup.
  change (64 ^ (3 - 0))%N with 262144%N. change (64 ^ (3 - 1))%N with 4096%N.
  change (64 ^ (3 - 2))%N with 64%N.
  split; intros; lia.
Qed.

Lemma triples_ind (P : string -> Prop) :
  P "" ->
  (forall a, P (String a "")) ->
  (forall a b, P (String a (String b ""))) ->
  (forall a b c rest, P rest -> P (String a (String b (String c rest)))) ->
  forall s, P s.
Proof.
  intros H0 H1 H2 H3. fix IH 1.
  intros [|a [|b [|c rest]]];
    [exact H0 | apply H1 | apply H2 | apply H3, IH].
Qed.

Lemma decode_encode data : decode (encode data) = Some data.
Proof.
  induction data as [|a|a b|a b c rest IH] using triples_ind.
  - reflexivity.
  - cbn [encode].
    destruct (digits_group (group a zero zero) (group_bound _ _ _))
      as (v1 & v2 & v3 & v4 & E1 & E2 & _ & _ & _ & _ & Hg).
    cbn [decode]. rewrite E1, E2, pad_val, Ascii.eqb_refl. cbn [andb].
    rewrite Hg.
    + now destruct (bytes_group a zero zero) as (-> & _).
    + unfold group. change (N_of_ascii zero) with 0%N. lia.
  - cbn [encode].
    destruct (digits_group (group a b zero) (group_bound _ _ _))
      as (v1 & v2 & v3 & v4 & E1 & E2 & E3 & _ & _ & Hg & _).
    cbn [decode]. rewrite E1, E2, E3, pad_val, Ascii.eqb_refl.
    rewrite Hg.
    + now destruct (bytes_group a b zero) as (-> & -> & _).
    + unfold group. change (N_of_ascii zero) with 0%N. lia.
  - cbn [encode].
    destruct (digits_group (group a b c) (group_bound _ _ _))
      as (v1 & v2 & v3 & v4 & E1 & E2 & E3 & E4 & Hg & _).
    cbn [decode]. rewrite E1, E2, E3, E4, IH, Hg.
    now destruct (bytes_group a b c) as (-> & -> & ->).
Qed.

Lemma valid_text_encode data : valid_text (encode data) = true.
Proof.
  induction data as [|a|a b|a b c rest IH] using triples_ind;
    cbn [encode valid_text]; rewrite ?IH;
    rewrite ?(digit_not NUL) by reflexivity; reflexivity.
Qed.

End Base64Facts.

Module CodecFacts.
Import CString CStringFacts Uuid UuidFacts Base64 Base64Facts Pg Spi Relay.

Lemma drop_separator s c rest : drop (S (String.length s)) (s ++ String c rest) = rest.
Proof. induction s as [|a s IH]; simpl; [reflexivity | exact IH]. Qed.

Lemma valid_text_composite t u :
  valid_text t = true -> valid_text (composite t u) = true.
Proof.
  intros Ht. unfold composite. rewrite valid_text_app, Ht. simpl.
  apply valid_text_uuid_out.
Qed.

Lemma encode_buffer t u :
  valid_text t = true ->
  appendStringInfo "" "%s:%s" [Some (text_to_cstring t); Some (cstring (uuid_out u))]
  = composite t u.
Proof.
  intros Ht. unfold appendStringInfo, text_to_cstring, composite.
  cbn [sprintf fmt_s append].
  rewrite !(cstring_valid t) by assumption.
  rewrite !(cstring_valid (uuid_out u)) by apply valid_text_uuid_out.
  now rewrite app_nil_r.
Qed.

(** What the encoder returns for a non-null pair. *)
Lemma encode_global_id_value t u :
  valid_text t = true ->
  fraiseql_encode_global_id (Some t) (Some u)
  = Return (PG_RETURN_TEXT_P (Base64.encode (composite t u))).
Proof.
  intros Ht. unfold fraiseql_encode_global_id.
  rewrite encode_buffer by assumption.
  unfold cstring_to_text.
  rewrite (cstring_valid (composite t u)) by now apply valid_text_composite.
  now rewrite !(cstring_valid (Base64.encode _)) by apply valid_text_encode.
Qed.

(** The decoder on the image of a payload. *)
Lemma decode_global_id_payload fcinfo payload :
  valid_text payload = true ->
  fraiseql_decode_global_id fcinfo (Some (Base64.encode payload)) =
  match strchr payload ":" with
  | None =>
      Raise (ereport_ERROR ERRCODE_INVALID_PARAMETER_VALUE
               "invalid global ID format: missing colon separator")
  | Some n =>
      if is_composite (get_call_result_type fcinfo) then
        match uuid_in (drop (S n) payload) with
        | None => Raise (invalid_uuid (drop (S n) payload))
        | Some u =>
            Return (PG_RETURN_DATUM [Some (VText (take n payload)); Some (VUuid u)])
        end
      else Raise (elog_ERROR "return type must be a row type")
  end.
Proof.
  intros Hp. unfold fraiseql_decode_global_id, text_to_cstring, cstring_to_text.
  rewrite !(cstring_valid (Base64.encode _)) by apply valid_text_encode.
  rewrite decode_encode, (cstring_valid payload) by assumption.
  reflexivity.
Qed.

Lemma until_none s c : until c s = None <-> contains c s = false.
Proof.
  induction s as [|a s IH]; simpl; [tauto|].
  destruct (a =? c)%char; simpl.
  - split; discriminate.
  - rewrite <- IH. destruct (until c s) as [[w r]|]; split; congruence.
Qed.

(** The decoder, case by case, in a call declared to return a row. *)
Lemma decode_global_id_cases fcinfo g :
  valid_text g = true ->
  is_composite (get_call_result_type fcinfo) = true ->
  fraiseql_decode_global_id fcinfo (Some g) =
  match Base64.decode g with
  | None =>
      Raise (ereport_ERROR ERRCODE_INVALID_PARAMETER_VALUE "invalid base64 sequence")
  | Some payload =>
      match until ":" (cstring payload) with
      | None =>
          Raise (ereport_ERROR ERRCODE_INVALID_PARAMETER_VALUE
                   "invalid global ID format: missing colon separator")
      | Some (t, s) =>
          match uuid_in s with
          | None => Raise (invalid_uuid s)
          | Some u => Return (PG_RETURN_DATUM [Some (VText t); Some (VUuid u)])
          end
      end
  end.
Proof.
  intros Hv Hf. unfold fraiseql_decode_global_id, text_to_cstring, cstring_to_text.
  rewrite !(cstring_valid g) by assumption.
  destruct (Base64.decode g) as [payload|]; [|reflexivity].
  destruct (strchr (cstring payload) ":") as [n|] eqn:Es.
  - rewrite (strchr_until _ _ _ Es), Hf. reflexivity.
  - apply strchr_none in Es; [|discriminate].
    rewrite (cstring_valid (cstring payload)) in Es by apply valid_text_cstring.
    apply until_none in Es. now rewrite Es.
Qed.

End CodecFacts.

Module OrderFacts.
Import Spi.

(** A comparison that decides a total order. *)
Record total_order {A : Type} (cmp : A -> A -> comparison) : Prop := {
  cmp_eq : forall x y, cmp x y = Eq -> x = y;
  cmp_antisym : forall x y, cmp y x = CompOpp (cmp x y);
  cmp_trans : forall x y z, cmp x y = Lt -> cmp y z = Lt -> cmp x z = Lt
}.

Lemma cmp_refl {A} (cmp : A -> A -> comparison) :
  total_order cmp -> forall x, cmp x x = Eq.
Proof.
  intros H x. pose proof (cmp_antisym cmp H x x) as E.
  destruct (cmp x x); [reflexivity | discriminate | discriminate].
Qed.

Lemma N_compare_order : total_order N.compare.
Proof.
  split.
  - intros x y. apply N.compare_eq_iff.
  - intros x y. apply N.compare_antisym.
  - intros x y z. rewrite !N.compare_lt_iff. apply N.lt_trans.
Qed.

Section Lex.
Context {A : Type} (cmp : A -> A -> comparison) (Hcmp : total_order cmp).

Lemma lex_eq (a b : list A) : lex cmp a b = Eq -> a = b.
Proof.
  revert b. induction a as [|x a IH]; intros [|y b]; simpl; try discriminate.
  - reflexivity.
  - destruct (cmp x y) eqn:E; try discriminate.
    intros H. apply (cmp_eq cmp Hcmp) in E. subst y. now rewrite (IH b H).
Qed.

Lemma lex_antisym (a b : list A) : lex cmp b a = CompOpp (lex cmp a b).
Proof.
  revert b. induction a as [|x a IH]; intros [|y b]; simpl; try reflexivity.
  rewrite (cmp_antisym cmp Hcmp x y).
  destruct (cmp x y); simpl; [apply IH | reflexivity | reflexivity].
Qed.

Lemma lex_trans (a b c : list A) :
  lex cmp a b = Lt -> lex cmp b c = Lt -> lex cmp a c = Lt.
Proof.
  revert b c. induction a as [|x a IH]; intros [|y b] [|z c]; simpl;
    try discriminate; try reflexivity.
  destruct (cmp x y) eqn:Exy; try discriminate.
  - apply (cmp_eq cmp Hcmp) in Exy. subst y.
    destruct (cmp x z); try discriminate; [apply IH | reflexivity].
  - intros _. destruct (cmp y z) eqn:Eyz; try discriminate.
    + apply (cmp_eq cmp Hcmp) in Eyz. subst z. now rewrite Exy.
    + now rewrite (cmp_trans cmp Hcmp x y z Exy Eyz).
Qed.

Lemma lex_order : total_order (lex cmp).
Proof. split; [exact lex_eq | exact lex_antisym | exact lex_trans]. Qed.

End Lex.

Lemma key_cmp_order : total_order key_cmp.
Proof. apply lex_order, lex_order, N_compare_order. Qed.

Lemma key_leb_refl k : key_leb k k = true.
Proof. unfold key_leb. now rewrite (cmp_refl _ key_cmp_order). Qed.

Lemma key_leb_total k1 k2 : key_leb k1 k2 = false -> key_leb k2 k1 = true.
Proof.
  unfold key_leb. rewrite (cmp_antisym _ key_cmp_order k1 k2).
  now destruct (key_cmp k1 k2).
Qed.

Lemma key_leb_trans k1 k2 k3 :
  key_leb k1 k2 = true -> key_leb k2 k3 = true -> key_leb k1 k3 = true.
Proof.
  unfold key_leb.
  destruct (key_cmp k1 k2) eqn:E12; try discriminate; intros _.
  - apply (cmp_eq _ key_cmp_order) in E12. now subst k2.
  - destruct (key_cmp k2 k3) eqn:E23; try discriminate; intros _.
    + apply (cmp_eq _ key_cmp_order) in E23. subst k3. now rewrite E12.
    + now rewrite (cmp_trans _ key_cmp_order _ _ _ E12 E23).
Qed.

Section SortBy.
Context {A : Type} (key : A -> list (list N)).

Lemma insert_by_perm x l : Permutation (insert_by key x l) (x :: l).
Proof.
  induction l as [|y l IH]; simpl; [reflexivity|].
  destruct (key_leb (key x) (key y)); [reflexivity|].
  rewrite IH. apply perm_swap.
Qed.

Lemma sort_by_perm l : Permutation (sort_by key l) l.
Proof.
  induction l as [|x l IH]; simpl; [reflexivity|].
  rewrite insert_by_perm. now constructor.
Qed.

Lemma insert_by_sorted x l :
  StronglySorted (key_le key) l -> StronglySorted (key_le key) (insert_by key x l).
Proof.
  induction 1 as [|y l Hl IH Hy]; simpl.
  - constructor; constructor.
  - destruct (key_leb (key x) (key y)) eqn:E.
    + constructor; [now constructor|].
      constructor; [exact E|].
      eapply Forall_impl; [|exact Hy].
      intros z Hz. eapply key_leb_trans; eassumption.
    + constructor; [exact IH|].
      eapply Permutation_Forall; [symmetry; apply insert_by_perm|].
      constructor; [now apply key_leb_total | exact Hy].
Qed.

Lemma sort_by_sorted l : StronglySorted (key_le key) (sort_by key l).
Proof.
  induction l as [|x l IH]; simpl; [constructor | now apply insert_by_sorted].
Qed.

(** Without a key the order of the rows is kept. *)
Lemma sort_by_no_key l : (forall x, key x = []) -> sort_by key l = l.
Proof.
  intros Hk. induction l as [|x l IH]; simpl; [reflexivity|].
  rewrite IH. destruct l as [|y l]; simpl; [reflexivity|].
  now rewrite !Hk.
Qed.

Lemma sort_by_in x l : In x (sort_by key l) <-> In x l.
Proof.
  split; apply Permutation_in; [apply sort_by_perm | symmetry; apply sort_by_perm].
Qed.

End SortBy.

End OrderFacts.

Module ParseFacts.
Import CString CStringFacts Uuid UuidFacts Spi.

Lemma expect_app p s : expect p (p ++ s) = Some s.
Proof.
  induction p as [|a p IH]; simpl; [reflexivity|].
  now rewrite Ascii.eqb_refl.
Qed.

Lemma span_app p w c r :
  all_chars p w = true -> p c = false ->
  span p (w ++ String c r) = (w, String c r).
Proof.
  intros Hw Hc. induction w as [|a w IH]; simpl in *.
  - now rewrite Hc.
  - apply andb_true_iff in Hw as [Ha Hw]. now rewrite Ha, IH.
Qed.

Lemma span_end p w : all_chars p w = true -> span p w = (w, "").
Proof.
  intros Hw. induction w as [|a w IH]; simpl in *; [reflexivity|].
  apply andb_true_iff in Hw as [Ha Hw]. now rewrite Ha, IH.
Qed.

(** A non-empty run of identifier characters is read up to the next
    character of another kind. *)
Lemma ident_app w c r :
  w <> "" -> all_chars is_ident_char w = true -> is_ident_char c = false ->
  ident (w ++ String c r) = Some (w, String c r).
Proof.
  intros Hne Hw Hc. unfold ident. rewrite span_app by assumption.
  now destruct w.
Qed.

Lemma until_app q w r :
  contains q w = false -> until q (w ++ String q r) = Some (w, r).
Proof.
  intros Hw. induction w as [|a w IH]; simpl in *.
  - now rewrite Ascii.eqb_refl.
  - apply orb_false_iff in Hw as [Ha Hw]. now rewrite Ha, IH.
Qed.

Lemma quoted_app w r :
  contains "'" w = false -> quoted (String "'" (w ++ String "'" r)) = Some (w, r).
Proof. intros Hw. unfold quoted. cbn. now apply until_app. Qed.

End ParseFacts.

Module BatchFacts.
Import CString CStringFacts Uuid UuidFacts Pg Spi Relay OrderFacts ParseFacts.

Lemma append_quote buf u rest :
  appendStringInfo buf "'%s'" [Some (uuid_out u)] ++ rest = buf ++ quote_text u rest.
Proof.
  unfold appendStringInfo, quote_text. cbn [sprintf fmt_s].
  rewrite cstring_valid by apply valid_text_uuid_out.
  rewrite app_assoc. cbn [append]. now rewrite app_assoc.
Qed.

Lemma ids_loop_next elems i buf rest :
  ids_loop (S i) elems buf ++ rest = buf ++ tail_text (non_null elems) rest.
Proof.
  revert i buf. induction elems as [|[u|] elems IH]; intros i buf; cbn [ids_loop non_null tail_text].
  - reflexivity.
  - cbn [Nat.ltb Nat.leb]. rewrite IH.
    rewrite append_quote. unfold appendStringInfoString. cbn [cstring Ascii.eqb Bool.eqb NUL].
    now rewrite app_assoc.
  - apply IH.
Qed.

Lemma ids_loop_first elems buf rest :
  ids_loop 0 elems buf ++ rest = buf ++ elems_text elems rest.
Proof.
  destruct elems as [|[u|] elems]; cbn [ids_loop elems_text].
  - reflexivity.
  - cbn [Nat.ltb Nat.leb]. now rewrite ids_loop_next, append_quote.
  - apply ids_loop_next.
Qed.

Lemma batch_ids_text elems rest :
  batch_ids elems ++ rest = "ARRAY[" ++ elems_text elems ("]::uuid[]" ++ rest).
Proof.
  unfold batch_ids, appendStringInfoString.
  change (cstring "]::uuid[]") with "]::uuid[]".
  change ("" ++ cstring "ARRAY[") with "ARRAY[".
  now rewrite app_assoc, ids_loop_first.
Qed.

Lemma valid_text_quote u rest : valid_text (quote_text u rest) = valid_text rest.
Proof.
  unfold quote_text. cbn [valid_text]. rewrite valid_text_app, valid_text_uuid_out.
  reflexivity.
Qed.

Lemma valid_text_tail l rest : valid_text (tail_text l rest) = valid_text rest.
Proof.
  induction l as [|u l IH]; cbn [tail_text]; [reflexivity|].
  cbn [valid_text]. now rewrite valid_text_quote, IH.
Qed.

Lemma valid_text_elems elems rest : valid_text (elems_text elems rest) = valid_text rest.
Proof.
  destruct elems as [|[u|] elems]; cbn [elems_text];
    now rewrite ?valid_text_quote, ?valid_text_tail.
Qed.

Definition batch_select_text : string :=
  "SELECT __typename, data, entity_name, id FROM core.v_nodes WHERE id = ANY(".

Definition batch_order_text : string := ") ORDER BY __typename, id".

Lemma valid_text_batch_ids elems : valid_text (batch_ids elems) = true.
Proof.
  rewrite <- (app_nil_r (batch_ids elems)), batch_ids_text.
  cbn [append valid_text]. now rewrite valid_text_elems.
Qed.

(** The statement [SPI_execute] reads for the batch. *)
Lemma batch_query_text elems :
  cstring (batch_query elems) =
  batch_select_text ++ "ARRAY[" ++ elems_text elems ("]::uuid[]" ++ batch_order_text).
Proof.
  assert (E : batch_query elems =
    batch_select_text ++ "ARRAY[" ++ elems_text elems ("]::uuid[]" ++ batch_order_text)).
  { unfold batch_query, appendStringInfo. cbn [sprintf fmt_s append].
    rewrite cstring_valid by apply valid_text_batch_ids.
    change (String ")" (" ORDER BY __typename, id" ++ "")) with batch_order_text.
    now rewrite batch_ids_text. }
  rewrite E. apply cstring_valid.
  unfold batch_select_text, batch_order_text.
  cbn [append valid_text]. now rewrite valid_text_elems.
Qed.

End BatchFacts.

Module BatchParseFacts.
Import CString CStringFacts Uuid UuidFacts Pg Spi Relay ParseFacts BatchFacts.

Lemma uuid_out_no_quote u : contains "'" (uuid_out u) = false.
Proof. now apply uuid_out_no. Qed.

Lemma quoted_uuid u rest : quoted (quote_text u rest) = Some (uuid_out u, rest).
Proof. apply quoted_app, uuid_out_no_quote. Qed.

Lemma parse_items_text l : forall u f rest,
  List.length l < f ->
  parse_items f (quote_text u (tail_text l (String "]" rest)))
  = Some (map uuid_out (u :: l), rest).
Proof.
  induction l as [|v l IH]; intros u f rest Hf;
    (destruct f as [|f]; [lia|]); cbn [parse_items tail_text];
    rewrite quoted_uuid.
  - reflexivity.
  - cbn [expect Ascii.eqb Bool.eqb andb]. rewrite IH by (simpl in Hf; lia).
    reflexivity.
Qed.

(** The array literal reads back as the non-null elements when it starts
    with one or has none; a null element before the first non-null one
    leaves a comma after the bracket, and the literal does not parse. *)
Lemma parse_array_text elems f rest :
  List.length (non_null elems) < f ->
  parse_array f ("ARRAY[" ++ elems_text elems ("]::uuid[]" ++ rest)) =
  match elems with
  | None :: more =>
      match non_null more with
      | [] => Some ([], rest)
      | _ :: _ => None
      end
  | _ => Some (map uuid_out (non_null elems), rest)
  end.
Proof.
  intros Hf. unfold parse_array. rewrite expect_app.
  destruct elems as [|[u|] more]; cbn [elems_text non_null] in *.
  - cbn. reflexivity.
  - unfold quote_text at 1. cbn [expect Ascii.eqb Bool.eqb andb].
    change ("]::uuid[]" ++ rest) with (String "]" ("::uuid[]" ++ rest)).
    rewrite parse_items_text by (simpl in Hf; lia).
    cbn. reflexivity.
  - destruct (non_null more) as [|v l]; cbn [tail_text].
    + cbn. reflexivity.
    + cbn [expect Ascii.eqb Bool.eqb andb].
      destruct f as [|f]; [reflexivity|]. cbn [parse_items quoted].
      cbn [Ascii.eqb Bool.eqb andb]. reflexivity.
Qed.

Lemma parse_array_batch elems f rest :
  List.length (non_null elems) < f ->
  parse_array f ("ARRAY[" ++ elems_text elems ("]::uuid[]" ++ rest)) =
  option_map (fun l => (l, rest)) (batch_items elems).
Proof.
  intros Hf. rewrite parse_array_text by assumption. unfold batch_items.
  destruct elems as [|[u|] more]; try reflexivity.
  now destruct (non_null more).
Qed.


(** From here on [cbn] runs a parser only on a text whose head is known. *)
#[local] Arguments expect !p !s.
#[local] Arguments ident !s.
#[local] Arguments number !s.
#[local] Arguments quoted !s.
#[local] Arguments span p !s.
#[local] Arguments parse_atom !s.
#[local] Arguments parse_expr !s.
#[local] Arguments parse_target !s.
#[local] Arguments parse_targets !fuel !s.
#[local] Arguments parse_items !fuel !s.
#[local] Arguments parse_array fuel !s.
#[local] Arguments parse_condition fuel !s.
#[local] Arguments parse_order !fuel !s.
#[local] Arguments parse_select fuel !s.
#[local] Arguments parse_union !k fuel !s.

Lemma expect_nil s : expect "" s = Some s.
Proof. now destruct s. Qed.

Lemma length_tail_text l rest :
  List.length l <= String.length (tail_text l rest).
Proof.
  induction l as [|u l IH]; cbn [tail_text quote_text List.length String.length]; [lia|].
  rewrite length_app. cbn [String.length]. lia.
Qed.

Lemma length_elems_text elems rest :
  List.length (non_null elems) <= String.length (elems_text elems rest).
Proof.
  destruct elems as [|[u|] more]; cbn [elems_text non_null List.length]; [lia| |].
  - unfold quote_text. cbn [String.length]. rewrite length_app. cbn [String.length].
    pose proof (length_tail_text (non_null more) rest). lia.
  - apply length_tail_text.
Qed.

Lemma parse_select_batch elems f :
  4 <= f -> List.length (non_null elems) < f ->
  parse_select f
    (batch_select_text ++ "ARRAY[" ++ elems_text elems ("]::uuid[]" ++ batch_order_text))
  = option_map (fun l => (batch_select l, "")) (batch_items elems).
Proof.
  intros H4 Hf.
  pose proof (parse_array_batch elems f batch_order_text Hf) as E.
  destruct f as [|[|[|[|f]]]]; try lia.
  set (X := "ARRAY[" ++ elems_text elems ("]::uuid[]" ++ batch_order_text)) in *.
  clearbody X. unfold batch_select_text. cbn.
  rewrite expect_nil, E.
  destruct (batch_items elems) as [l|]; reflexivity.
Qed.

(** The statement the engine reads for the batch. *)
Lemma parse_statement_batch elems :
  parse_statement (cstring (batch_query elems)) =
  option_map (fun l => Select (batch_select l)) (batch_items elems).
Proof.
  rewrite batch_query_text. unfold parse_statement.
  rewrite parse_select_batch.
  - unfold batch_select_text. cbn.
    now destruct (batch_items elems).
  - unfold batch_select_text. cbn [append String.length]. lia.
  - pose proof (length_elems_text elems ("]::uuid[]" ++ batch_order_text)) as L.
    unfold batch_select_text. cbn [append String.length] in *. lia.
Qed.

End BatchParseFacts.

Module BatchExecFacts.
Import CString CStringFacts Uuid UuidFacts Pg Spi Relay OrderFacts ParseFacts BatchFacts
       BatchParseFacts.

Lemma cast_uuid_array_out ids : cast_uuid_array (map uuid_out ids) = Some ids.
Proof.
  induction ids as [|u ids IH]; cbn [map cast_uuid_array]; [reflexivity|].
  now rewrite uuid_in_out, IH.
Qed.

(** The batch statement over a relation that has the four columns. *)
Lemma eval_select_batch rel ids :
  forallb (has_column (columns rel)) batch_columns = true ->
  eval_select rel [] (batch_select (map uuid_out ids)) = Some (batch_rows rel ids).
Proof.
  intros Hc. unfold eval_select, batch_select.
  cbn [targets where_ order_by limit map fst snd forallb expr_ok atom_ok condition_ok
       eval_condition].
  unfold batch_columns in Hc. cbn [forallb] in Hc.
  repeat (apply andb_true_iff in Hc as [? Hc]).
  repeat match goal with H : has_column _ _ = true |- _ => rewrite H; clear H end.
  cbn [andb]. rewrite cast_uuid_array_out.
  change (forallb _ ["__typename"; "id"]) with true. cbv beta iota.
  reflexivity.
Qed.

Lemma execute_batch b rel ids :
  nodes_view b rel ->
  execute b [] 0 (Select (batch_select (map uuid_out ids))) =
  Return {| status := SPI_OK_SELECT; SPI_processed := List.length (batch_rows rel ids);
            SPI_tuptable := batch_rows rel ids; after := b |}.
Proof.
  intros [Hr Hc]. unfold execute, select_rows. cbn [from batch_select].
  now rewrite Hr, eval_select_batch.
Qed.

(** What the batch resolver does once its context is in order: where the
    array literal cannot be read the server raises a syntax error, and
    otherwise the rows of the non-null elements come back. *)
Lemma resolve_nodes_batch_value fcinfo b rel elems :
  call_ok fcinfo b -> nodes_view b rel ->
  fraiseql_resolve_nodes_batch fcinfo b
    (Some {| ARR_ELEMTYPE := UUIDOID; elems := elems |}) =
  match batch_items elems with
  | Some _ =>
      Return (Materialized (map batch_tuple (batch_rows rel (non_null elems))), b)
  | None => Raise syntax_error
  end.
Proof.
  intros (H1 & H2 & H3 & H4) Hv.
  unfold fraiseql_resolve_nodes_batch. cbn [ARR_ELEMTYPE Relay.elems].
  rewrite H1, H2, H3, H4. cbn [negb Z.eqb UUIDOID SPI_OK_CONNECT Pos.eqb].
  unfold SPI_execute, SPI_execute_with_args.
  rewrite parse_statement_batch.
  assert (Hi : batch_items elems = None \/
               batch_items elems = Some (map uuid_out (non_null elems))).
  { unfold batch_items. destruct elems as [|[u|] more]; cbn [non_null]; auto.
    destruct (non_null more); auto. }
  destruct Hi as [-> | ->]; cbn [option_map].
  - reflexivity.
  - rewrite (execute_batch b rel) by assumption.
    cbn [status SPI_processed SPI_tuptable after Z.eqb SPI_OK_SELECT Pos.eqb app].
    now rewrite firstn_all.
Qed.

(** A null element before the first UUID: the statement does not parse. *)
Lemma batch_items_null_first u more more' :
  batch_items (None :: (more ++ Some u :: more')%list) = None.
Proof.
  unfold batch_items.
  assert (E : exists v l, non_null (more ++ Some u :: more')%list = v :: l).
  { induction more as [|[w|] more IH]; cbn [app non_null]; eauto. }
  now destruct E as (v & l & ->).
Qed.

(** Without a statement that parses, the view is not even looked at. *)
Lemma resolve_nodes_batch_unreadable fcinfo b elems :
  call_ok fcinfo b -> batch_items elems = None ->
  fraiseql_resolve_nodes_batch fcinfo b
    (Some {| ARR_ELEMTYPE := UUIDOID; elems := elems |}) = Raise syntax_error.
Proof.
  intros (H1 & H2 & H3 & H4) Hi.
  unfold fraiseql_resolve_nodes_batch. cbn [ARR_ELEMTYPE Relay.elems].
  rewrite H1, H2, H3, H4. cbn [negb Z.eqb UUIDOID SPI_OK_CONNECT Pos.eqb].
  unfold SPI_execute, SPI_execute_with_args.
  now rewrite parse_statement_batch, Hi.
Qed.

Lemma non_null_some ids : non_null (map Some ids) = ids.
Proof. induction ids as [|u ids IH]; cbn [map non_null]; now rewrite ?IH. Qed.

Lemma batch_items_some ids : batch_items (map Some ids) = Some (map uuid_out ids).
Proof.
  destruct ids as [|u ids]; [reflexivity|].
  cbn [map batch_items non_null]. now rewrite non_null_some.
Qed.

(** The rows depend on the set of the ids only. *)
Lemma batch_rows_members rel ids ids' :
  (forall u, In u ids <-> In u ids') -> batch_rows rel ids = batch_rows rel ids'.
Proof.
  intros Hm. unfold batch_rows. f_equal. f_equal.
  apply filter_ext. intros row. unfold id_in.
  destruct (cell (columns rel) "id" row) as [[u| | |]|]; try reflexivity.
  apply eq_true_iff_eq. rewrite !existsb_exists.
  split; intros (x & Hx & E); exists x; split; try assumption; now apply Hm.
Qed.

Lemma batch_tuple_project cols row :
  batch_tuple (project cols batch_columns row) =
  [cell cols "__typename" row; cell cols "data" row; cell cols "entity_name" row;
   Some (VText "v_nodes_batch")].
Proof. reflexivity. Qed.

(** Every row of the batch is the projection of a row of the view whose id
    was asked for. *)
Lemma batch_rows_in rel ids r :
  In r (batch_rows rel ids) ->
  exists row, In row (tuples rel) /\ id_in (columns rel) ids row = true /\
              r = project (columns rel) batch_columns row.
Proof.
  unfold batch_rows. rewrite sort_by_in, in_map_iff.
  intros (row & <- & Hrow). apply filter_In in Hrow as [Hin Hid].
  now exists row.
Qed.

(** Null elements after a first UUID are skipped. *)
Lemma batch_skips_nulls_after_first fcinfo b rel u more :
  call_ok fcinfo b -> nodes_view b rel ->
  fraiseql_resolve_nodes_batch fcinfo b
    (Some {| ARR_ELEMTYPE := UUIDOID; elems := Some u :: more |}) =
  fraiseql_resolve_nodes_batch fcinfo b
    (Some {| ARR_ELEMTYPE := UUIDOID; elems := map Some (u :: non_null more) |}).
Proof.
  intros Hc Hv. rewrite !(resolve_nodes_batch_value fcinfo b rel) by assumption.
  rewrite batch_items_some, non_null_some. reflexivity.
Qed.

(** An array of nulls only gives the empty set. *)
Lemma batch_of_nulls fcinfo b rel elems :
  call_ok fcinfo b -> nodes_view b rel -> non_null elems = [] ->
  fraiseql_resolve_nodes_batch fcinfo b
    (Some {| ARR_ELEMTYPE := UUIDOID; elems := elems |}) = Return (Materialized [], b).
Proof.
  intros Hc Hv Hn. rewrite (resolve_nodes_batch_value fcinfo b rel) by assumption.
  assert (E : batch_rows rel [] = []).
  { unfold batch_rows.
    replace (filter (id_in (columns rel) []) (tuples rel)) with (@nil tuple);
      [reflexivity|].
    induction (tuples rel) as [|row l IH]; [reflexivity|].
    cbn [filter]. unfold id_in at 1.
    now destruct (cell (columns rel) "id" row) as [[| | |]|]. }
  unfold batch_items. rewrite Hn.
  destruct elems as [|[u|] more]; cbn [non_null] in *; try discriminate;
    now rewrite ?Hn, E.
Qed.

End BatchExecFacts.

Module RegistryFacts.
Import CString CStringFacts Uuid Pg Spi Relay OrderFacts.

Lemma filter_map_comm {A B} (f : A -> B) (p : B -> bool) l :
  filter p (map f l) = map f (filter (fun x => p (f x)) l).
Proof.
  induction l as [|x l IH]; simpl; [reflexivity|].
  destruct (p (f x)); simpl; now rewrite IH.
Qed.

Lemma insert_by_map {A B} (f : A -> B) key x l :
  insert_by key (f x) (map f l) = map f (insert_by (fun a => key (f a)) x l).
Proof.
  induction l as [|y l IH]; simpl; [reflexivity|].
  destruct (key_leb (key (f x)) (key (f y))); simpl; now rewrite ?IH.
Qed.

Lemma sort_by_map {A B} (f : A -> B) key l :
  sort_by key (map f l) = map f (sort_by (fun a => key (f a)) l).
Proof.
  induction l as [|x l IH]; simpl; [reflexivity|].
  now rewrite IH, insert_by_map.
Qed.

Lemma sort_by_ext {A} (key key' : A -> list (list N)) l :
  (forall x, key x = key' x) -> sort_by key l = sort_by key' l.
Proof.
  intros E. induction l as [|x l IH]; simpl; [reflexivity|].
  rewrite IH. generalize (sort_by key' l). intros s.
  induction s as [|y s IHs]; simpl; [reflexivity|].
  now rewrite !E, IHs.
Qed.

Lemma parse_registry_query :
  parse_statement (cstring registry_query) = Some (Select registry_select).
Proof. vm_compute. reflexivity. Qed.

(** The registry query returns one row for each descriptor. *)
Lemma registry_query_result b read_only :
  SPI_execute b registry_query read_only 0 =
  Return {| status := SPI_OK_SELECT;
            SPI_processed := List.length (registered b);
            SPI_tuptable := map descriptor_tuple (registered b);
            after := b |}.
Proof.
  unfold SPI_execute, SPI_execute_with_args. rewrite parse_registry_query.
  unfold execute, select_rows. cbn [from registry_select].
  change (resolve b "core.tb_entity_registry") with (Some (registry_relation b)).
  unfold eval_select.
  change (forallb _ (targets registry_select) && _ && _) with true.
  cbv beta iota. cbn [eval_condition where_ registry_select limit].
  cbn [registry_relation tuples columns].
  rewrite filter_map_comm, map_map, sort_by_map.
  assert (E : sort_by
    (fun a => order_key (map snd (targets registry_select)) (order_by registry_select)
       (map (fun t => eval_expr registry_columns (registry_tuple a) (fst t))
            (targets registry_select)))
    (filter (fun x => negb (is_null (cell registry_columns "v_table" (registry_tuple x))))
            (tb_entity_registry b)) = registered b).
  { unfold registered. rewrite (sort_by_ext _ entity_key) by reflexivity.
    f_equal. apply filter_ext. intros r. unfold is_registered.
    change (cell registry_columns "v_table" (registry_tuple r))
      with (text_datum (v_table r)).
    now destruct (v_table r). }
  cbn [targets order_by registry_select] in E |- *.
  rewrite E. rewrite length_map.
  do 2 f_equal. apply map_ext. intros r.
  cbn [map fst]. unfold descriptor_tuple, data_table, delete_col.
  change (eval_expr registry_columns (registry_tuple r) (EAtom (AColumn "entity_name")))
    with (Some (VText (entity_name r))).
  change (eval_expr registry_columns (registry_tuple r) (EAtom (AColumn "graphql_type")))
    with (Some (VText (graphql_type r))).
  change (eval_expr registry_columns (registry_tuple r) (EAtom (AColumn "pk_column")))
    with (Some (VText (pk_column r))).
  change (eval_expr registry_columns (registry_tuple r) (EAtom (AColumn "source_table")))
    with (Some (VText (source_table r))).
  unfold eval_expr.
  change (eval_atom registry_columns (registry_tuple r) (AColumn "tv_table"))
    with (text_datum (tv_table r)).
  change (eval_atom registry_columns (registry_tuple r) (AColumn "v_table"))
    with (text_datum (v_table r)).
  change (eval_atom registry_columns (registry_tuple r) (AColumn "soft_delete_column"))
    with (text_datum (soft_delete_column r)).
  cbn [eval_atom].
  destruct (tv_table r), (soft_delete_column r); reflexivity.
Qed.

End RegistryFacts.

Module ViewTextFacts.
Import CString CStringFacts Uuid Pg Spi Relay ParseFacts RegistryFacts.

Lemma ident_char_not_nul c : is_ident_char c = true -> (c =? NUL)%char = false.
Proof.
  intros H. apply Ascii.eqb_neq. intros ->. discriminate.
Qed.

Lemma name_valid_text s : all_chars is_ident_char s = true -> valid_text s = true.
Proof.
  induction s as [|c s IH]; simpl; [reflexivity|].
  intros H. apply andb_true_iff in H as [Hc Hs].
  now rewrite (ident_char_not_nul c Hc), IH.
Qed.

Lemma is_name_valid s : is_name s = true -> cstring s = s.
Proof.
  intros H. apply andb_true_iff in H as [_ H].
  now apply cstring_valid, name_valid_text.
Qed.

Lemma is_literal_valid s : is_literal s = true -> cstring s = s.
Proof.
  intros H. apply andb_true_iff in H as [H _]. now apply cstring_valid.
Qed.

(** What the refresh appends for one descriptor. *)
Lemma append_branch buf r rest :
  descriptor_ok r = true -> is_registered r = true ->
  appendStringInfo buf branch_format
    [SPI_getvalue (descriptor_tuple r) 3; SPI_getvalue (descriptor_tuple r) 2;
     SPI_getvalue (descriptor_tuple r) 1; SPI_getvalue (descriptor_tuple r) 5;
     SPI_getvalue (descriptor_tuple r) 4; SPI_getvalue (descriptor_tuple r) 6]
  ++ rest = buf ++ branch_text r rest.
Proof.
  intros Hok Hreg. unfold descriptor_ok in Hok.
  do 5 (apply andb_true_iff in Hok as [Hok ?]).
  unfold appendStringInfo. rewrite app_assoc. f_equal.
  change (SPI_getvalue (descriptor_tuple r) 3) with (Some (pk_column r)).
  change (SPI_getvalue (descriptor_tuple r) 2) with (Some (graphql_type r)).
  change (SPI_getvalue (descriptor_tuple r) 1) with (Some (entity_name r)).
  change (SPI_getvalue (descriptor_tuple r) 5) with (Some (source_table r)).
  change (SPI_getvalue (descriptor_tuple r) 6) with (Some (delete_col r)).
  assert (E4 : SPI_getvalue (descriptor_tuple r) 4 = Some (table_name r)).
  { unfold table_name, data_table, is_registered in *.
    change (SPI_getvalue (descriptor_tuple r) 4)
      with (option_map output (text_datum (data_table r))).
    unfold data_table. destruct (tv_table r); [reflexivity|].
    now destruct (v_table r). }
  rewrite E4. unfold branch_format, branch_text.
  cbn [sprintf fmt_s].
  rewrite (is_name_valid (pk_column r)), (is_name_valid (table_name r)),
    (is_name_valid (delete_col r)), (is_literal_valid (graphql_type r)),
    (is_literal_valid (entity_name r)), (is_literal_valid (source_table r))
    by assumption.
  cbn [append]. repeat (rewrite app_assoc; cbn [append]).
  reflexivity.
Qed.

Lemma view_loop_next rows : forall i buf rest,
  forallb descriptor_ok rows = true -> forallb is_registered rows = true ->
  view_loop (S i) (map descriptor_tuple rows) buf ++ rest
  = buf ++ union_text rows rest.
Proof.
  induction rows as [|r rows IH]; intros i buf rest Hok Hreg;
    cbn [map view_loop union_text]; [reflexivity|].
  cbn [forallb] in Hok, Hreg.
  apply andb_true_iff in Hok as [Hr Hok]. apply andb_true_iff in Hreg as [Hg Hreg].
  cbn [Nat.ltb Nat.leb]. rewrite IH by assumption.
  rewrite append_branch by assumption.
  unfold appendStringInfoString. change (cstring " UNION ALL ") with " UNION ALL ".
  now rewrite app_assoc.
Qed.

Lemma view_loop_first r rows buf rest :
  forallb descriptor_ok (r :: rows) = true -> forallb is_registered (r :: rows) = true ->
  view_loop 0 (map descriptor_tuple (r :: rows)) buf ++ rest
  = buf ++ branch_text r (union_text rows rest).
Proof.
  intros Hok Hreg. cbn [forallb] in Hok, Hreg.
  apply andb_true_iff in Hok as [Hr Hok]. apply andb_true_iff in Hreg as [Hg Hreg].
  cbn [map view_loop Nat.ltb Nat.leb].
  now rewrite view_loop_next, append_branch.
Qed.

Lemma valid_text_branch r rest :
  descriptor_ok r = true -> valid_text (branch_text r rest) = valid_text rest.
Proof.
  intros Hok. unfold descriptor_ok in Hok.
  do 5 (apply andb_true_iff in Hok as [Hok ?]).
  assert (N : forall s, is_name s = true -> valid_text s = true).
  { intros s Hs. apply andb_true_iff in Hs as [_ Hs]. now apply name_valid_text. }
  assert (L : forall s, is_literal s = true -> valid_text s = true).
  { intros s Hs. now apply andb_true_iff in Hs as [Hs _]. }
  unfold branch_text.
  rewrite !valid_text_app.
  rewrite (N (pk_column r)), (N (table_name r)), (N (delete_col r)),
    (L (graphql_type r)), (L (entity_name r)), (L (source_table r)) by assumption.
  reflexivity.
Qed.

Lemma valid_text_union rows rest :
  forallb descriptor_ok rows = true ->
  valid_text (union_text rows rest) = valid_text rest.
Proof.
  induction rows as [|r rows IH]; cbn [forallb union_text]; [reflexivity|].
  intros H. apply andb_true_iff in H as [Hr H].
  rewrite valid_text_app, valid_text_branch, IH by assumption. reflexivity.
Qed.

Lemma registered_all b : forallb is_registered (registered b) = true.
Proof.
  apply forallb_forall. intros r Hr. unfold registered in Hr.
  apply (Permutation_in _ (OrderFacts.sort_by_perm _ _)) in Hr.
  now apply filter_In in Hr as [_ Hr].
Qed.

(** The statement that the refresh sends to define the view. *)
Lemma view_statement_text b :
  forallb descriptor_ok (registered b) = true ->
  cstring (view_statement b) =
  match registered b with
  | [] => empty_view_sql
  | r :: rows => create_view_text ++ branch_text r (union_text rows "")
  end.
Proof.
  intros Hok. unfold view_statement. rewrite registry_query_result.
  cbn [SPI_processed SPI_tuptable]. rewrite <- (length_map descriptor_tuple), firstn_all.
  pose proof (registered_all b) as Hreg.
  destruct (registered b) as [|r rows]; [reflexivity|].
  cbn [map List.length Nat.eqb].
  rewrite <- (app_nil_r (view_loop _ _ _)).
  change (map descriptor_tuple (r :: rows))
    with (descriptor_tuple r :: map descriptor_tuple rows) in *.
  change (descriptor_tuple r :: map descriptor_tuple rows)
    with (map descriptor_tuple (r :: rows)).
  rewrite view_loop_first by assumption.
  change (appendStringInfoString "" "CREATE OR REPLACE VIEW core.v_nodes AS ")
    with create_view_text.
  apply cstring_valid. cbn [forallb] in Hok. apply andb_true_iff in Hok as [Hr Hok].
  unfold create_view_text.
  rewrite valid_text_app, valid_text_branch, valid_text_union by assumption.
  reflexivity.
Qed.

End ViewTextFacts.

Module ViewParseFacts.
Import CString CStringFacts Uuid Pg Spi Relay ParseFacts BatchParseFacts RegistryFacts
       ViewTextFacts.

Lemma name_starts w r c :
  is_name w = true -> is_ident_char c = false -> starts_with c (w ++ r) = false.
Proof.
  intros Hw Hc. apply andb_true_iff in Hw as [Hne Hw].
  destruct w as [|a w]; [discriminate|]. cbn [append starts_with all_chars] in *.
  apply andb_true_iff in Hw as [Ha _].
  apply Ascii.eqb_neq. intros ->. congruence.
Qed.

(** An identifier is read up to the space that follows it. *)
Lemma ident_name w r :
  is_name w = true -> ident (w ++ String " " r) = Some (w, String " " r).
Proof.
  intros Hw. apply andb_true_iff in Hw as [Hne Hw].
  apply ident_app; [|assumption|reflexivity].
  intros ->. discriminate.
Qed.

Lemma parse_atom_name w r :
  is_name w = true ->
  parse_atom (w ++ String " " r) = Some (AColumn w, String " " r).
Proof.
  intros Hw. unfold parse_atom.
  rewrite name_starts by (assumption || reflexivity).
  now rewrite ident_name.
Qed.

Lemma parse_atom_literal l r :
  is_literal l = true ->
  parse_atom (String "'" (l ++ String "'" r)) = Some (ALiteral l, r).
Proof.
  intros Hl. apply andb_true_iff in Hl as [_ Hl]. apply negb_true_iff in Hl.
  unfold parse_atom. cbn [starts_with]. rewrite Ascii.eqb_refl.
  now rewrite quoted_app.
Qed.

#[local] Arguments expect !p !s.
#[local] Arguments ident !s.
#[local] Arguments number !s.
#[local] Arguments quoted !s.
#[local] Arguments span p !s.
#[local] Arguments parse_atom !s.
#[local] Arguments parse_expr !s.
#[local] Arguments parse_target !s.
#[local] Arguments parse_targets !fuel !s.
#[local] Arguments parse_items !fuel !s.
#[local] Arguments parse_array fuel !s.
#[local] Arguments parse_condition fuel !s.
#[local] Arguments parse_order !fuel !s.
#[local] Arguments parse_select fuel !s.
#[local] Arguments parse_union !k fuel !s.
#[local] Arguments until c !s.

Lemma parse_targets_step f s :
  parse_targets (S f) s =
  match parse_target s with
  | Some (t, r) =>
      match expect ", " r with
      | Some r1 =>
          match parse_targets f r1 with
          | Some (ts, r2) => Some (t :: ts, r2)
          | None => None
          end
      | None => Some ([t], r)
      end
  | None => None
  end.
Proof. reflexivity. Qed.

Lemma parse_target_step s :
  parse_target s =
  match parse_expr s with
  | Some (e, r) =>
      match expect " as " r with
      | Some r1 =>
          match ident r1 with
          | Some (alias, r2) => Some ((e, alias), r2)
          | None => None
          end
      | None => Some ((e, default_name e), r)
      end
  | None => None
  end.
Proof. reflexivity. Qed.

Lemma parse_expr_name w r :
  is_name w = true ->
  parse_expr (w ++ String " " r) = Some (EAtom (AColumn w), String " " r).
Proof.
  intros Hw. unfold parse_expr. rewrite parse_atom_name by assumption.
  cbn. reflexivity.
Qed.

Lemma literal_no_quote l : is_literal l = true -> contains "'" l = false.
Proof.
  intros Hl. apply andb_true_iff in Hl as [_ Hl]. now apply negb_true_iff in Hl.
Qed.

Lemma parse_expr_literal l r :
  is_literal l = true ->
  parse_expr (String "'" (l ++ String "'" (String " " r)))
  = Some (EAtom (ALiteral l), String " " r).
Proof.
  intros Hl. unfold parse_expr. rewrite parse_atom_literal by assumption.
  cbn. reflexivity.
Qed.

(** One step of reading a text whose next piece is a name or a constant of
    the descriptor. *)
Ltac read_piece :=
  first
    [ rewrite expect_nil
    | rewrite parse_targets_step, parse_target_step, parse_expr_name by assumption
    | rewrite parse_target_step, parse_expr_literal by assumption
    | rewrite ident_name by assumption ];
  cbn.

(** The SELECT of a descriptor reads back as its statement. *)
Lemma parse_branch r f rest :
  descriptor_ok r = true -> 7 <= f ->
  rest = "" \/ (exists more, rest = " UNION ALL " ++ more) ->
  parse_select f (branch_text r rest) = Some (branch_select r, rest).
Proof.
  intros Hok Hf Hrest. unfold descriptor_ok in Hok.
  do 5 (apply andb_true_iff in Hok as [Hok ?]).
  do 7 (destruct f as [|f]; [lia|]).
  unfold branch_text, parse_select, parse_condition, branch_select.
  destruct Hrest as [-> | [more ->]]; cbn [append]; cbn; repeat read_piece;
    reflexivity.
Qed.

Lemma parse_union_step k f s :
  parse_union (S k) f s =
  match parse_select f s with
  | Some (q, r) =>
      match expect " UNION ALL " r with
      | Some r1 =>
          match parse_union k f r1 with
          | Some (qs, r2) => Some (q :: qs, r2)
          | None => None
          end
      | None => Some ([q], r)
      end
  | None => None
  end.
Proof. reflexivity. Qed.

Lemma parse_union_text rows : forall r k f,
  forallb descriptor_ok (r :: rows) = true -> List.length rows < k -> 7 <= f ->
  parse_union k f (branch_text r (union_text rows ""))
  = Some (map branch_select (r :: rows), "").
Proof.
  induction rows as [|r' rows IH]; intros r k f Hok Hk Hf;
    (destruct k as [|k]; [lia|]); cbn [forallb] in Hok;
    apply andb_true_iff in Hok as [Hr Hok]; rewrite parse_union_step;
    cbn [union_text].
  - rewrite parse_branch by (assumption || now left). reflexivity.
  - rewrite parse_branch by (assumption || (right; now eexists)).
    rewrite expect_app, IH by (assumption || (cbn [List.length] in Hk; lia)).
    reflexivity.
Qed.

Lemma length_union_text rows rest :
  List.length rows <= String.length (union_text rows rest).
Proof.
  induction rows as [|r rows IH]; cbn [union_text List.length]; [lia|].
  unfold branch_text. rewrite !length_app. cbn [String.length]. lia.
Qed.

(** The statement that defines the view over the descriptors. *)
Lemma parse_view_text r rows :
  forallb descriptor_ok (r :: rows) = true ->
  parse_statement (create_view_text ++ branch_text r (union_text rows ""))
  = Some (CreateOrReplaceView "core.v_nodes" (map branch_select (r :: rows))).
Proof.
  intros Hok. unfold parse_statement.
  set (fuel := String.length _).
  assert (Hfuel : 7 <= fuel /\ List.length rows < fuel).
  { subst fuel. pose proof (length_union_text rows "") as L.
    unfold create_view_text, branch_text. rewrite !length_app. cbn [String.length].
    lia. }
  destruct Hfuel as [H7 Hl]. clearbody fuel.
  pose proof (parse_union_text rows r fuel fuel Hok Hl H7) as E.
  set (X := branch_text r (union_text rows "")) in *. clearbody X.
  unfold create_view_text. cbn. now rewrite expect_nil, E.
Qed.

Lemma parse_empty_view :
  parse_statement (cstring empty_view_sql)
  = Some (CreateOrReplaceView "core.v_nodes" [empty_select]).
Proof. vm_compute. reflexivity. Qed.

(** The statement that the refresh sends, for any registry whose names can
    be carried by a statement. *)
Lemma parse_view_statement b :
  forallb descriptor_ok (registered b) = true ->
  parse_statement (cstring (view_statement b))
  = Some (CreateOrReplaceView "core.v_nodes" (view_branches b)).
Proof.
  intros Hok. rewrite view_statement_text by assumption. unfold view_branches.
  destruct (registered b) as [|r rows] eqn:E.
  - apply parse_empty_view.
  - now apply parse_view_text.
Qed.

End ViewParseFacts.

Module ViewExecFacts.
Import CString CStringFacts Uuid Pg Spi Relay OrderFacts ParseFacts RegistryFacts
       ViewTextFacts ViewParseFacts.

(** The rows of one branch. *)
Lemma branch_rows_select b r :
  table_ok b r = true -> branch_rows b (branch_select r) = Some (live_rows b r).
Proof.
  unfold table_ok, branch_rows, live_rows. cbn [from branch_select].
  destruct (base_relation b (table_name r)) as [tbl|]; [|discriminate].
  intros Hc. cbn [forallb] in Hc.
  repeat (apply andb_true_iff in Hc as [? Hc]).
  unfold eval_select.
  cbn [targets where_ order_by limit branch_select map fst snd forallb expr_ok atom_ok
       condition_ok eval_condition].
  repeat match goal with H : has_column _ _ = true |- _ => rewrite H; clear H end.
  cbn [andb]. rewrite sort_by_no_key by reflexivity.
  reflexivity.
Qed.

Lemma union_rows_branches b rows :
  forallb (table_ok b) rows = true ->
  union_rows b (map branch_select rows) = Some (flat_map (live_rows b) rows).
Proof.
  induction rows as [|r rows IH]; cbn [forallb map union_rows flat_map]; [reflexivity|].
  intros H. apply andb_true_iff in H as [Hr H].
  now rewrite branch_rows_select, IH.
Qed.

Lemma view_ok_branches r rows : view_ok (map branch_select (r :: rows)) = true.
Proof.
  cbn [map view_ok]. apply forallb_forall. intros q Hq.
  destruct Hq as [<- | Hq]; [reflexivity|].
  apply in_map_iff in Hq as (r' & <- & _). reflexivity.
Qed.

(** The relation of the view that the refresh defines. *)
Lemma view_relation_branches b :
  forallb (table_ok b) (registered b) = true ->
  view_relation b (view_branches b)
  = Some {| columns := node_view_columns; tuples := unified_rows b |}.
Proof.
  intros Hok. unfold view_branches, unified_rows.
  destruct (registered b) as [|r rows]; [reflexivity|].
  unfold view_relation. rewrite view_ok_branches, union_rows_branches by assumption.
  reflexivity.
Qed.

Lemma same_data_refl b : same_data b b.
Proof. now repeat split. Qed.

Lemma same_data_trans b1 b2 b3 : same_data b1 b2 -> same_data b2 b3 -> same_data b1 b3.
Proof. intros (?&?&?) (?&?&?). repeat split; congruence. Qed.

Lemma same_data_resolve b1 b2 name :
  same_data b1 b2 -> resolve b1 name = resolve b2 name.
Proof.
  intros (Hr & Ht & Hv).
  assert (Hb : forall n, base_relation b1 n = base_relation b2 n).
  { intros n. unfold base_relation, registry_relation. now rewrite Hr, Ht. }
  assert (Hu : forall qs, union_rows b1 qs = union_rows b2 qs).
  { induction qs as [|q qs IH]; cbn [union_rows]; [reflexivity|].
    rewrite IH. unfold branch_rows. destruct (from q); now rewrite ?Hb. }
  unfold resolve, view_relation. rewrite Hv.
  destruct (name =? "core.v_nodes")%string; [|apply Hb].
  destruct (v_nodes b2); [|reflexivity]. now rewrite Hu.
Qed.

(** DROP INDEX IF EXISTS always runs. *)
Lemma drop_index_value b name :
  execute b [] 0 (DropIndexIfExists name) =
  Return (utility (with_indexes b
            (filter (fun i => negb (index_name i =? unqualified name)%string)
                    (indexes b)))).
Proof. reflexivity. Qed.

(** CREATE INDEX on [core.v_nodes] raises where the view exists: it is a
    view, and a view carries no index. *)
Lemma create_index_on_view b name col r :
  resolve b "core.v_nodes" = Some r ->
  execute b [] 0 (CreateIndex name "core.v_nodes" col)
  = Raise (cannot_create_index "core.v_nodes").
Proof. intros Hr. unfold execute. now rewrite Hr. Qed.


Lemma resolve_with_indexes b l name : resolve (with_indexes b l) name = resolve b name.
Proof. apply same_data_resolve. now repeat split. Qed.

Lemma indexes_with_indexes b l : indexes (with_indexes b l) = l.
Proof. reflexivity. Qed.

Lemma with_indexes_twice b l l' : with_indexes (with_indexes b l) l' = with_indexes b l'.
Proof. reflexivity. Qed.

End ViewExecFacts.

Module RefreshFacts.
Import CString CStringFacts Uuid Pg Spi Relay NodeIndexes OrderFacts ParseFacts.
Import RegistryFacts ViewTextFacts ViewParseFacts ViewExecFacts.

Lemma drops_filter (l : list index) :
  filter (fun i => negb (index_name i =? "idx_v_nodes_entity_name")%string)
    (filter (fun i => negb (index_name i =? "idx_v_nodes_typename")%string)
       (filter (fun i => negb (index_name i =? "idx_v_nodes_id")%string) l))
  = filter (fun i => negb (is_node_index i)) l.
Proof.
  induction l as [|i l IH]; [reflexivity|]. unfold is_node_index in *. cbn [filter].
  destruct (index_name i =? "idx_v_nodes_id")%string; cbn [negb orb filter]; [exact IH|].
  destruct (index_name i =? "idx_v_nodes_typename")%string; cbn [negb orb filter];
    [exact IH|].
  destruct (index_name i =? "idx_v_nodes_entity_name")%string; cbn [negb orb filter];
    [exact IH|].
  now rewrite IH.
Qed.

(** The backend after the three DROP INDEX IF EXISTS statements. *)
Lemma refresh_drops b :
  exists r4,
    (r2 <- SPI_execute b "DROP INDEX IF EXISTS core.idx_v_nodes_id" false 0 ;;
     r3 <- SPI_execute (after r2) "DROP INDEX IF EXISTS core.idx_v_nodes_typename"
             false 0 ;;
     SPI_execute (after r3) "DROP INDEX IF EXISTS core.idx_v_nodes_entity_name"
       false 0)%pg = Return r4 /\
    after r4 = with_indexes b (filter (fun i => negb (is_node_index i)) (indexes b)).
Proof.
  unfold SPI_execute, SPI_execute_with_args.
  change (parse_statement (cstring "DROP INDEX IF EXISTS core.idx_v_nodes_id"))
    with (Some (DropIndexIfExists "core.idx_v_nodes_id")).
  change (parse_statement (cstring "DROP INDEX IF EXISTS core.idx_v_nodes_typename"))
    with (Some (DropIndexIfExists "core.idx_v_nodes_typename")).
  change (parse_statement (cstring "DROP INDEX IF EXISTS core.idx_v_nodes_entity_name"))
    with (Some (DropIndexIfExists "core.idx_v_nodes_entity_name")).
  cbv beta iota. rewrite !drop_index_value. cbv beta iota.
  eexists. split; [reflexivity|].
  change (unqualified "core.idx_v_nodes_id") with "idx_v_nodes_id".
  change (unqualified "core.idx_v_nodes_typename") with "idx_v_nodes_typename".
  change (unqualified "core.idx_v_nodes_entity_name") with "idx_v_nodes_entity_name".
  cbn [after utility]. rewrite !indexes_with_indexes, !with_indexes_twice.
  now rewrite drops_filter.
Qed.

(** The statements on the indexes: without entities the three names are
    dropped; with entities the first CREATE INDEX raises, the view being a
    view. *)
Lemma refresh_indexes_value n b r :
  resolve b "core.v_nodes" = Some r ->
  refresh_indexes n b =
  if (0 <? n)%nat then Raise (cannot_create_index "core.v_nodes")
  else Return (with_indexes b (filter (fun i => negb (is_node_index i)) (indexes b))).
Proof.
  intros Hr. unfold refresh_indexes.
  destruct (refresh_drops b) as (r4 & E & Ea).
  destruct (SPI_execute b "DROP INDEX IF EXISTS core.idx_v_nodes_id" false 0)
    as [r2|e2]; [|discriminate].
  destruct (SPI_execute (after r2) "DROP INDEX IF EXISTS core.idx_v_nodes_typename"
              false 0) as [r3|e3]; [|discriminate].
  rewrite E, Ea. destruct (0 <? n)%nat; [|reflexivity].
  unfold SPI_execute at 1. unfold SPI_execute_with_args.
  change (parse_statement (cstring "CREATE INDEX idx_v_nodes_id ON core.v_nodes(id)"))
    with (Some (CreateIndex "idx_v_nodes_id" "core.v_nodes" "id")).
  cbv beta iota.
  rewrite (create_index_on_view _ _ _ r) by now rewrite resolve_with_indexes.
  reflexivity.
Qed.


(** The first part of the refresh, once SPI connects: the statement of the
    view is run, and what the server raises over it leaves the function. *)
Lemma refresh_view_value b :
  SPI_connect b = SPI_OK_CONNECT ->
  refresh_view b =
  match SPI_execute b (view_statement b) false 0 with
  | Return r1 =>
      if (status r1 =? SPI_OK_UTILITY)%Z
      then Return (List.length (registered b), after r1)
      else Raise (elog_ERROR "failed to refresh v_nodes view")
  | Raise e => Raise e
  end.
Proof.
  intros Hc. unfold refresh_view, view_statement. rewrite Hc.
  change (SPI_OK_CONNECT =? SPI_OK_CONNECT)%Z with true. cbv iota.
  rewrite registry_query_result. cbv beta iota zeta.
  cbn [status SPI_processed SPI_tuptable after].
  change (SPI_OK_SELECT =? SPI_OK_SELECT)%Z with true. cbv iota.
  reflexivity.
Qed.

Lemma view_relation_same_tables b1 b2 qs :
  tb_entity_registry b1 = tb_entity_registry b2 -> tables b1 = tables b2 ->
  view_relation b1 qs = view_relation b2 qs.
Proof.
  intros Hr Ht.
  assert (Hb : forall n, base_relation b1 n = base_relation b2 n).
  { intros n. unfold base_relation, registry_relation. now rewrite Hr, Ht. }
  assert (Hu : forall l, union_rows b1 l = union_rows b2 l).
  { induction l as [|q l IH]; cbn [union_rows]; [reflexivity|].
    rewrite IH. unfold branch_rows. destruct (from q); now rewrite ?Hb. }
  unfold view_relation. now rewrite Hu.
Qed.

(** The statement of the view runs where the names of the registry can be
    carried by a statement and the data tables have the columns. *)
Lemma view_statement_result b :
  forallb descriptor_ok (registered b) = true ->
  forallb (table_ok b) (registered b) = true ->
  SPI_execute b (view_statement b) false 0
  = Return (utility (with_view b (view_branches b))).
Proof.
  intros Hd Ht. unfold SPI_execute, SPI_execute_with_args.
  rewrite parse_view_statement by assumption. unfold execute.
  change ("core.v_nodes" =? "core.v_nodes")%string with true. cbv iota.
  now rewrite view_relation_branches.
Qed.

Lemma resolve_with_view b :
  forallb (table_ok b) (registered b) = true ->
  resolve (with_view b (view_branches b)) "core.v_nodes"
  = Some {| columns := node_view_columns; tuples := unified_rows b |}.
Proof.
  intros Ht. unfold resolve.
  change ("core.v_nodes" =? "core.v_nodes")%string with true. cbv iota.
  cbn [v_nodes with_view].
  rewrite (view_relation_same_tables _ b) by reflexivity.
  now apply view_relation_branches.
Qed.

(** The first part of the refresh over a registry in order: the view is
    defined, with the live rows of the data tables. *)
Lemma refresh_view_defines b :
  SPI_connect b = SPI_OK_CONNECT ->
  forallb descriptor_ok (registered b) = true ->
  forallb (table_ok b) (registered b) = true ->
  refresh_view b
  = Return (List.length (registered b), with_view b (view_branches b)).
Proof.
  intros Hc Hd Ht. rewrite refresh_view_value by assumption.
  now rewrite view_statement_result by assumption.
Qed.

(** The refresh without entities: the empty view, and the three names of
    indexes dropped. *)
Lemma refresh_without_entities b :
  SPI_connect b = SPI_OK_CONNECT ->
  registered b = [] ->
  fraiseql_refresh_nodes_view_fast b =
  Return (PG_RETURN_BOOL true,
          with_indexes (with_view b [empty_select])
            (filter (fun i => negb (is_node_index i)) (indexes b))).
Proof.
  intros Hc He. unfold fraiseql_refresh_nodes_view_fast.
  rewrite refresh_view_defines; try assumption; try (rewrite He; reflexivity).
  rewrite He. cbn [List.length]. unfold view_branches. rewrite He.
  rewrite (refresh_indexes_value 0 _ {| columns := node_view_columns; tuples := [] |}).
  - reflexivity.
  - pose proof (resolve_with_view b) as H. unfold view_branches, unified_rows in H.
    rewrite He in H. apply H. reflexivity.
Qed.

(** The refresh with entities, over a registry in order: the view is
    defined and the first CREATE INDEX raises. *)
Lemma refresh_with_entities b :
  SPI_connect b = SPI_OK_CONNECT ->
  forallb descriptor_ok (registered b) = true ->
  forallb (table_ok b) (registered b) = true ->
  registered b <> [] ->
  fraiseql_refresh_nodes_view_fast b = Raise (cannot_create_index "core.v_nodes").
Proof.
  intros Hc Hd Ht Hn. unfold fraiseql_refresh_nodes_view_fast.
  rewrite refresh_view_defines by assumption.
  rewrite (refresh_indexes_value _ _
             {| columns := node_view_columns; tuples := unified_rows b |})
    by now apply resolve_with_view.
  destruct (registered b); [contradiction | reflexivity].
Qed.

End RefreshFacts.

Module ResolveFacts.
Import CString CStringFacts Uuid Pg Spi Relay OrderFacts ParseFacts RegistryFacts.

Lemma parse_node_query :
  parse_statement
    (cstring "SELECT __typename, data, entity_name FROM core.v_nodes WHERE id = $1 LIMIT 1")
  = Some (Select node_select).
Proof. vm_compute. reflexivity. Qed.

(** The query of the single resolver over a relation that has the four
    columns: the first row with the id, if there is one. *)
Lemma eval_select_node rel id :
  forallb (has_column (columns rel)) batch_columns = true ->
  eval_select rel [Some (VUuid id)] node_select =
  Some (map (project (columns rel) ["__typename"; "data"; "entity_name"])
            (firstn 1 (filter (id_is (columns rel) id) (tuples rel)))).
Proof.
  intros Hc. unfold batch_columns in Hc. cbn [forallb] in Hc.
  repeat (apply andb_true_iff in Hc as [? Hc]).
  unfold eval_select, node_select.
  cbn [targets where_ order_by limit map fst snd forallb expr_ok atom_ok condition_ok
       eval_condition Nat.sub nth_error].
  repeat match goal with H : has_column _ _ = true |- _ => rewrite H; clear H end.
  cbn [andb]. rewrite sort_by_no_key by reflexivity.
  cbn [is_null negb andb]. fold (id_is (columns rel) id).
  generalize (filter (id_is (columns rel) id) (tuples rel)). intros l.
  now destruct l.
Qed.

(** What the single resolver does once its context is in order. *)
Lemma resolve_node_value fcinfo b rel id :
  call_ok fcinfo b -> nodes_view b rel ->
  fraiseql_resolve_node_fast fcinfo b (Some id) =
  Return (Materialized
            (map (node_tuple (columns rel))
                 (firstn 1 (filter (id_is (columns rel) id) (tuples rel)))), b).
Proof.
  intros (H1 & H2 & H3 & H4) [Hr Hc].
  unfold fraiseql_resolve_node_fast.
  rewrite H1, H2, H3, H4. cbn [negb].
  change (SPI_OK_CONNECT =? SPI_OK_CONNECT)%Z with true. cbv iota.
  unfold SPI_execute_with_args. rewrite parse_node_query.
  unfold execute, select_rows. cbn [from node_select].
  rewrite Hr, eval_select_node by assumption.
  generalize (filter (id_is (columns rel) id) (tuples rel)). intros l.
  destruct l as [|row l]; reflexivity.
Qed.

End ResolveFacts.

Module UnifiedFacts.
Import CString CStringFacts Uuid Pg Spi Relay OrderFacts RegistryFacts.

(** The descriptors are the rows of the registry with a view table. *)
Lemma registered_in b r :
  In r (registered b) <-> In r (tb_entity_registry b) /\ v_table r <> None.
Proof.
  unfold registered. rewrite sort_by_in, filter_In. unfold is_registered.
  destruct (v_table r); split; intros [H1 H2]; split; congruence.
Qed.

(** The rows of the unified view, one by one. *)
Lemma unified_rows_in b row :
  In row (unified_rows b) <->
  exists r name tbl src,
    In r (tb_entity_registry b) /\ v_table r <> None /\
    data_table r = Some name /\ base_relation b name = Some tbl /\
    In src (tuples tbl) /\
    cell (columns tbl)
         (match soft_delete_column r with Some c => c | None => "deleted_at" end)
         src = None /\
    row = node_row r (columns tbl) src.
Proof.
  unfold unified_rows. rewrite in_flat_map. split.
  - intros (r & Hr & Hrow). apply registered_in in Hr as [Hin Hv].
    unfold live_rows in Hrow.
    assert (Hn : data_table r = Some (table_name r)).
    { unfold table_name, data_table. destruct (tv_table r); [reflexivity|].
      now destruct (v_table r). }
    destruct (base_relation b (table_name r)) as [tbl|] eqn:Eb; [|contradiction].
    apply in_map_iff in Hrow as (src & <- & Hsrc).
    apply filter_In in Hsrc as [Hsrc Hlive].
    exists r, (table_name r), tbl, src. repeat split; try assumption.
    unfold is_live, delete_col in Hlive.
    now destruct (cell (columns tbl) _ src).
  - intros (r & name & tbl & src & Hin & Hv & Hn & Hb & Hsrc & Hdel & ->).
    exists r. split; [now apply registered_in|].
    unfold live_rows, table_name. rewrite Hn, Hb.
    apply in_map. apply filter_In. split; [assumption|].
    unfold is_live, delete_col. now rewrite Hdel.
Qed.

End UnifiedFacts.

Module KeyFacts.
Import CString Uuid Pg Spi Relay OrderFacts.

Lemma N_of_ascii_inj a b : N_of_ascii a = N_of_ascii b -> a = b.
Proof.
  intros H. rewrite <- (ascii_N_embedding a), <- (ascii_N_embedding b). now rewrite H.
Qed.

Lemma bytes_inj s t : bytes s = bytes t -> s = t.
Proof.
  unfold bytes. revert t. induction s as [|a s IH]; intros [|b t]; simpl;
    try discriminate; [reflexivity|].
  intros [= Ha Hs]. apply N_of_ascii_inj in Ha. subst b. now rewrite (IH t Hs).
Qed.

(** The order of UUID keys is [uuid_cmp]. *)
Lemma lex_memcmp a b : lex N.compare (map N_of_ascii a) (map N_of_ascii b) = memcmp a b.
Proof.
  revert b. induction a as [|x a IH]; intros [|y b]; simpl; try reflexivity.
  now rewrite IH.
Qed.

(** ORDER BY __typename, id on rows with a type name and an id: the type
    names in byte order, and for one type name the ids in [uuid_cmp]
    order. *)
Lemma typename_id_key_le t1 d1 e1 u1 t2 d2 e2 u2 :
  key_le typename_id_key
    [Some (VText t1); d1; e1; Some (VUuid u1)]
    [Some (VText t2); d2; e2; Some (VUuid u2)]
  <-> lex N.compare (bytes t1) (bytes t2) = Lt \/
      (t1 = t2 /\ uuid_cmp u1 u2 <> Gt).
Proof.
  unfold key_le, key_leb, key_cmp, typename_id_key, order_key, batch_columns.
  cbn [map cell column_index String.eqb Ascii.eqb Bool.eqb option_map nth datum_key lex
       N.compare andb].
  rewrite lex_memcmp. fold (uuid_cmp u1 u2).
  destruct (lex N.compare (bytes t1) (bytes t2)) eqn:E.
  - apply (lex_eq _ N_compare_order) in E. apply bytes_inj in E. subst t2.
    split.
    + intros H. right. split; [reflexivity|]. now destruct (uuid_cmp u1 u2).
    + intros [[=] | [_ H]]. now destruct (uuid_cmp u1 u2).
  - split; [now left | reflexivity].
  - split; [discriminate|]. intros [[=] | [-> _]].
    now rewrite (cmp_refl _ (lex_order _ N_compare_order)) in E.
Qed.

End KeyFacts.

Module GlobalIdFacts.
Import CString CStringFacts Uuid UuidFacts Base64 Base64Facts Pg Spi Relay CodecFacts.
Import ParseFacts.

Lemma encode_inj a b : Base64.encode a = Base64.encode b -> a = b.
Proof.
  intros H. apply (f_equal Base64.decode) in H. rewrite !decode_encode in H.
  congruence.
Qed.

Lemma uuid_out_inj u v : uuid_out u = uuid_out v -> u = v.
Proof.
  intros H. apply (f_equal uuid_in) in H. rewrite !uuid_in_out in H. congruence.
Qed.

Lemma length_uuid_out u : String.length (uuid_out u) = 36.
Proof. rewrite uuid_out_text. now destruct u. Qed.

(** Two texts that end with tails of one length are equal part by part. *)
Lemma app_inj_length s1 : forall s2 t1 t2,
  String.length t1 = String.length t2 ->
  s1 ++ t1 = s2 ++ t2 -> s1 = s2 /\ t1 = t2.
Proof.
  induction s1 as [|a s1 IH]; intros [|b s2] t1 t2 Hl H; simpl in H.
  - now split.
  - exfalso. apply (f_equal String.length) in H. simpl in H.
    rewrite length_app in H. lia.
  - exfalso. apply (f_equal String.length) in H. simpl in H.
    rewrite length_app in H. lia.
  - injection H as -> H. destruct (IH s2 t1 t2 Hl H) as [-> ->]. now split.
Qed.

Lemma composite_inj t1 u1 t2 u2 :
  composite t1 u1 = composite t2 u2 -> t1 = t2 /\ u1 = u2.
Proof.
  unfold composite. intros H.
  apply app_inj_length in H as [Ht Hu].
  - injection Hu as Hu. split; [assumption | now apply uuid_out_inj].
  - simpl. now rewrite !length_uuid_out.
Qed.

(** What the loop of [string_to_uuid] reads is made of digits and
    hyphens. *)
Lemma string_to_uuid_loop_chars n : forall i src ds rest,
  string_to_uuid_loop n i src = Some (ds, rest) ->
  exists read, src = read ++ rest /\ all_chars is_uuid_char read = true.
Proof.
  induction n as [|n IH]; intros i src ds rest; cbn [string_to_uuid_loop].
  - intros [= <- <-]. now exists "".
  - destruct src as [|c0 [|c1 src1]]; try discriminate.
    destruct (hex_val c0) as [h|] eqn:E0; [|discriminate].
    destruct (hex_val c1) as [l|] eqn:E1; [|discriminate].
    assert (H0 : is_uuid_char c0 = true) by (unfold is_uuid_char; now rewrite E0).
    assert (H1 : is_uuid_char c1 = true) by (unfold is_uuid_char; now rewrite E1).
    destruct src1 as [|c2 src2].
    + destruct (string_to_uuid_loop n (S i) "") as [[ds' rest']|] eqn:E; [|discriminate].
      intros [= <- <-]. destruct (IH _ _ _ _ E) as (read & Hr & Hc).
      exists (String c0 (String c1 read)). cbn [append all_chars].
      now rewrite <- Hr, H0, H1, Hc.
    + destruct ((c2 =? "-")%char && Nat.odd i && (i <? 15)%nat) eqn:Eh.
      * destruct (string_to_uuid_loop n (S i) src2) as [[ds' rest']|] eqn:E;
          [|discriminate].
        intros [= <- <-]. destruct (IH _ _ _ _ E) as (read & Hr & Hc).
        apply andb_true_iff in Eh as [Eh _]. apply andb_true_iff in Eh as [Eh _].
        apply Ascii.eqb_eq in Eh. subst c2.
        exists (String c0 (String c1 (String "-" read))). cbn [append all_chars].
        now rewrite <- Hr, H0, H1, Hc.
      * destruct (string_to_uuid_loop n (S i) (String c2 src2)) as [[ds' rest']|] eqn:E;
          [|discriminate].
        intros [= <- <-]. destruct (IH _ _ _ _ E) as (read & Hr & Hc).
        exists (String c0 (String c1 read)). cbn [append all_chars].
        now rewrite <- Hr, H0, H1, Hc.
Qed.

(** [uuid_in] reads no text that holds a colon. *)
Lemma uuid_in_colon s :
  valid_text s = true -> contains ":" s = true -> uuid_in s = None.
Proof.
  intros Hv Hc. unfold uuid_in. rewrite (cstring_valid s Hv).
  set (braces := match s with String c _ => (c =? "{")%char | _ => false end).
  set (src := if braces then drop 1 s else s).
  assert (Hs : contains ":" src = true).
  { subst src braces. destruct s as [|c s]; [discriminate|].
    destruct (c =? "{")%char eqn:E; [|assumption].
    apply Ascii.eqb_eq in E. subst c. exact Hc. }
  destruct (string_to_uuid_loop UUID_LEN 0 src) as [[ds rest]|] eqn:E; [|reflexivity].
  apply string_to_uuid_loop_chars in E as (read & Hr & Hread).
  assert (Hn : contains ":" read = false)
    by (eapply all_chars_contains; [|exact Hread]; reflexivity).
  rewrite Hr, contains_app, Hn in Hs. cbn [orb] in Hs.
  destruct braces.
  - destruct rest as [|c r]; [reflexivity|].
    destruct (c =? "}")%char eqn:Ec; [|reflexivity].
    apply Ascii.eqb_eq in Ec. subst c. cbn [contains] in Hs.
    destruct r; [discriminate | reflexivity].
  - destruct rest; [discriminate | reflexivity].
Qed.

Lemma until_app_some c s t r rest :
  until c s = Some (t, r) -> until c (s ++ rest) = Some (t, r ++ rest).
Proof.
  revert t r. induction s as [|a s IH]; simpl; [discriminate|].
  intros t r. destruct (a =? c)%char.
  - intros [= <- <-]. reflexivity.
  - destruct (until c s) as [[w r']|]; [|discriminate].
    intros [= <- <-]. now rewrite (IH w r' eq_refl).
Qed.

Lemma until_parts c s t r :
  until c s = Some (t, r) -> s = t ++ String c r /\ contains c t = false.
Proof.
  revert t r. induction s as [|a s IH]; simpl; [discriminate|].
  intros t r. destruct (a =? c)%char eqn:E.
  - intros [= <- <-]. apply Ascii.eqb_eq in E. now subst a.
  - destruct (until c s) as [[w r']|]; [|discriminate].
    intros [= <- <-]. destruct (IH w r' eq_refl) as [-> Hc].
    split; [reflexivity|]. simpl. now rewrite E.
Qed.

(** The decoder on the global ID of a pair, in a call declared to return a
    row: with a colon in the type name, [uuid_in] is given what follows the
    first colon. *)
Lemma decode_encoded fcinfo t u :
  valid_text t = true ->
  is_composite (get_call_result_type fcinfo) = true ->
  fraiseql_decode_global_id fcinfo (Some (Base64.encode (composite t u))) =
  match until ":" t with
  | Some (_, r) => Raise (invalid_uuid (r ++ String ":" (uuid_out u)))
  | None => Return (PG_RETURN_DATUM [Some (VText t); Some (VUuid u)])
  end.
Proof.
  intros Hv Hf.
  rewrite decode_global_id_cases by (assumption || apply valid_text_encode).
  rewrite decode_encode.
  rewrite (cstring_valid (composite t u)) by now apply valid_text_composite.
  unfold composite.
  destruct (until ":" t) as [[a r]|] eqn:Eu.
  - rewrite (until_app_some _ _ _ _ _ Eu).
    rewrite uuid_in_colon; [reflexivity| |].
    + apply until_parts in Eu as [-> _]. rewrite valid_text_app in Hv.
      apply andb_true_iff in Hv as [_ Hv]. cbn [valid_text] in Hv.
      apply andb_true_iff in Hv as [_ Hv].
      rewrite valid_text_app, Hv. cbn [valid_text andb negb].
      apply valid_text_uuid_out.
    + rewrite contains_app. cbn [contains]. now rewrite orb_true_r.
  - apply until_none in Eu.
    rewrite (until_app ":" t (uuid_out u)) by assumption.
    now rewrite uuid_in_out.
Qed.

End GlobalIdFacts.

Module NodeFacts.
Import CString CStringFacts Uuid UuidFacts Pg Spi Relay OrderFacts ParseFacts.
Import BatchFacts BatchParseFacts BatchExecFacts ResolveFacts KeyFacts.

Lemma memcmp_eq a b : memcmp a b = Eq <-> a = b.
Proof.
  revert b. induction a as [|x a IH]; intros [|y b]; simpl;
    try (split; (discriminate || reflexivity)).
  destruct (N_of_ascii x ?= N_of_ascii y)%N eqn:E.
  - apply N.compare_eq in E. apply N_of_ascii_inj in E. subst y.
    rewrite IH. split; [now intros -> | now intros [= ->]].
  - split; [discriminate|]. intros [= -> _]. now rewrite N.compare_refl in E.
  - split; [discriminate|]. intros [= -> _]. now rewrite N.compare_refl in E.
Qed.

Lemma uuid_data_inj u v : uuid_data u = uuid_data v -> u = v.
Proof.
  intros H. apply (f_equal uuid_of_data) in H. rewrite !uuid_of_data_inv in H.
  congruence.
Qed.

Lemma uuid_eqb_eq u v : uuid_eqb u v = true <-> u = v.
Proof.
  unfold uuid_eqb, uuid_cmp. split.
  - destruct (memcmp (uuid_data u) (uuid_data v)) eqn:E; try discriminate.
    intros _. apply uuid_data_inj. now apply memcmp_eq.
  - intros ->. now rewrite (proj2 (memcmp_eq _ _) eq_refl).
Qed.

Lemma existsb_uuid u ids : existsb (uuid_eqb u) ids = true <-> In u ids.
Proof.
  rewrite existsb_exists. split.
  - intros (v & Hv & E). apply uuid_eqb_eq in E. now subst v.
  - intros H. exists u. split; [assumption | now apply uuid_eqb_eq].
Qed.

(** A datum equals a UUID only if it is that UUID. *)
Lemma datum_eqb_uuid d id : datum_eqb d (Some (VUuid id)) = true <-> d = Some (VUuid id).
Proof.
  unfold datum_eqb. split.
  - destruct (lex N.compare (datum_key d) (datum_key (Some (VUuid id)))) eqn:E;
      try discriminate.
    intros _. apply (lex_eq _ N_compare_order) in E.
    destruct d as [[u|s|j|t]|]; cbn [datum_key] in E; try discriminate.
    injection E as E. f_equal. f_equal. apply uuid_data_inj.
    revert E. generalize (uuid_data u) (uuid_data id).
    induction l as [|x l IH]; intros [|y l']; simpl; try discriminate; [reflexivity|].
    intros [= Hx Hl]. apply N_of_ascii_inj in Hx. subst y. now rewrite (IH l' Hl).
  - intros ->. now rewrite (cmp_refl _ (lex_order _ N_compare_order)).
Qed.

Lemma id_is_cell cols id row :
  id_is cols id row = true <-> cell cols "id" row = Some (VUuid id).
Proof.
  unfold id_is. split.
  - intros H. apply andb_true_iff in H as [_ H]. now apply datum_eqb_uuid.
  - intros ->. apply andb_true_iff. split; [reflexivity | now apply datum_eqb_uuid].
Qed.

Lemma id_in_cell cols ids row :
  id_in cols ids row = true <->
  exists u, cell cols "id" row = Some (VUuid u) /\ In u ids.
Proof.
  unfold id_in. destruct (cell cols "id" row) as [[u|s|j|t]|].
  - rewrite existsb_uuid. split.
    + intros H. now exists u.
    + now intros (v & [= ->] & H).
  - split; [discriminate | now intros (v & [=] & _)].
  - split; [discriminate | now intros (v & [=] & _)].
  - split; [discriminate | now intros (v & [=] & _)].
  - split; [discriminate | now intros (v & [=] & _)].
Qed.

Lemma In_non_null u elems : In u (non_null elems) <-> In (Some u) elems.
Proof.
  induction elems as [|[v|] elems IH]; cbn [non_null In].
  - tauto.
  - rewrite IH. split; intros [H|H]; auto; left; congruence.
  - rewrite IH. split; [auto | intros [H|H]; [discriminate | assumption]].
Qed.

(** LIMIT 1 over the rows that match: none where no row matches, and
    otherwise the first one that does. *)
Lemma first_match {A} (p : A -> bool) (l : list A) :
  (firstn 1 (filter p l) = [] /\ forall x, In x l -> p x = false) \/
  (exists before x after,
     l = (before ++ x :: after)%list /\ (forall y, In y before -> p y = false) /\
     p x = true /\ firstn 1 (filter p l) = [x]).
Proof.
  induction l as [|a l IH]; cbn [filter].
  - left. split; [reflexivity | intros x []].
  - destruct (p a) eqn:E.
    + right. exists [], a, l. repeat split; try assumption. intros y [].
    + destruct IH as [[H1 H2] | (before & x & after & -> & Hb & Hx & Hf)].
      * left. split; [assumption|]. intros x [<- | Hx]; auto.
      * right. exists (a :: before), x, after. repeat split; try assumption.
        intros y [<- | Hy]; auto.
Qed.

(** The records of the batch resolver: those of the rows of the view whose
    id is one of the non-null elements. *)
Lemma batch_records rel ids :
  Permutation (map batch_tuple (batch_rows rel ids))
    (map (fun row => [cell (columns rel) "__typename" row; cell (columns rel) "data" row;
                      cell (columns rel) "entity_name" row; Some (VText "v_nodes_batch")])
         (filter (id_in (columns rel) ids) (tuples rel))).
Proof.
  unfold batch_rows.
  rewrite (Permutation_map batch_tuple (sort_by_perm typename_id_key _)).
  rewrite map_map. apply Permutation_refl.
Qed.

(** A SELECT that runs leaves the backend as it is, and its status is
    [SPI_OK_SELECT]. *)
Lemma execute_select_after b params count q r :
  execute b params count (Select q) = Return r ->
  after r = b /\ status r = SPI_OK_SELECT.
Proof.
  unfold execute, select_rows.
  destruct (from q) as [name|].
  - destruct (resolve b name) as [rel|]; [|discriminate].
    destruct (eval_select rel params q); [|discriminate]. now intros [= <-].
  - destruct (eval_select no_relation params q); [|discriminate]. now intros [= <-].
Qed.

End NodeFacts.

Module ExtensionFacts.
Import CString Pg Extension.

Lemma fresh_id_above l c : In c l -> (context_id c < fresh_id l)%nat.
Proof.
  unfold fresh_id. induction l as [|d l IH]; [contradiction|].
  cbn [map fold_right]. intros [-> | H]; [lia|].
  specialize (IH H). lia.
Qed.

(** Deleting a context that was just created leaves the others. *)
Lemma delete_fresh l name :
  filter (fun c' => negb (context_id c' =? fresh_id l)%nat)
    ({| context_id := fresh_id l; context_name := name |} :: l) = l.
Proof.
  cbn [filter context_id]. rewrite Nat.eqb_refl. cbn [negb].
  assert (H : forall c, In c l -> negb (context_id c =? fresh_id l)%nat = true).
  { intros c Hc. apply negb_true_iff, Nat.eqb_neq.
    pose proof (fresh_id_above l c Hc). lia. }
  revert H. generalize (fresh_id l). intros n H.
  induction l as [|d l IH]; [reflexivity|]. cbn [filter].
  rewrite (H d) by now left. rewrite IH; [reflexivity|].
  intros c Hc. apply H. now right.
Qed.

End ExtensionFacts.

Module IndexFacts.
Import CString CStringFacts Uuid Pg Spi Relay NodeIndexes OrderFacts ParseFacts RegistryFacts.
Import ViewTextFacts ViewParseFacts ViewExecFacts RefreshFacts.

(** A branch over a table that is missing, or that lacks a column the
    branch reads, cannot be run: the server raises "relation does not
    exist" or "column does not exist". *)
Lemma branch_error_missing b r :
  table_ok b r = false ->
  branch_rows b (branch_select r) = None /\
  exists e,
    branch_error b (branch_select r) = Some e /\
    (sqlerrcode e = ERRCODE_UNDEFINED_TABLE \/ sqlerrcode e = ERRCODE_UNDEFINED_COLUMN).
Proof.
  unfold table_ok, branch_rows, branch_error. cbn [from branch_select].
  destruct (base_relation b (table_name r)) as [tbl|].
  2:{ intros _. split; [reflexivity|]. eexists. split; [reflexivity | now left]. }
  intros Hc.
  assert (Hm : exists c,
    first_missing (columns tbl)
      [pk_column r; "data"; "created_at"; "updated_at"; delete_col r] = Some c).
  { unfold first_missing. cbn [forallb find] in *.
    destruct (has_column (columns tbl) (pk_column r)); cbn [negb andb] in *; eauto.
    destruct (has_column (columns tbl) "data"); cbn [negb andb] in *; eauto.
    destruct (has_column (columns tbl) "created_at"); cbn [negb andb] in *; eauto.
    destruct (has_column (columns tbl) "updated_at"); cbn [negb andb] in *; eauto.
    destruct (has_column (columns tbl) (delete_col r)); cbn [negb andb] in *; eauto.
    discriminate. }
  destruct Hm as (c & Hm).
  assert (He : eval_select tbl [] (branch_select r) = None).
  { unfold eval_select.
    cbn [targets where_ order_by limit branch_select map fst snd forallb expr_ok atom_ok
         condition_ok].
    cbn [forallb] in Hc.
    destruct (has_column (columns tbl) (pk_column r)); [|reflexivity].
    destruct (has_column (columns tbl) "data"); [|reflexivity].
    destruct (has_column (columns tbl) "created_at"); [|reflexivity].
    destruct (has_column (columns tbl) "updated_at"); [|reflexivity].
    destruct (has_column (columns tbl) (delete_col r)); [discriminate|reflexivity]. }
  rewrite He. split; [reflexivity|].
  exists (undefined_column c). split; [|now right].
  unfold select_error.
  cbn [targets where_ branch_select flat_map fst expr_columns atom_columns
       condition_columns app].
  now rewrite Hm.
Qed.

Lemma union_rows_missing b r rows :
  In r rows -> table_ok b r = false -> union_rows b (map branch_select rows) = None.
Proof.
  intros Hin Hr. induction rows as [|r' rows IH]; [contradiction|].
  cbn [map union_rows]. destruct Hin as [-> | Hin].
  - now rewrite (proj1 (branch_error_missing b r Hr)).
  - rewrite IH by assumption. now destruct (branch_rows b (branch_select r')).
Qed.

(** A branch over a table with the columns raises nothing. *)
Lemma branch_error_ok b r :
  table_ok b r = true -> branch_error b (branch_select r) = None.
Proof.
  intros Hok. pose proof (branch_rows_select b r Hok) as E.
  unfold branch_rows, branch_error in *. cbn [from branch_select] in *.
  destruct (base_relation b (table_name r)) as [tbl|]; [|discriminate].
  now destruct (eval_select tbl [] (branch_select r)).
Qed.

(** The error of a view with a branch over a missing table or column. *)
Lemma view_error_missing b r rows :
  In r rows -> table_ok b r = false ->
  sqlerrcode (view_error b (map branch_select rows)) = ERRCODE_UNDEFINED_TABLE \/
  sqlerrcode (view_error b (map branch_select rows)) = ERRCODE_UNDEFINED_COLUMN.
Proof.
  intros Hin Hr. induction rows as [|r' rows IH]; [contradiction|].
  cbn [map view_error].
  destruct (table_ok b r') eqn:Hok.
  - rewrite branch_error_ok by assumption.
    destruct Hin as [-> | Hin]; [congruence | now apply IH].
  - destruct (branch_error_missing b r' Hok) as (_ & e & -> & He). exact He.
Qed.

(** Safe descriptors are descriptors that a statement can carry. *)
Lemma safe_descriptors_ok rows :
  forallb safe_descriptor rows = true -> forallb descriptor_ok rows = true.
Proof.
  intros H. apply forallb_forall. intros r Hr.
  rewrite forallb_forall in H. specialize (H r Hr). unfold safe_descriptor in H.
  do 7 (apply andb_true_iff in H as [H _]). exact H.
Qed.


End IndexFacts.

Module RegistryOrderFacts.
Import CString CStringFacts Uuid Pg Spi Relay OrderFacts RegistryFacts KeyFacts.

Section Unique.
Context {A : Type} (key : A -> list (list N)).

(** Two sorted lists with the same elements are equal where no two
    elements share a key. *)
Lemma sorted_unique (l1 : list A) : forall l2,
  StronglySorted (key_le key) l1 -> StronglySorted (key_le key) l2 ->
  Permutation l1 l2 ->
  (forall x y, In x l1 -> In y l1 -> key x = key y -> x = y) ->
  l1 = l2.
Proof.
  induction l1 as [|x l1 IH]; intros l2 S1 S2 P Hk.
  - apply Permutation_nil in P. now subst.
  - destruct l2 as [|y l2]; [apply Permutation_sym, Permutation_nil in P; discriminate|].
    inversion S1 as [|? ? S1' F1]; subst. inversion S2 as [|? ? S2' F2]; subst.
    rewrite Forall_forall in F1, F2.
    assert (Exy : x = y).
    { assert (Hy : In y (x :: l1))
        by (apply (Permutation_in _ (Permutation_sym P)); now left).
      assert (Hx : In x (y :: l2)) by (apply (Permutation_in _ P); now left).
      destruct Hy as [Hy | Hy]; [assumption|].
      destruct Hx as [Hx | Hx]; [now symmetry|].
      apply Hk; [now left | now right |].
      pose proof (F1 y Hy) as L1. pose proof (F2 x Hx) as L2.
      unfold key_le, key_leb in L1, L2.
      destruct (key_cmp (key x) (key y)) eqn:E.
      - now apply (lex_eq _ (lex_order _ N_compare_order)) in E.
      - unfold key_cmp in *.
        rewrite (lex_antisym _ (lex_order _ N_compare_order)), E in L2. discriminate.
      - discriminate. }
    subst y. f_equal. apply IH; try assumption.
    + now apply Permutation_cons_inv in P.
    + intros a c Ha Hc. apply Hk; now right.
Qed.

Lemma sort_by_permutation (l1 l2 : list A) :
  Permutation l1 l2 ->
  (forall x y, In x l1 -> In y l1 -> key x = key y -> x = y) ->
  sort_by key l1 = sort_by key l2.
Proof.
  intros P Hk. apply sorted_unique; try apply sort_by_sorted.
  - rewrite (sort_by_perm key l1), (sort_by_perm key l2). exact P.
  - intros x y Hx Hy. apply Hk; now apply (sort_by_in key).
Qed.

End Unique.

Lemma filter_permutation {A} (p : A -> bool) (l1 l2 : list A) :
  Permutation l1 l2 -> Permutation (filter p l1) (filter p l2).
Proof.
  induction 1 as [|x l1 l2 P IH|x y l|l1 l2 l3 P1 IH1 P2 IH2]; cbn [filter].
  - constructor.
  - destruct (p x); [now constructor | assumption].
  - destruct (p x), (p y); try apply Permutation_refl. apply perm_swap.
  - now transitivity (filter p l2).
Qed.

(** The descriptors do not depend on the order of the rows of the registry,
    where entity names are unique. *)
Lemma registered_permutation b1 b2 :
  Permutation (tb_entity_registry b1) (tb_entity_registry b2) ->
  NoDup (map entity_name (tb_entity_registry b1)) ->
  registered b1 = registered b2.
Proof.
  intros P Hn. unfold registered. apply sort_by_permutation.
  - now apply filter_permutation.
  - intros x y Hx Hy E. apply filter_In in Hx as [Hx _]. apply filter_In in Hy as [Hy _].
    unfold entity_key in E. injection E as E. apply bytes_inj in E.
    revert Hn Hx Hy E. generalize (tb_entity_registry b1). intros l.
    induction l as [|r l IH]; [contradiction|]. cbn [map].
    intros Hn. inversion Hn as [|? ? Hr Hn']; subst.
    intros [-> | Hx] [-> | Hy] E; try reflexivity.
    + exfalso. apply Hr. rewrite E. now apply in_map.
    + exfalso. apply Hr. rewrite <- E. now apply in_map.
    + now apply IH.
Qed.

End RegistryOrderFacts.


(* ================================================================== *)
(* ==== PART III: the properties the specification states ==== *)
(* ================================================================== *)

Import CString CStringFacts Uuid UuidFacts Base64 Base64Facts Pg Spi Relay.
Import CodecFacts OrderFacts ParseFacts BatchFacts BatchParseFacts BatchExecFacts.
Import RegistryFacts ViewTextFacts ViewParseFacts ViewExecFacts RefreshFacts ResolveFacts.
Import UnifiedFacts GlobalIdFacts NodeFacts NodeIndexes IndexFacts.

(** ** The scenario of the specification, run on the embedding *)

Module Scenario.
Import Sample.

(** The wire format: type [User], id 123e4567-e89b-12d3-a456-426614174000. *)
Example user_id_text : uuid_out user_id = "123e4567-e89b-12d3-a456-426614174000".
Proof. reflexivity. Qed.

Example encode_user :
  fraiseql_encode_global_id (Some "User") (Some user_id)
  = Return (PG_RETURN_TEXT_P "VXNlcjoxMjNlNDU2Ny1lODliLTEyZDMtYTQ1Ni00MjY2MTQxNzQwMDA=").
Proof. reflexivity. Qed.

Example decode_user :
  fraiseql_decode_global_id fcinfo
    (Some "VXNlcjoxMjNlNDU2Ny1lODliLTEyZDMtYTQ1Ni00MjY2MTQxNzQwMDA=")
  = Return (PG_RETURN_DATUM [Some (VText "User"); Some (VUuid user_id)]).
Proof. reflexivity. Qed.

Example decode_not_base64 :
  fraiseql_decode_global_id fcinfo (Some "not-valid-base64")
  = Raise (ereport_ERROR ERRCODE_INVALID_PARAMETER_VALUE "invalid base64 sequence").
Proof. reflexivity. Qed.

Example decode_no_colon :
  fraiseql_decode_global_id fcinfo (Some (Base64.encode "no-colon-here"))
  = Raise (ereport_ERROR ERRCODE_INVALID_PARAMETER_VALUE
             "invalid global ID format: missing colon separator").
Proof. reflexivity. Qed.

(** The decoder splits at the first colon: the global ID of the type name
    [a:b] does not decode to it. *)
Example decode_splits_at_first_colon :
  fraiseql_decode_global_id fcinfo (Some (Base64.encode (composite "a:b" A1)))
  = Raise (invalid_uuid "b:a1a1a1a1-a1a1-a1a1-a1a1-a1a1a1a1a1a1").
Proof. reflexivity. Qed.

(** Entities Alpha (row A1) and Beta (row B1, soft-deleted row B2): the
    view is defined, and the refresh raises at the first CREATE INDEX. *)
Example refresh_view_sample : refresh_view backend0 = Return (2, backend1).
Proof. vm_compute. reflexivity. Qed.

Example refresh_sample :
  fraiseql_refresh_nodes_view_fast backend0
  = Raise (ereport_ERROR ERRCODE_WRONG_OBJECT_TYPE
             ("cannot create index on relation " ++ in_quotes "v_nodes")).
Proof. vm_compute. reflexivity. Qed.

Example refresh_empty :
  exists b,
    fraiseql_refresh_nodes_view_fast empty_backend = Return (PG_RETURN_BOOL true, b).
Proof. eexists. vm_compute. reflexivity. Qed.

Example resolve_A1 :
  fraiseql_resolve_node_fast fcinfo backend1 (Some A1)
  = Return (Materialized
              [[Some (VText "Alpha"); Some (VJsonb "{a1}"); Some (VText "alpha");
                Some (VText "v_nodes")]], backend1).
Proof. vm_compute. reflexivity. Qed.

Example resolve_B1 :
  fraiseql_resolve_node_fast fcinfo backend1 (Some B1)
  = Return (Materialized
              [[Some (VText "Beta"); Some (VJsonb "{b1}"); Some (VText "beta");
                Some (VText "v_nodes")]], backend1).
Proof. vm_compute. reflexivity. Qed.

Example resolve_B2_soft_deleted :
  fraiseql_resolve_node_fast fcinfo backend1 (Some B2) = Return (Materialized [], backend1).
Proof. vm_compute. reflexivity. Qed.

Example resolve_unknown :
  fraiseql_resolve_node_fast fcinfo backend1 (Some unknownId)
  = Return (Materialized [], backend1).
Proof. vm_compute. reflexivity. Qed.

Example batch_with_trailing_null :
  fraiseql_resolve_nodes_batch fcinfo backend1
    (uuid_array [Some A1; Some A1; Some unknownId; None])
  = Return (Materialized
              [[Some (VText "Alpha"); Some (VJsonb "{a1}"); Some (VText "alpha");
                Some (VText "v_nodes_batch")]], backend1).
Proof. vm_compute. reflexivity. Qed.

Example batch_query_with_leading_null :
  batch_query [None; Some A1]
  = "SELECT __typename, data, entity_name, id FROM core.v_nodes WHERE id = ANY(ARRAY[,'a1a1a1a1-a1a1-a1a1-a1a1-a1a1a1a1a1a1']::uuid[]) ORDER BY __typename, id".
Proof. reflexivity. Qed.

(** Outside the registries of C6: a type name with a quote, or a data table
    without the default soft-delete column, and the server raises over the
    statement of the view. *)
Example refresh_quoted_type_name :
  exists e,
    refresh_view quoted_backend = Raise e /\ sqlerrcode e = ERRCODE_SYNTAX_ERROR.
Proof. eexists. split; vm_compute; reflexivity. Qed.

Example refresh_without_default_column :
  refresh_view plain_backend = Raise (undefined_column "deleted_at").
Proof. vm_compute. reflexivity. Qed.

End Scenario.

(** C1.  Round trip: for a type name without a colon and any UUID, decoding
    the encoded global ID gives back the pair; the global ID is the base64
    text of ["typeName:uuid"], and the decoder splits at the first colon. *)
Theorem C1_decode_encode_roundtrip
    (fcinfo : FunctionCallInfo) (typeName : string) (localId : pg_uuid_t) :
  valid_text typeName = true ->
  contains ":" typeName = false ->
  is_composite (get_call_result_type fcinfo) = true ->
  exists globalId,
    fraiseql_encode_global_id (Some typeName) (Some localId)
      = Return (PG_RETURN_TEXT_P globalId) /\
    globalId = Base64.encode (typeName ++ ":" ++ uuid_out localId) /\
    fraiseql_decode_global_id fcinfo (Some globalId)
      = Return (PG_RETURN_DATUM [Some (VText typeName); Some (VUuid localId)]).
Proof.
  intros Hv Hc Hf. exists (Base64.encode (composite typeName localId)).
  split; [now apply encode_global_id_value|]. split; [reflexivity|].
  rewrite decode_global_id_payload by now apply valid_text_composite.
  unfold composite.
  rewrite strchr_app by (assumption || discriminate).
  rewrite Hf, drop_separator, take_app, uuid_in_out. reflexivity.
Qed.

Lemma C1_witness :
  valid_text "User" = true /\
  contains ":" "User" = false /\
  is_composite (get_call_result_type Sample.fcinfo) = true /\
  exists globalId,
    fraiseql_encode_global_id (Some "User") (Some Sample.A1)
      = Return (PG_RETURN_TEXT_P globalId) /\
    globalId = Base64.encode ("User" ++ ":" ++ uuid_out Sample.A1) /\
    fraiseql_decode_global_id Sample.fcinfo (Some globalId)
      = Return (PG_RETURN_DATUM [Some (VText "User"); Some (VUuid Sample.A1)]).
Proof.
  split; [reflexivity|]. split; [reflexivity|]. split; [reflexivity|].
  apply (C1_decode_encode_roundtrip Sample.fcinfo "User" Sample.A1); reflexivity.
Defined.

(** C2, as the specification states it, fails: the encoder has no check on
    the type name, and a name with a colon is encoded like any other. *)
Lemma C2_counterexample :
  contains ":" "a:b" = true /\
  fraiseql_encode_global_id (Some "a:b") (Some Sample.A1)
    = Return (PG_RETURN_TEXT_P
                "YTpiOmExYTFhMWExLWExYTEtYTFhMS1hMWExLWExYTFhMWExYTFhMQ==").
Proof. split; reflexivity. Qed.

(** C2, amended.  For every UUID and every type name that contains a colon
    the encoder does not fail: it returns the base64 text of
    ["typeName:uuid"], as for any other type name. *)
Theorem C2_encode_accepts_colon (typeName : string) (localId : pg_uuid_t) :
  valid_text typeName = true ->
  contains ":" typeName = true ->
  fraiseql_encode_global_id (Some typeName) (Some localId)
    = Return (PG_RETURN_TEXT_P (Base64.encode (typeName ++ ":" ++ uuid_out localId))).
Proof. intros Hv _. now apply encode_global_id_value. Qed.

Lemma C2_witness :
  valid_text "a:b" = true /\
  contains ":" "a:b" = true /\
  fraiseql_encode_global_id (Some "a:b") (Some Sample.A1)
    = Return (PG_RETURN_TEXT_P (Base64.encode ("a:b" ++ ":" ++ uuid_out Sample.A1))).
Proof.
  split; [reflexivity|]. split; [reflexivity|].
  apply (C2_encode_accepts_colon "a:b" Sample.A1); reflexivity.
Defined.

(** C3.  The claim holds only in part in the code: null entries are skipped
    when the array starts with a UUID or holds none, but a null entry before
    the first UUID leaves a comma right after [ARRAY[]: the text is no
    statement, the server raises a syntax error while [SPI_execute] reads
    it, and the call fails. *)
Theorem C3_null_before_first_uuid_raises
    (fcinfo : FunctionCallInfo) (b : backend)
    (u : pg_uuid_t) (more more' : list (option pg_uuid_t)) :
  call_ok fcinfo b ->
  (exists rest,
     batch_ids (None :: (more ++ Some u :: more')%list) = "ARRAY[,'" ++ rest) /\
  exists e,
    fraiseql_resolve_nodes_batch fcinfo b
      (Some {| ARR_ELEMTYPE := UUIDOID;
               elems := None :: (more ++ Some u :: more')%list |}) = Raise e /\
    sqlerrcode e = ERRCODE_SYNTAX_ERROR.
Proof.
  intros Hc. split.
  - pose proof (batch_ids_text (None :: (more ++ Some u :: more')%list) "") as E.
    rewrite app_nil_r in E. rewrite E. cbn [elems_text].
    assert (En : exists v l, non_null (more ++ Some u :: more')%list = v :: l).
    { clear. induction more as [|[w|] more IH]; cbn [app non_null]; eauto. }
    destruct En as (v & l & ->). cbn [tail_text]. unfold quote_text.
    eexists. reflexivity.
  - exists syntax_error. split; [|reflexivity].
    apply resolve_nodes_batch_unreadable; [assumption|].
    apply batch_items_null_first.
Qed.

Lemma C3_witness :
  call_ok Sample.fcinfo Sample.backend1 /\
  (exists rest, batch_ids [None; Some Sample.A1] = "ARRAY[,'" ++ rest) /\
  exists e,
    fraiseql_resolve_nodes_batch Sample.fcinfo Sample.backend1
      (Sample.uuid_array [None; Some Sample.A1]) = Raise e /\
    sqlerrcode e = ERRCODE_SYNTAX_ERROR.
Proof.
  assert (H : call_ok Sample.fcinfo Sample.backend1) by (repeat split).
  split; [exact H|].
  exact (C3_null_before_first_uuid_raises Sample.fcinfo Sample.backend1
           Sample.A1 [] [] H).
Defined.

(** C4, as the specification states it, fails: the record of A1 holds the
    type name, the data, the entity name and the constant ['v_nodes_batch'],
    and not the id. *)
Lemma C4_counterexample :
  fraiseql_resolve_nodes_batch Sample.fcinfo Sample.backend1
    (Sample.uuid_array [Some Sample.A1]) =
  Return (Materialized
            [[Some (VText "Alpha"); Some (VJsonb "{a1}"); Some (VText "alpha");
              Some (VText "v_nodes_batch")]],
          Sample.backend1) /\
  ~ In (Some (VUuid Sample.A1))
       [Some (VText "Alpha"); Some (VJsonb "{a1}"); Some (VText "alpha");
        Some (VText "v_nodes_batch")].
Proof.
  split; [vm_compute; reflexivity|].
  intros [H|[H|[H|[H|[]]]]]; discriminate.
Qed.

(** C4, amended.  Every record of a batch has four fields: the type name,
    the data and the entity name of a row of the view whose id is one of
    the non-null ids of the call, and the constant ['v_nodes_batch']; the id
    that the query selects is not copied into the record. *)
Theorem C4_batch_record_fields
    (fcinfo : FunctionCallInfo) (b b' : backend) (rel : relation)
    (ids : list (option pg_uuid_t)) (out : list tuple) :
  call_ok fcinfo b ->
  nodes_view b rel ->
  fraiseql_resolve_nodes_batch fcinfo b
    (Some {| ARR_ELEMTYPE := UUIDOID; elems := ids |}) = Return (Materialized out, b') ->
  forall record, In record out ->
  exists row,
    In row (tuples rel) /\
    id_in (columns rel) (non_null ids) row = true /\
    record = [cell (columns rel) "__typename" row;
              cell (columns rel) "data" row;
              cell (columns rel) "entity_name" row;
              Some (VText "v_nodes_batch")].
Proof.
  intros Hc Hv. rewrite (resolve_nodes_batch_value fcinfo b rel) by assumption.
  destruct (batch_items ids); [|discriminate].
  intros [= <- <-] record Hin.
  apply in_map_iff in Hin as (r & <- & Hr).
  apply batch_rows_in in Hr as (row & Hrow & Hid & ->).
  exists row. now rewrite batch_tuple_project.
Qed.

Lemma C4_witness :
  exists row,
    In row (tuples Sample.nodes1) /\
    id_in (columns Sample.nodes1) (non_null [Some Sample.A1]) row = true /\
    [Some (VText "Alpha"); Some (VJsonb "{a1}"); Some (VText "alpha");
     Some (VText "v_nodes_batch")] =
    [cell (columns Sample.nodes1) "__typename" row;
     cell (columns Sample.nodes1) "data" row;
     cell (columns Sample.nodes1) "entity_name" row;
     Some (VText "v_nodes_batch")].
Proof.
  apply (C4_batch_record_fields Sample.fcinfo Sample.backend1 Sample.backend1
           Sample.nodes1 [Some Sample.A1]
           [[Some (VText "Alpha"); Some (VJsonb "{a1}"); Some (VText "alpha");
             Some (VText "v_nodes_batch")]]).
  - repeat split.
  - split; reflexivity.
  - vm_compute. reflexivity.
  - now left.
Defined.

(** C5, as the specification states it, fails: the decoder reads the
    decoded bytes as a C string, up to the first NUL byte.  It returns the
    pair for a text whose decoded bytes go on after the UUID with a NUL byte
    and more, where what follows the first colon is no UUID; and it reports
    a missing colon for a text whose decoded bytes hold a colon and a UUID
    after a NUL byte. *)
Lemma C5_counterexample :
  (let payload := "User:a1a1a1a1-a1a1-a1a1-a1a1-a1a1a1a1a1a1" ++ String NUL "; junk" in
   Base64.decode (Base64.encode payload) = Some payload /\
   until ":" payload
   = Some ("User", "a1a1a1a1-a1a1-a1a1-a1a1-a1a1a1a1a1a1" ++ String NUL "; junk") /\
   uuid_syntax ("a1a1a1a1-a1a1-a1a1-a1a1-a1a1a1a1a1a1" ++ String NUL "; junk") = false /\
   fraiseql_decode_global_id Sample.fcinfo (Some (Base64.encode payload))
   = Return (PG_RETURN_DATUM [Some (VText "User"); Some (VUuid Sample.A1)])) /\
  (let payload := String "A" (String NUL ":a1a1a1a1-a1a1-a1a1-a1a1-a1a1a1a1a1a1") in
   Base64.decode (Base64.encode payload) = Some payload /\
   until ":" payload = Some (String "A" (String NUL ""),
                             "a1a1a1a1-a1a1-a1a1-a1a1-a1a1a1a1a1a1") /\
   uuid_syntax "a1a1a1a1-a1a1-a1a1-a1a1-a1a1a1a1a1a1" = true /\
   fraiseql_decode_global_id Sample.fcinfo (Some (Base64.encode payload))
   = Raise (ereport_ERROR ERRCODE_INVALID_PARAMETER_VALUE
              "invalid global ID format: missing colon separator")).
Proof. split; cbv zeta; repeat split; vm_compute; reflexivity. Qed.

(** C5, amended.  In a call declared to return a row, with [decoded] the
    decoded bytes up to their first NUL byte, the decoder raises the error
    of the base64 decoder when the text is not base64, ["invalid global ID
    format: missing colon separator"] when [decoded] has no colon, and the
    error of [uuid_in] when the part of [decoded] after its first colon is
    no UUID.  It fails with [InvalidFormat] in exactly these three cases,
    every error it raises is of that kind, and on every other input it
    returns the pair. *)
Theorem C5_decode_invalid_format (fcinfo : FunctionCallInfo) (globalId : string) :
  valid_text globalId = true ->
  is_composite (get_call_result_type fcinfo) = true ->
  let r := fraiseql_decode_global_id fcinfo (Some globalId) in
  let not_base64 := Base64.decode globalId = None in
  let no_colon :=
    exists payload,
      Base64.decode globalId = Some payload /\
      contains ":" (cstring payload) = false in
  let bad_uuid :=
    exists payload t s,
      Base64.decode globalId = Some payload /\
      until ":" (cstring payload) = Some (t, s) /\
      uuid_in s = None in
  (not_base64 ->
   r = Raise (ereport_ERROR ERRCODE_INVALID_PARAMETER_VALUE "invalid base64 sequence")) /\
  (no_colon ->
   r = Raise (ereport_ERROR ERRCODE_INVALID_PARAMETER_VALUE
                "invalid global ID format: missing colon separator")) /\
  (forall payload t s,
     Base64.decode globalId = Some payload ->
     until ":" (cstring payload) = Some (t, s) ->
     uuid_in s = None ->
     r = Raise (ereport_ERROR ERRCODE_INVALID_TEXT_REPRESENTATION
                  ("invalid input syntax for type uuid: " ++ in_quotes s))) /\
  ((exists e, r = Raise e /\ InvalidFormat e) <-> not_base64 \/ no_colon \/ bad_uuid) /\
  (forall e, r = Raise e -> InvalidFormat e) /\
  (~ (not_base64 \/ no_colon \/ bad_uuid) ->
   exists t u, r = Return (PG_RETURN_DATUM [Some (VText t); Some (VUuid u)])).
Proof.
  intros Hv Hf. cbv zeta. rewrite decode_global_id_cases by assumption.
  destruct (Base64.decode globalId) as [payload|].
  2:{ repeat split; try (intros; reflexivity).
      - intros (p & [=] & _).
      - intros p t s [=].
      - intros _. now left.
      - intros _. eexists. split; [reflexivity | now left].
      - intros e [= <-]. now left.
      - intros H. exfalso. apply H. now left. }
  destruct (until ":" (cstring payload)) as [[t s]|] eqn:Eu.
  2:{ pose proof (proj1 (until_none _ _) Eu) as Hc.
      repeat split; try (intros; reflexivity).
      - intros [=].
      - intros p t s [= <-] E. congruence.
      - intros _. right. left. now exists payload.
      - intros _. eexists. split; [reflexivity | now left].
      - intros e [= <-]. now left.
      - intros H. exfalso. apply H. right. left. now exists payload. }
  assert (Hc : contains ":" (cstring payload) = true).
  { destruct (contains ":" (cstring payload)) eqn:E; [reflexivity|].
    apply until_none in E. congruence. }
  assert (Hs : cstring s = s).
  { apply cstring_valid. pose proof (valid_text_cstring payload) as H.
    apply until_parts in Eu as [Ep _]. rewrite Ep, valid_text_app in H.
    apply andb_true_iff in H as [_ H]. cbn [valid_text] in H.
    now apply andb_true_iff in H as [_ H]. }
  destruct (uuid_in s) as [u|] eqn:Ei.
  - repeat split.
    + intros [=].
    + intros (p & [= <-] & E). congruence.
    + intros p t' s' [= <-] E E'. congruence.
    + intros (e & [=] & _).
    + intros [[=] | [(p & [= <-] & E) | (p & t' & s' & [= <-] & E & E')]]; congruence.
    + intros e [=].
    + intros _. now exists t, u.
  - repeat split; try (intros; reflexivity).
    + intros [=].
    + intros (p & [= <-] & E). congruence.
    + intros p t' s' [= <-] E E'. unfold invalid_uuid.
      assert (s' = s) by congruence. subst s'. now rewrite Hs.
    + intros _. right. right. now exists payload, t, s.
    + intros _. eexists. split; [reflexivity | now right].
    + intros e [= <-]. now right.
    + intros H. exfalso. apply H. right. right. now exists payload, t, s.
Qed.

Lemma C5_witness :
  valid_text "bm8tY29sb24taGVyZQ==" = true /\
  is_composite (get_call_result_type Sample.fcinfo) = true /\
  fraiseql_decode_global_id Sample.fcinfo (Some "bm8tY29sb24taGVyZQ==")
  = Raise (ereport_ERROR ERRCODE_INVALID_PARAMETER_VALUE
             "invalid global ID format: missing colon separator").
Proof.
  split; [reflexivity|]. split; [reflexivity|].
  apply (C5_decode_invalid_format Sample.fcinfo "bm8tY29sb24taGVyZQ==");
    [reflexivity | reflexivity |].
  exists "no-colon-here". split; reflexivity.
Defined.

(** C6, as the specification states it, fails, for it speaks of every
    registry.  The refresh writes the names of the registry into the
    statement as they are, and a type name that closes its string constant
    goes on as SQL: over the registry of [Sample.spliced_backend] the
    statement defines a view that holds the soft-deleted row B2 of [v_beta].
    And where the registry names no soft-delete column and the data table
    has no column [deleted_at], as in [Sample.plain_backend], the default
    name is written into the statement and the statement fails. *)
Lemma C6_counterexample :
  (exists b' rel,
     refresh_view Sample.spliced_backend = Return (1, b') /\
     resolve b' "core.v_nodes" = Some rel /\
     In [Some (VUuid Sample.B2); Some (VText "Beta"); Some (VText "beta");
         Some (VText "tb_beta"); Some (VJsonb "{b2}"); Some (VTimestamptz 3);
         Some (VTimestamptz 4)] (tuples rel) /\
     In [Some (VUuid Sample.B2); Some (VJsonb "{b2}"); Some (VTimestamptz 3);
         Some (VTimestamptz 4); Some (VTimestamptz 4)] (tuples Sample.v_beta) /\
     cell Sample.node_columns "deleted_at"
       [Some (VUuid Sample.B2); Some (VJsonb "{b2}"); Some (VTimestamptz 3);
        Some (VTimestamptz 4); Some (VTimestamptz 4)] <> None) /\
  (map soft_delete_column (tb_entity_registry Sample.plain_backend) = [None] /\
   refresh_view Sample.plain_backend
   = Raise (ereport_ERROR ERRCODE_UNDEFINED_COLUMN
              ("column " ++ in_quotes "deleted_at" ++ " does not exist"))).
Proof.
  split.
  - eexists. eexists. split; [vm_compute; reflexivity|].
    split; [vm_compute; reflexivity|].
    split; [now left|]. split; [right; now left|]. discriminate.
  - split; vm_compute; reflexivity.
Qed.

(** C6, amended.  For a registry whose names are plain (identifiers that a
    server reads as they are written, string constants without quote or
    backslash) and whose data tables exist with the columns that the view
    reads, the statement that the refresh builds and runs defines the
    unified view with, for each registered entity in the order of the
    entity names, the rows of its data table whose soft-delete column is
    NULL, in the common shape (id, __typename, entity_name, source_table,
    data, created_at, updated_at); the soft-delete column is ['deleted_at']
    where the registry names none. *)
Theorem C6_unified_view_rows (b : backend) :
  SPI_connect b = SPI_OK_CONNECT ->
  forallb safe_descriptor (registered b) = true ->
  forallb (table_ok b) (registered b) = true ->
  exists b' rows,
    refresh_view b = Return (List.length (registered b), b') /\
    resolve b' "core.v_nodes" = Some {| columns := node_view_columns; tuples := rows |} /\
    rows = flat_map (live_rows b) (registered b) /\
    forall row,
      In row rows <->
      exists r name tbl src,
        In r (tb_entity_registry b) /\ v_table r <> None /\
        data_table r = Some name /\ base_relation b name = Some tbl /\
        In src (tuples tbl) /\
        cell (columns tbl)
             (match soft_delete_column r with Some c => c | None => "deleted_at" end)
             src = None /\
        row = node_row r (columns tbl) src.
Proof.
  intros Hc Hs Ht. pose proof (safe_descriptors_ok _ Hs) as Hd.
  exists (with_view b (view_branches b)), (unified_rows b).
  split; [now apply refresh_view_defines|].
  split; [now apply resolve_with_view|].
  split; [reflexivity|]. apply unified_rows_in.
Qed.

Lemma C6_witness :
  exists b' rows,
    refresh_view Sample.backend0
    = Return (List.length (registered Sample.backend0), b') /\
    resolve b' "core.v_nodes" = Some {| columns := node_view_columns; tuples := rows |} /\
    rows = flat_map (live_rows Sample.backend0) (registered Sample.backend0) /\
    forall row,
      In row rows <->
      exists r name tbl src,
        In r (tb_entity_registry Sample.backend0) /\ v_table r <> None /\
        data_table r = Some name /\ base_relation Sample.backend0 name = Some tbl /\
        In src (tuples tbl) /\
        cell (columns tbl)
             (match soft_delete_column r with Some c => c | None => "deleted_at" end)
             src = None /\
        row = node_row r (columns tbl) src.
Proof.
  apply (C6_unified_view_rows Sample.backend0); reflexivity.
Defined.

(** C7.  With no entity descriptor the refresh succeeds and defines a view
    without rows whose columns are those of a view over descriptors, and
    the single resolver returns the empty set for every UUID. *)
Theorem C7_empty_registry
    (fcinfo : FunctionCallInfo) (b : backend) (id : pg_uuid_t) :
  call_ok fcinfo b ->
  registered b = [] ->
  exists b',
    fraiseql_refresh_nodes_view_fast b = Return (PG_RETURN_BOOL true, b') /\
    resolve b' "core.v_nodes" = Some {| columns := node_view_columns; tuples := [] |} /\
    (forall r rows,
       view_columns (view_branches b) = view_columns (map branch_select (r :: rows))) /\
    fraiseql_resolve_node_fast fcinfo b' (Some id) = Return (Materialized [], b').
Proof.
  intros Hcall He. pose proof Hcall as (H1 & H2 & H3 & H4).
  eexists. split; [now apply refresh_without_entities|].
  assert (Hv : resolve
                 (with_indexes (with_view b [empty_select])
                    (filter (fun i => negb (is_node_index i)) (indexes b)))
                 "core.v_nodes"
               = Some {| columns := node_view_columns; tuples := [] |}).
  { rewrite resolve_with_indexes.
    pose proof (resolve_with_view b) as H. unfold view_branches, unified_rows in H.
    rewrite He in H. apply H. reflexivity. }
  split; [exact Hv|]. split.
  - intros r rows. unfold view_branches. rewrite He. reflexivity.
  - rewrite (resolve_node_value fcinfo _
               {| columns := node_view_columns; tuples := [] |}).
    + reflexivity.
    + repeat split; assumption.
    + split; [exact Hv | reflexivity].
Qed.

Lemma C7_witness :
  exists b',
    fraiseql_refresh_nodes_view_fast Sample.empty_backend
      = Return (PG_RETURN_BOOL true, b') /\
    resolve b' "core.v_nodes" = Some {| columns := node_view_columns; tuples := [] |} /\
    (forall r rows,
       view_columns (view_branches Sample.empty_backend)
       = view_columns (map branch_select (r :: rows))) /\
    fraiseql_resolve_node_fast Sample.fcinfo b' (Some Sample.A1)
      = Return (Materialized [], b').
Proof.
  apply (C7_empty_registry Sample.fcinfo Sample.empty_backend Sample.A1).
  - repeat split.
  - reflexivity.
Defined.

(** C8.  For every sequence of UUIDs the batch resolver returns the records
    of rows that are sorted by (__typename, id), ascending: type names byte
    by byte, ids as [uuid_cmp] orders them.  The rows are those of the view
    whose id is in the sequence, so a sequence with the same ids in another
    order gives the same records in the same order. *)
Theorem C8_batch_ordered
    (fcinfo : FunctionCallInfo) (b : backend) (rel : relation) (ids : list pg_uuid_t) :
  call_ok fcinfo b ->
  nodes_view b rel ->
  exists rows,
    fraiseql_resolve_nodes_batch fcinfo b
      (Some {| ARR_ELEMTYPE := UUIDOID; elems := map Some ids |})
    = Return (Materialized (map batch_tuple rows), b) /\
    StronglySorted (key_le typename_id_key) rows /\
    Permutation rows
      (map (project (columns rel) batch_columns)
           (filter (id_in (columns rel) ids) (tuples rel))) /\
    forall ids', Permutation ids ids' ->
      fraiseql_resolve_nodes_batch fcinfo b
        (Some {| ARR_ELEMTYPE := UUIDOID; elems := map Some ids' |})
      = Return (Materialized (map batch_tuple rows), b).
Proof.
  intros Hc Hv. exists (batch_rows rel ids).
  assert (E : forall l,
    fraiseql_resolve_nodes_batch fcinfo b
      (Some {| ARR_ELEMTYPE := UUIDOID; elems := map Some l |})
    = Return (Materialized (map batch_tuple (batch_rows rel l)), b)).
  { intros l. rewrite (resolve_nodes_batch_value fcinfo b rel) by assumption.
    now rewrite batch_items_some, non_null_some. }
  split; [apply E|]. split; [apply sort_by_sorted|]. split; [apply sort_by_perm|].
  intros ids' Hp. rewrite E.
  rewrite (batch_rows_members rel ids' ids); [reflexivity|].
  intros u. split; apply Permutation_in; [symmetry|]; assumption.
Qed.

Lemma C8_witness :
  exists rows,
    fraiseql_resolve_nodes_batch Sample.fcinfo Sample.backend1
      (Some {| ARR_ELEMTYPE := UUIDOID;
               elems := map Some [Sample.B1; Sample.A1; Sample.B2] |})
    = Return (Materialized (map batch_tuple rows), Sample.backend1) /\
    StronglySorted (key_le typename_id_key) rows /\
    Permutation rows
      (map (project (columns Sample.nodes1) batch_columns)
           (filter (id_in (columns Sample.nodes1) [Sample.B1; Sample.A1; Sample.B2])
                   (tuples Sample.nodes1))) /\
    forall ids', Permutation [Sample.B1; Sample.A1; Sample.B2] ids' ->
      fraiseql_resolve_nodes_batch Sample.fcinfo Sample.backend1
        (Some {| ARR_ELEMTYPE := UUIDOID; elems := map Some ids' |})
      = Return (Materialized (map batch_tuple rows), Sample.backend1).
Proof.
  apply (C8_batch_ordered Sample.fcinfo Sample.backend1 Sample.nodes1
           [Sample.B1; Sample.A1; Sample.B2]).
  - repeat split.
  - split; reflexivity.
Defined.

(** C9.  The claim fails in the code for every registry with an entity.
    The source does not read what [SPI_execute] returns for the statements
    on the indexes, but a CREATE INDEX that fails returns nothing: the
    server raises the error, which leaves [SPI_execute] and, with no
    [PG_TRY] around the call, the refresh.  [core.v_nodes] is a view, so the
    first CREATE INDEX always fails: once the view is defined the
    statements on the indexes raise "cannot create index on relation", and
    so does the call, which reports no success. *)
Theorem C9_create_index_aborts_refresh (b : backend) :
  SPI_connect b = SPI_OK_CONNECT ->
  forallb safe_descriptor (registered b) = true ->
  forallb (table_ok b) (registered b) = true ->
  registered b <> [] ->
  exists b1,
    refresh_view b = Return (List.length (registered b), b1) /\
    resolve b1 "core.v_nodes"
    = Some {| columns := node_view_columns;
              tuples := flat_map (live_rows b) (registered b) |} /\
    refresh_indexes (List.length (registered b)) b1
    = Raise (ereport_ERROR ERRCODE_WRONG_OBJECT_TYPE
               ("cannot create index on relation " ++ in_quotes "v_nodes")) /\
    fraiseql_refresh_nodes_view_fast b
    = Raise (ereport_ERROR ERRCODE_WRONG_OBJECT_TYPE
               ("cannot create index on relation " ++ in_quotes "v_nodes")).
Proof.
  intros Hc Hs Ht Hn. pose proof (safe_descriptors_ok _ Hs) as Hd.
  exists (with_view b (view_branches b)).
  split; [now apply refresh_view_defines|].
  split; [now apply resolve_with_view|]. split.
  - rewrite (refresh_indexes_value _ _
               {| columns := node_view_columns; tuples := unified_rows b |})
      by now apply resolve_with_view.
    destruct (registered b); [contradiction | reflexivity].
  - now apply refresh_with_entities.
Qed.

Lemma C9_witness :
  exists b1,
    refresh_view Sample.backend0
    = Return (List.length (registered Sample.backend0), b1) /\
    resolve b1 "core.v_nodes"
    = Some {| columns := node_view_columns;
              tuples := flat_map (live_rows Sample.backend0)
                          (registered Sample.backend0) |} /\
    refresh_indexes (List.length (registered Sample.backend0)) b1
    = Raise (ereport_ERROR ERRCODE_WRONG_OBJECT_TYPE
               ("cannot create index on relation " ++ in_quotes "v_nodes")) /\
    fraiseql_refresh_nodes_view_fast Sample.backend0
    = Raise (ereport_ERROR ERRCODE_WRONG_OBJECT_TYPE
               ("cannot create index on relation " ++ in_quotes "v_nodes")).
Proof.
  apply (C9_create_index_aborts_refresh Sample.backend0);
    [reflexivity | reflexivity | reflexivity | discriminate].
Defined.

(** C10.  A NULL argument makes each of the four operations return NULL,
    before anything that could raise an error: the encoder for a NULL type
    name or a NULL UUID, the decoder, the single and the batch resolver. *)
Theorem C10_null_arguments
    (fcinfo : FunctionCallInfo) (b : backend)
    (typeName : option string) (localId : option pg_uuid_t) :
  fraiseql_encode_global_id None localId = Return PG_RETURN_NULL /\
  fraiseql_encode_global_id typeName None = Return PG_RETURN_NULL /\
  fraiseql_decode_global_id fcinfo None = Return PG_RETURN_NULL /\
  fraiseql_resolve_node_fast fcinfo b None = Return (PG_RETURN_NULL, b) /\
  fraiseql_resolve_nodes_batch fcinfo b None = Return (PG_RETURN_NULL, b).
Proof.
  repeat split; try reflexivity. now destruct typeName.
Qed.

(* ================================================================== *)
(* ==== PART IV: further properties of the code ==== *)
(* ================================================================== *)

Import KeyFacts Extension ExtensionFacts RegistryOrderFacts.

(** X1.  Global IDs are unique: the encoder returns the same text for two
    pairs only if the type names are equal and the UUIDs are equal, also
    where a type name holds a colon. *)
Theorem X1_encode_global_id_injective
    (t1 t2 : string) (u1 u2 : pg_uuid_t) :
  valid_text t1 = true ->
  valid_text t2 = true ->
  (fraiseql_encode_global_id (Some t1) (Some u1)
   = fraiseql_encode_global_id (Some t2) (Some u2)
   <-> t1 = t2 /\ u1 = u2).
Proof.
  intros H1 H2. split.
  - rewrite !encode_global_id_value by assumption.
    intros [= H]. apply encode_inj in H. now apply composite_inj.
  - now intros [-> ->].
Qed.

Lemma X1_witness :
  fraiseql_encode_global_id (Some "a:b") (Some Sample.A1)
  = fraiseql_encode_global_id (Some "a") (Some Sample.B1)
  <-> "a:b" = "a" /\ Sample.A1 = Sample.B1.
Proof.
  apply (X1_encode_global_id_injective "a:b" "a" Sample.A1 Sample.B1); reflexivity.
Defined.

(** X2.  A type name with a colon does not survive the round trip: the
    encoder returns a global ID for it, and the decoder, which splits at the
    first colon, gives [uuid_in] what follows that colon, the rest of the
    type name, a colon and the UUID; [uuid_in] raises its syntax error on
    it.  The decoder never returns another pair. *)
Theorem X2_colon_type_name_fails_to_decode
    (fcinfo : FunctionCallInfo) (typeName : string) (localId : pg_uuid_t) :
  valid_text typeName = true ->
  contains ":" typeName = true ->
  is_composite (get_call_result_type fcinfo) = true ->
  exists globalId before rest,
    until ":" typeName = Some (before, rest) /\
    fraiseql_encode_global_id (Some typeName) (Some localId)
      = Return (PG_RETURN_TEXT_P globalId) /\
    fraiseql_decode_global_id fcinfo (Some globalId)
      = Raise (ereport_ERROR ERRCODE_INVALID_TEXT_REPRESENTATION
                 ("invalid input syntax for type uuid: "
                  ++ in_quotes (rest ++ ":" ++ uuid_out localId))).
Proof.
  intros Hv Hc Hf.
  destruct (until ":" typeName) as [[before rest]|] eqn:Eu.
  2:{ apply until_none in Eu. congruence. }
  exists (Base64.encode (composite typeName localId)), before, rest.
  split; [reflexivity|]. split; [now apply encode_global_id_value|].
  rewrite decode_encoded by assumption. rewrite Eu. unfold invalid_uuid.
  rewrite cstring_valid; [reflexivity|].
  apply until_parts in Eu as [Ep _]. rewrite Ep, valid_text_app in Hv.
  apply andb_true_iff in Hv as [_ Hv]. cbn [valid_text] in Hv.
  apply andb_true_iff in Hv as [_ Hv].
  rewrite valid_text_app, Hv. cbn [valid_text andb negb].
  apply valid_text_uuid_out.
Qed.

Lemma X2_witness :
  exists globalId before rest,
    until ":" "a:b" = Some (before, rest) /\
    fraiseql_encode_global_id (Some "a:b") (Some Sample.A1)
      = Return (PG_RETURN_TEXT_P globalId) /\
    fraiseql_decode_global_id Sample.fcinfo (Some globalId)
      = Raise (ereport_ERROR ERRCODE_INVALID_TEXT_REPRESENTATION
                 ("invalid input syntax for type uuid: "
                  ++ in_quotes (rest ++ ":" ++ uuid_out Sample.A1))).
Proof.
  apply (X2_colon_type_name_fails_to_decode Sample.fcinfo "a:b" Sample.A1); reflexivity.
Defined.

(** X3.  Whatever pair the decoder returns can be encoded and decoded
    again: the type name it returns holds no colon and no NUL, the call was
    declared to return a row, and decoding the global ID that the encoder
    gives for the pair returns the same pair. *)
Theorem X3_decoded_pair_round_trips
    (fcinfo : FunctionCallInfo) (globalId typeName : string) (localId : pg_uuid_t) :
  fraiseql_decode_global_id fcinfo (Some globalId)
    = Return (PG_RETURN_DATUM [Some (VText typeName); Some (VUuid localId)]) ->
  contains ":" typeName = false /\
  valid_text typeName = true /\
  is_composite (get_call_result_type fcinfo) = true /\
  exists canonical,
    fraiseql_encode_global_id (Some typeName) (Some localId)
      = Return (PG_RETURN_TEXT_P canonical) /\
    fraiseql_decode_global_id fcinfo (Some canonical)
      = Return (PG_RETURN_DATUM [Some (VText typeName); Some (VUuid localId)]).
Proof.
  unfold fraiseql_decode_global_id at 1.
  destruct (Base64.decode _) as [payload|]; [|discriminate].
  destruct (strchr (cstring payload) ":") as [n|] eqn:Es; [|discriminate].
  destruct (is_composite (get_call_result_type fcinfo)) eqn:Hf; [|discriminate].
  destruct (uuid_in _) as [u|]; [|discriminate].
  unfold heap_form_tuple. intros [= <- <-].
  apply strchr_until in Es. apply until_parts in Es as [Ep Hc].
  assert (Hv : valid_text (take n (cstring payload)) = true).
  { pose proof (valid_text_cstring payload) as H. rewrite Ep, valid_text_app in H.
    now apply andb_true_iff in H as [H _]. }
  repeat split; try assumption.
  exists (Base64.encode (composite (take n (cstring payload)) u)).
  split; [now apply encode_global_id_value|].
  rewrite decode_encoded by assumption. now rewrite (proj2 (until_none _ _) Hc).
Qed.

Lemma X3_witness :
  contains ":" "User" = false /\
  valid_text "User" = true /\
  is_composite (get_call_result_type Sample.fcinfo) = true /\
  exists canonical,
    fraiseql_encode_global_id (Some "User") (Some Sample.user_id)
      = Return (PG_RETURN_TEXT_P canonical) /\
    fraiseql_decode_global_id Sample.fcinfo (Some canonical)
      = Return (PG_RETURN_DATUM [Some (VText "User"); Some (VUuid Sample.user_id)]).
Proof.
  apply (X3_decoded_pair_round_trips Sample.fcinfo
           "VXNlcjoxMjNFNDU2N0U4OUIxMkQzQTQ1NjQyNjYxNDE3NDAwMA==").
  reflexivity.
Defined.

(** X4.  In a call that is not declared to return a row the decoder never
    returns a value: it reports a text that is not base64 and a missing
    colon as in any call, and otherwise raises "return type must be a row
    type" before it reads the UUID. *)
Theorem X4_decode_outside_row_context
    (fcinfo : FunctionCallInfo) (globalId : string) :
  valid_text globalId = true ->
  is_composite (get_call_result_type fcinfo) = false ->
  fraiseql_decode_global_id fcinfo (Some globalId) =
  match Base64.decode globalId with
  | None =>
      Raise (ereport_ERROR ERRCODE_INVALID_PARAMETER_VALUE "invalid base64 sequence")
  | Some payload =>
      if contains ":" (cstring payload)
      then Raise (elog_ERROR "return type must be a row type")
      else Raise (ereport_ERROR ERRCODE_INVALID_PARAMETER_VALUE
                    "invalid global ID format: missing colon separator")
  end.
Proof.
  intros Hv Hf. unfold fraiseql_decode_global_id, text_to_cstring, cstring_to_text.
  rewrite !(cstring_valid globalId) by assumption.
  destruct (Base64.decode globalId) as [payload|]; [|reflexivity].
  destruct (strchr (cstring payload) ":") as [n|] eqn:Es.
  - rewrite Hf. apply strchr_until in Es. apply until_parts in Es as [Ep _].
    rewrite Ep at 1. rewrite contains_app. cbn [contains Ascii.eqb Bool.eqb].
    now rewrite orb_true_r.
  - apply strchr_none in Es; [|discriminate].
    rewrite (cstring_valid (cstring payload)) in Es by apply valid_text_cstring.
    now rewrite Es.
Qed.

Lemma X4_witness :
  fraiseql_decode_global_id
    {| resultinfo := None; get_call_result_type := TYPEFUNC_SCALAR |}
    (Some "VXNlcjpub3QtYS11dWlk")
  = Raise (elog_ERROR "return type must be a row type").
Proof.
  apply (X4_decode_outside_row_context
           {| resultinfo := None; get_call_result_type := TYPEFUNC_SCALAR |}
           "VXNlcjpub3QtYS11dWlk"); reflexivity.
Defined.

(** X5.  The single resolver returns the empty set where no row of the view
    has the id, and otherwise one record, that of the first row of the view
    with the id: its type name, data and entity name, and the constant
    ['v_nodes'].  The backend is left as it was. *)
Theorem X5_resolve_node_first_match
    (fcinfo : FunctionCallInfo) (b : backend) (rel : relation) (id : pg_uuid_t) :
  call_ok fcinfo b ->
  nodes_view b rel ->
  (fraiseql_resolve_node_fast fcinfo b (Some id) = Return (Materialized [], b) /\
   forall row, In row (tuples rel) -> cell (columns rel) "id" row <> Some (VUuid id)) \/
  (exists before row after,
     tuples rel = (before ++ row :: after)%list /\
     (forall r, In r before -> cell (columns rel) "id" r <> Some (VUuid id)) /\
     cell (columns rel) "id" row = Some (VUuid id) /\
     fraiseql_resolve_node_fast fcinfo b (Some id) =
     Return (Materialized
               [[cell (columns rel) "__typename" row; cell (columns rel) "data" row;
                 cell (columns rel) "entity_name" row; Some (VText "v_nodes")]], b)).
Proof.
  intros Hc Hv. rewrite (resolve_node_value fcinfo b rel) by assumption.
  destruct (first_match (id_is (columns rel) id) (tuples rel))
    as [[E Hn] | (before & row & after & Et & Hb & Hr & E)]; rewrite E.
  - left. split; [reflexivity|]. intros row Hin Hid.
    apply id_is_cell in Hid. rewrite (Hn row Hin) in Hid. discriminate.
  - right. exists before, row, after. repeat split; try assumption.
    + intros r Hin Hid. apply id_is_cell in Hid. rewrite (Hb r Hin) in Hid.
      discriminate.
    + now apply id_is_cell.
Qed.

Lemma X5_witness :
  (fraiseql_resolve_node_fast Sample.fcinfo Sample.backend1 (Some Sample.B2)
   = Return (Materialized [], Sample.backend1) /\
   forall row, In row (tuples Sample.nodes1) ->
     cell (columns Sample.nodes1) "id" row <> Some (VUuid Sample.B2)) \/
  (exists before row after,
     tuples Sample.nodes1 = (before ++ row :: after)%list /\
     (forall r, In r before ->
        cell (columns Sample.nodes1) "id" r <> Some (VUuid Sample.B2)) /\
     cell (columns Sample.nodes1) "id" row = Some (VUuid Sample.B2) /\
     fraiseql_resolve_node_fast Sample.fcinfo Sample.backend1 (Some Sample.B2) =
     Return (Materialized
               [[cell (columns Sample.nodes1) "__typename" row;
                 cell (columns Sample.nodes1) "data" row;
                 cell (columns Sample.nodes1) "entity_name" row;
                 Some (VText "v_nodes")]], Sample.backend1)).
Proof.
  apply (X5_resolve_node_first_match Sample.fcinfo Sample.backend1 Sample.nodes1
           Sample.B2).
  - repeat split.
  - split; reflexivity.
Defined.

(** X6.  The batch resolver misses no row: when it returns, it returns one
    record for each row of the view whose id is a non-null element of the
    array, however often the id occurs in the array, and leaves the backend
    as it was. *)
Theorem X6_batch_returns_every_match
    (fcinfo : FunctionCallInfo) (b b' : backend) (rel : relation)
    (ids : list (option pg_uuid_t)) (out : list tuple) :
  call_ok fcinfo b ->
  nodes_view b rel ->
  fraiseql_resolve_nodes_batch fcinfo b
    (Some {| ARR_ELEMTYPE := UUIDOID; elems := ids |}) = Return (Materialized out, b') ->
  b' = b /\
  Permutation out
    (map (fun row => [cell (columns rel) "__typename" row; cell (columns rel) "data" row;
                      cell (columns rel) "entity_name" row; Some (VText "v_nodes_batch")])
         (filter (id_in (columns rel) (non_null ids)) (tuples rel))) /\
  forall row u,
    In row (tuples rel) -> cell (columns rel) "id" row = Some (VUuid u) ->
    In (Some u) ids ->
    In [cell (columns rel) "__typename" row; cell (columns rel) "data" row;
        cell (columns rel) "entity_name" row; Some (VText "v_nodes_batch")] out.
Proof.
  intros Hc Hv. rewrite (resolve_nodes_batch_value fcinfo b rel) by assumption.
  destruct (batch_items ids); [|discriminate].
  intros [= <- <-]. split; [reflexivity|].
  pose proof (batch_records rel (non_null ids)) as Hp.
  split; [exact Hp|].
  intros row u Hin Hid Hu.
  apply (Permutation_in _ (Permutation_sym Hp)).
  apply in_map_iff. exists row. split; [reflexivity|].
  apply filter_In. split; [assumption|].
  apply id_in_cell. exists u. split; [assumption | now apply In_non_null].
Qed.

Lemma X6_witness :
  Sample.backend1 = Sample.backend1 /\
  Permutation
    [[Some (VText "Alpha"); Some (VJsonb "{a1}"); Some (VText "alpha");
      Some (VText "v_nodes_batch")];
     [Some (VText "Beta"); Some (VJsonb "{b1}"); Some (VText "beta");
      Some (VText "v_nodes_batch")]]
    (map (fun row => [cell (columns Sample.nodes1) "__typename" row;
                      cell (columns Sample.nodes1) "data" row;
                      cell (columns Sample.nodes1) "entity_name" row;
                      Some (VText "v_nodes_batch")])
         (filter (id_in (columns Sample.nodes1)
                    (non_null [Some Sample.B1; None; Some Sample.A1; Some Sample.B1]))
                 (tuples Sample.nodes1))) /\
  forall row u,
    In row (tuples Sample.nodes1) ->
    cell (columns Sample.nodes1) "id" row = Some (VUuid u) ->
    In (Some u) [Some Sample.B1; None; Some Sample.A1; Some Sample.B1] ->
    In [cell (columns Sample.nodes1) "__typename" row;
        cell (columns Sample.nodes1) "data" row;
        cell (columns Sample.nodes1) "entity_name" row; Some (VText "v_nodes_batch")]
       [[Some (VText "Alpha"); Some (VJsonb "{a1}"); Some (VText "alpha");
         Some (VText "v_nodes_batch")];
        [Some (VText "Beta"); Some (VJsonb "{b1}"); Some (VText "beta");
         Some (VText "v_nodes_batch")]].
Proof.
  apply (X6_batch_returns_every_match Sample.fcinfo Sample.backend1 Sample.backend1
           Sample.nodes1 [Some Sample.B1; None; Some Sample.A1; Some Sample.B1]).
  - repeat split.
  - split; reflexivity.
  - vm_compute. reflexivity.
Defined.

(** X7.  The two resolvers agree: a record that the single resolver returns
    for an id is returned by the batch resolver for every array of UUIDs
    that holds the id, with ['v_nodes_batch'] in place of ['v_nodes']. *)
Theorem X7_single_record_in_batch
    (fcinfo : FunctionCallInfo) (b : backend) (rel : relation)
    (id : pg_uuid_t) (ids : list pg_uuid_t) (typeName data entityName : Datum) :
  call_ok fcinfo b ->
  nodes_view b rel ->
  In id ids ->
  fraiseql_resolve_node_fast fcinfo b (Some id)
    = Return (Materialized [[typeName; data; entityName; Some (VText "v_nodes")]], b) ->
  exists out,
    fraiseql_resolve_nodes_batch fcinfo b
      (Some {| ARR_ELEMTYPE := UUIDOID; elems := map Some ids |})
    = Return (Materialized out, b) /\
    In [typeName; data; entityName; Some (VText "v_nodes_batch")] out.
Proof.
  intros Hc Hv Hin.
  rewrite (resolve_node_value fcinfo b rel) by assumption.
  rewrite (resolve_nodes_batch_value fcinfo b rel) by assumption.
  rewrite batch_items_some, non_null_some.
  destruct (first_match (id_is (columns rel) id) (tuples rel))
    as [[E _] | (before & row & after & Et & _ & Hr & E)]; rewrite E; [discriminate|].
  cbn [map]. unfold node_tuple. intros [= <- <- <-].
  eexists. split; [reflexivity|].
  apply (Permutation_in _ (Permutation_sym (batch_records rel ids))).
  apply in_map_iff. exists row. split; [reflexivity|].
  apply filter_In. split.
  - rewrite Et. apply in_or_app. right. now left.
  - apply id_in_cell. exists id. split; [now apply id_is_cell | assumption].
Qed.

Lemma X7_witness :
  exists out,
    fraiseql_resolve_nodes_batch Sample.fcinfo Sample.backend1
      (Some {| ARR_ELEMTYPE := UUIDOID;
               elems := map Some [Sample.B1; Sample.A1] |})
    = Return (Materialized out, Sample.backend1) /\
    In [Some (VText "Alpha"); Some (VJsonb "{a1}"); Some (VText "alpha");
        Some (VText "v_nodes_batch")] out.
Proof.
  apply (X7_single_record_in_batch Sample.fcinfo Sample.backend1 Sample.nodes1
           Sample.A1 [Sample.B1; Sample.A1]).
  - repeat split.
  - split; reflexivity.
  - right. now left.
  - vm_compute. reflexivity.
Defined.

(** X8.  Null elements are skipped where the array starts with a UUID, is
    empty, or holds nulls only: the batch resolver returns what it returns
    for the non-null elements alone, and the empty set where there is
    none. *)
Theorem X8_batch_skips_nulls
    (fcinfo : FunctionCallInfo) (b : backend) (rel : relation)
    (elems : list (option pg_uuid_t)) :
  call_ok fcinfo b ->
  nodes_view b rel ->
  (exists u more, elems = Some u :: more) \/ non_null elems = [] ->
  exists out,
    fraiseql_resolve_nodes_batch fcinfo b
      (Some {| ARR_ELEMTYPE := UUIDOID; elems := elems |})
    = Return (Materialized out, b) /\
    fraiseql_resolve_nodes_batch fcinfo b
      (Some {| ARR_ELEMTYPE := UUIDOID; elems := map Some (non_null elems) |})
    = Return (Materialized out, b) /\
    (non_null elems = [] -> out = []).
Proof.
  intros Hc Hv Hs.
  rewrite !(resolve_nodes_batch_value fcinfo b rel) by assumption.
  rewrite batch_items_some, non_null_some.
  assert (Hi : batch_items elems <> None).
  { destruct Hs as [(u & more & ->) | Hn]; [discriminate|].
    unfold batch_items. destruct elems as [|[u|] more]; try discriminate.
    cbn [non_null] in Hn. now rewrite Hn. }
  destruct (batch_items elems); [|contradiction].
  eexists. split; [reflexivity|]. split; [reflexivity|].
  intros Hn. rewrite Hn.
  assert (E : batch_rows rel [] = []).
  { unfold batch_rows.
    replace (filter (id_in (columns rel) []) (tuples rel)) with (@nil tuple);
      [reflexivity|].
    induction (tuples rel) as [|row rows IH]; [reflexivity|].
    cbn [filter]. unfold id_in at 1.
    now destruct (cell (columns rel) "id" row) as [[| | |]|]. }
  now rewrite E.
Qed.

Lemma X8_witness :
  exists out,
    fraiseql_resolve_nodes_batch Sample.fcinfo Sample.backend1
      (Some {| ARR_ELEMTYPE := UUIDOID;
               elems := [Some Sample.A1; None; Some Sample.B1; None] |})
    = Return (Materialized out, Sample.backend1) /\
    fraiseql_resolve_nodes_batch Sample.fcinfo Sample.backend1
      (Some {| ARR_ELEMTYPE := UUIDOID;
               elems := map Some (non_null [Some Sample.A1; None; Some Sample.B1; None]) |})
    = Return (Materialized out, Sample.backend1) /\
    (non_null [Some Sample.A1; None; Some Sample.B1; None] = [] -> out = []).
Proof.
  apply (X8_batch_skips_nulls Sample.fcinfo Sample.backend1 Sample.nodes1
           [Some Sample.A1; None; Some Sample.B1; None]).
  - repeat split.
  - split; reflexivity.
  - left. now exists Sample.A1, [None; Some Sample.B1; None].
Defined.

(** X9.  The single resolver returns for a non-null id only in a call that
    accepts a materialized set of rows, with a row type, over a connected
    SPI; what it returns is a set of at most one record, and the backend is
    the one it was given. *)
Theorem X9_resolve_node_returns_in_context
    (fcinfo : FunctionCallInfo) (b b' : backend) (id : pg_uuid_t) (r : result) :
  fraiseql_resolve_node_fast fcinfo b (Some id) = Return (r, b') ->
  call_ok fcinfo b /\
  b' = b /\
  exists out, r = Materialized out /\ (List.length out <= 1)%nat.
Proof.
  unfold fraiseql_resolve_node_fast, call_ok.
  destruct (is_ReturnSetInfo (resultinfo fcinfo)); [|discriminate].
  destruct (Z.land (allowedModes (resultinfo fcinfo)) SFRM_Materialize =? 0)%Z;
    [discriminate|].
  destruct (is_composite (get_call_result_type fcinfo)); [|discriminate].
  cbn [negb]. destruct (SPI_connect b =? SPI_OK_CONNECT)%Z eqn:Ec; [|discriminate].
  apply Z.eqb_eq in Ec. unfold SPI_execute_with_args. rewrite parse_node_query.
  destruct (execute b [Some (VUuid id)] 1 (Select node_select)) as [sr|e] eqn:Ex;
    [|discriminate].
  apply execute_select_after in Ex as [Ea Es]. rewrite Es, Ea.
  change (SPI_OK_SELECT =? SPI_OK_SELECT)%Z with true. cbv iota.
  intros [= <- <-].
  repeat split; try assumption.
  eexists. split; [reflexivity|].
  destruct (0 <? _)%nat; cbn [app List.length]; lia.
Qed.

Lemma X9_witness :
  call_ok Sample.fcinfo Sample.backend1 /\
  Sample.backend1 = Sample.backend1 /\
  exists out,
    Materialized
      [[Some (VText "Alpha"); Some (VJsonb "{a1}"); Some (VText "alpha");
        Some (VText "v_nodes")]] = Materialized out /\
    (List.length out <= 1)%nat.
Proof.
  apply (X9_resolve_node_returns_in_context Sample.fcinfo Sample.backend1
           Sample.backend1 Sample.A1).
  vm_compute. reflexivity.
Defined.

(** X10.  The batch resolver returns for a non-null array only where the
    element type is [uuid], in a call that accepts a materialized set of
    rows, with a row type, over a connected SPI; what it returns is a set of
    records of four fields, the last of them ['v_nodes_batch'], and the
    backend is the one it was given. *)
Theorem X10_batch_returns_in_context
    (fcinfo : FunctionCallInfo) (b b' : backend) (arr : ArrayType) (r : result) :
  fraiseql_resolve_nodes_batch fcinfo b (Some arr) = Return (r, b') ->
  ARR_ELEMTYPE arr = UUIDOID /\
  call_ok fcinfo b /\
  b' = b /\
  exists out,
    r = Materialized out /\
    forall record, In record out ->
      List.length record = 4 /\ nth 3 record None = Some (VText "v_nodes_batch").
Proof.
  unfold fraiseql_resolve_nodes_batch, call_ok.
  destruct (ARR_ELEMTYPE arr =? UUIDOID)%Z eqn:Ee; [|discriminate].
  apply Z.eqb_eq in Ee.
  destruct (is_ReturnSetInfo (resultinfo fcinfo)); [|discriminate].
  destruct (Z.land (allowedModes (resultinfo fcinfo)) SFRM_Materialize =? 0)%Z;
    [discriminate|].
  destruct (is_composite (get_call_result_type fcinfo)); [|discriminate].
  cbn [negb]. destruct (SPI_connect b =? SPI_OK_CONNECT)%Z eqn:Ec; [|discriminate].
  apply Z.eqb_eq in Ec.
  unfold SPI_execute, SPI_execute_with_args. rewrite parse_statement_batch.
  destruct (batch_items (elems arr)) as [items|]; cbn [option_map]; [|discriminate].
  destruct (execute b [] 0 (Select (batch_select items))) as [sr|e] eqn:Ex;
    [|discriminate].
  apply execute_select_after in Ex as [Ea Es]. rewrite Es, Ea.
  change (SPI_OK_SELECT =? SPI_OK_SELECT)%Z with true. cbv iota.
  intros [= <- <-]. repeat split; try assumption.
  eexists. split; [reflexivity|]. cbn [app]. intros record Hin.
  apply in_map_iff in Hin as (row & <- & _). now split.
Qed.

Lemma X10_witness :
  ARR_ELEMTYPE {| ARR_ELEMTYPE := UUIDOID; elems := [Some Sample.A1; None] |} = UUIDOID /\
  call_ok Sample.fcinfo Sample.backend1 /\
  Sample.backend1 = Sample.backend1 /\
  exists out,
    Materialized
      [[Some (VText "Alpha"); Some (VJsonb "{a1}"); Some (VText "alpha");
        Some (VText "v_nodes_batch")]] = Materialized out /\
    forall record, In record out ->
      List.length record = 4 /\ nth 3 record None = Some (VText "v_nodes_batch").
Proof.
  apply (X10_batch_returns_in_context Sample.fcinfo Sample.backend1 Sample.backend1
           {| ARR_ELEMTYPE := UUIDOID; elems := [Some Sample.A1; None] |}).
  vm_compute. reflexivity.
Defined.

(** X11.  Where [core.v_nodes] does not exist (no refresh has defined it)
    the resolvers do not return an empty set: the server raises over their
    statement and the error leaves the call.  For the single resolver it is
    "relation does not exist" for [core.v_nodes]; for the batch resolver it
    is that error, or the syntax error of an array literal that starts with
    a comma.  The messages of the call sites are not what the caller
    sees. *)
Theorem X11_resolvers_without_view
    (fcinfo : FunctionCallInfo) (b : backend)
    (id : pg_uuid_t) (elems : list (option pg_uuid_t)) :
  call_ok fcinfo b ->
  v_nodes b = None ->
  fraiseql_resolve_node_fast fcinfo b (Some id)
    = Raise (ereport_ERROR ERRCODE_UNDEFINED_TABLE
               ("relation " ++ in_quotes "core.v_nodes" ++ " does not exist")) /\
  exists e,
    fraiseql_resolve_nodes_batch fcinfo b
      (Some {| ARR_ELEMTYPE := UUIDOID; elems := elems |}) = Raise e /\
    (sqlerrcode e = ERRCODE_SYNTAX_ERROR \/
     e = ereport_ERROR ERRCODE_UNDEFINED_TABLE
           ("relation " ++ in_quotes "core.v_nodes" ++ " does not exist")).
Proof.
  intros (H1 & H2 & H3 & H4) Hv.
  assert (Hr : resolve b "core.v_nodes" = None).
  { unfold resolve. change ("core.v_nodes" =? "core.v_nodes")%string with true.
    cbv iota. now rewrite Hv. }
  assert (He : resolve_error b "core.v_nodes" = undefined_table "core.v_nodes").
  { unfold resolve_error. change ("core.v_nodes" =? "core.v_nodes")%string with true.
    cbv iota. now rewrite Hv. }
  split.
  - unfold fraiseql_resolve_node_fast. rewrite H1, H2, H3, H4. cbn [negb].
    change (SPI_OK_CONNECT =? SPI_OK_CONNECT)%Z with true. cbv iota.
    unfold SPI_execute_with_args. rewrite parse_node_query.
    unfold execute. cbn [from node_select]. now rewrite Hr, He.
  - unfold fraiseql_resolve_nodes_batch. cbn [ARR_ELEMTYPE Relay.elems].
    rewrite H1, H2, H3, H4. cbn [negb Z.eqb UUIDOID SPI_OK_CONNECT Pos.eqb].
    unfold SPI_execute, SPI_execute_with_args. rewrite parse_statement_batch.
    destruct (batch_items elems); cbn [option_map].
    + unfold execute. cbn [from batch_select]. rewrite Hr, He.
      eexists. split; [reflexivity | now right].
    + eexists. split; [reflexivity | now left].
Qed.

Lemma X11_witness :
  fraiseql_resolve_node_fast Sample.fcinfo Sample.backend0 (Some Sample.A1)
    = Raise (ereport_ERROR ERRCODE_UNDEFINED_TABLE
               ("relation " ++ in_quotes "core.v_nodes" ++ " does not exist")) /\
  exists e,
    fraiseql_resolve_nodes_batch Sample.fcinfo Sample.backend0
      (Some {| ARR_ELEMTYPE := UUIDOID; elems := [Some Sample.A1] |}) = Raise e /\
    (sqlerrcode e = ERRCODE_SYNTAX_ERROR \/
     e = ereport_ERROR ERRCODE_UNDEFINED_TABLE
           ("relation " ++ in_quotes "core.v_nodes" ++ " does not exist")).
Proof.
  apply (X11_resolvers_without_view Sample.fcinfo Sample.backend0 Sample.A1
           [Some Sample.A1]).
  - repeat split.
  - reflexivity.
Defined.



(** X14.  A descriptor whose data table does not exist, or lacks a column
    that the view reads (the primary key, data, created_at, updated_at or
    the soft-delete column), makes the refresh fail at the statement of the
    view, whatever the other descriptors are: the server raises "relation
    does not exist" or "column does not exist" and no statement on an index
    is sent. *)
Theorem X14_refresh_fails_at_view (b : backend) (r : registry_row) :
  SPI_connect b = SPI_OK_CONNECT ->
  forallb safe_descriptor (registered b) = true ->
  In r (registered b) ->
  table_ok b r = false ->
  exists e,
    refresh_view b = Raise e /\
    fraiseql_refresh_nodes_view_fast b = Raise e /\
    (sqlerrcode e = ERRCODE_UNDEFINED_TABLE \/ sqlerrcode e = ERRCODE_UNDEFINED_COLUMN).
Proof.
  intros Hc Hs Hin Hr. pose proof (safe_descriptors_ok _ Hs) as Hd.
  assert (E : refresh_view b = Raise (view_error b (view_branches b))).
  { rewrite refresh_view_value by assumption.
    unfold SPI_execute, SPI_execute_with_args.
    rewrite parse_view_statement by assumption. unfold execute.
    change ("core.v_nodes" =? "core.v_nodes")%string with true. cbv iota.
    assert (Ev : view_relation b (view_branches b) = None).
    { unfold view_branches.
      destruct (registered b) as [|r0 rows] eqn:Er; [contradiction|].
      unfold view_relation. rewrite view_ok_branches.
      now rewrite (union_rows_missing b r (r0 :: rows)). }
    now rewrite Ev. }
  exists (view_error b (view_branches b)). split; [exact E|]. split.
  - unfold fraiseql_refresh_nodes_view_fast. now rewrite E.
  - unfold view_branches.
    destruct (registered b) as [|r0 rows] eqn:Er; [contradiction|].
    now apply (view_error_missing b r).
Qed.

Lemma X14_witness :
  exists e,
    refresh_view Sample.plain_backend = Raise e /\
    fraiseql_refresh_nodes_view_fast Sample.plain_backend = Raise e /\
    (sqlerrcode e = ERRCODE_UNDEFINED_TABLE \/ sqlerrcode e = ERRCODE_UNDEFINED_COLUMN).
Proof.
  apply (X14_refresh_fails_at_view Sample.plain_backend
           {| entity_name := "alpha"; graphql_type := "Alpha"; pk_column := "id";
              tv_table := Some "tv_alpha"; v_table := Some "v_alpha";
              source_table := "tb_alpha"; soft_delete_column := None |}).
  - reflexivity.
  - reflexivity.
  - now left.
  - reflexivity.
Defined.

(** X17.  Loading and unloading: [_PG_fini] after [_PG_init] deletes the
    context that [_PG_init] created, so the live contexts are those from
    before, resets the global to NULL, and leaves the one notice of
    [_PG_init]; [_PG_fini] deletes at most once, a second call changes
    nothing. *)
Theorem X17_init_then_fini (p : process) :
  TopMemoryContext (_PG_fini (_PG_init p)) = TopMemoryContext p /\
  fraiseql_relay_context (_PG_fini (_PG_init p)) = None /\
  notices (_PG_fini (_PG_init p))
  = (notices p ++ ["FraiseQL Relay extension v1.0 initialized"])%list /\
  _PG_fini (_PG_fini p) = _PG_fini p.
Proof.
  repeat split.
  - unfold _PG_fini, _PG_init, AllocSetContextCreate.
    cbn [fraiseql_relay_context elog_NOTICE set_context MemoryContextDelete
         TopMemoryContext context_id].
    apply delete_fresh.
  - unfold _PG_fini.
    destruct (fraiseql_relay_context p) eqn:E;
      cbn [fraiseql_relay_context set_context]; [reflexivity | now rewrite E].
Qed.

(** X18.  [_PG_init] does not look at the global before it overwrites it:
    a context that the global pointed to when [_PG_init] runs stays alive,
    and [_PG_fini] afterwards does not delete it. *)
Theorem X18_init_overwrites_context (p : process) (c : MemoryContext) :
  fraiseql_relay_context p = Some c ->
  In c (TopMemoryContext p) ->
  fraiseql_relay_context (_PG_init p) <> Some c /\
  In c (TopMemoryContext (_PG_init p)) /\
  In c (TopMemoryContext (_PG_fini (_PG_init p))) /\
  fraiseql_relay_context (_PG_fini (_PG_init p)) = None.
Proof.
  intros Hp Hc.
  assert (Ht : TopMemoryContext (_PG_fini (_PG_init p)) = TopMemoryContext p).
  { unfold _PG_fini, _PG_init, AllocSetContextCreate.
    cbn [fraiseql_relay_context elog_NOTICE set_context MemoryContextDelete
         TopMemoryContext context_id].
    apply delete_fresh. }
  repeat split.
  - unfold _PG_init, AllocSetContextCreate.
    cbn [fraiseql_relay_context elog_NOTICE set_context].
    intros [= E]. pose proof (fresh_id_above _ _ Hc) as Hlt.
    rewrite <- E in Hlt. cbn [context_id] in Hlt. lia.
  - unfold _PG_init, AllocSetContextCreate.
    cbn [TopMemoryContext elog_NOTICE set_context]. now right.
  - now rewrite Ht.
Qed.

Lemma X18_witness :
  fraiseql_relay_context
    (_PG_init (_PG_init {| TopMemoryContext := []; fraiseql_relay_context := None;
                           notices := [] |}))
  <> Some {| context_id := 1; context_name := "FraiseQL Relay Context" |} /\
  In {| context_id := 1; context_name := "FraiseQL Relay Context" |}
     (TopMemoryContext
        (_PG_init (_PG_init {| TopMemoryContext := []; fraiseql_relay_context := None;
                               notices := [] |}))) /\
  In {| context_id := 1; context_name := "FraiseQL Relay Context" |}
     (TopMemoryContext
        (_PG_fini
           (_PG_init (_PG_init {| TopMemoryContext := []; fraiseql_relay_context := None;
                                  notices := [] |})))) /\
  fraiseql_relay_context
    (_PG_fini
       (_PG_init (_PG_init {| TopMemoryContext := []; fraiseql_relay_context := None;
                              notices := [] |}))) = None.
Proof.
  apply (X18_init_overwrites_context
           (_PG_init {| TopMemoryContext := []; fraiseql_relay_context := None;
                        notices := [] |})
           {| context_id := 1; context_name := "FraiseQL Relay Context" |}).
  - reflexivity.
  - now left.
Defined.

(** X20.  The statement of the view does not depend on the order in which
    the registry holds its rows: over two registries with the same rows,
    entity names being unique, the registry query returns the same rows in
    the same order (ORDER BY entity_name), and the refresh builds the same
    text. *)
Theorem X20_refresh_ignores_registry_order (b1 b2 : backend) :
  Permutation (tb_entity_registry b1) (tb_entity_registry b2) ->
  NoDup (map entity_name (tb_entity_registry b1)) ->
  exists vals,
    SPI_execute b1 registry_query true 0
    = Return {| status := SPI_OK_SELECT; SPI_processed := List.length vals;
                SPI_tuptable := vals; after := b1 |} /\
    SPI_execute b2 registry_query true 0
    = Return {| status := SPI_OK_SELECT; SPI_processed := List.length vals;
                SPI_tuptable := vals; after := b2 |} /\
    view_statement b1 = view_statement b2.
Proof.
  intros P Hn. pose proof (registered_permutation b1 b2 P Hn) as Hr.
  exists (map descriptor_tuple (registered b1)).
  rewrite length_map. split; [apply registry_query_result|]. split.
  - rewrite Hr. apply registry_query_result.
  - unfold view_statement. rewrite !registry_query_result.
    cbn [SPI_processed SPI_tuptable]. now rewrite Hr.
Qed.

Lemma X20_witness :
  exists vals,
    SPI_execute Sample.backend0 registry_query true 0
    = Return {| status := SPI_OK_SELECT; SPI_processed := List.length vals;
                SPI_tuptable := vals; after := Sample.backend0 |} /\
    SPI_execute Sample.reordered_backend registry_query true 0
    = Return {| status := SPI_OK_SELECT; SPI_processed := List.length vals;
                SPI_tuptable := vals; after := Sample.reordered_backend |} /\
    view_statement Sample.backend0 = view_statement Sample.reordered_backend.
Proof.
  apply (X20_refresh_ignores_registry_order Sample.backend0 Sample.reordered_backend).
  - apply perm_swap.
  - repeat constructor; cbn; intuition discriminate.
Defined.
